(** * ufoLib2 object model: lazy data stores, glyph invariants, font saving

  A shallow embedding of four modules of [ufoLib2.objects]:
  - [misc.py]: the lazily loaded [DataStore] mapping,
  - [glyph.py]: the [unicode] property and the horizontal margins,
  - [deepComponent.py]: [DeepComponent.drawPoints],
  - [font.py]: [Font.write] and [Font.save].

  Python objects are mutable, so every method is a function from the
  object's state (and the state of the outside world it talks to) to a
  result and the new state.  A raised exception is a value of [result];
  the state that comes with it is the state at the moment of the raise,
  as in Python, where a raise does not roll anything back. *)

From Stdlib Require Import ZArith String List.
From stdpp Require Import base decidable option list gmap strings sets pretty.
Open Scope string_scope.
Open Scope list_scope.

(** * Part I: the embedding *)

(** ** Exceptions and results *)

Inductive exn : Type :=
| KeyError (key : string)
| AttributeError (name : string)
| TypeError (msg : string)
| NotImplementedError (msg : string)
| AssertionError
| ValueError (msg : string)
| OSError (errno : Z) (msg : string).

Inductive result (A : Type) : Type :=
| Ok (a : A)
| Raise (e : exn).
Arguments Ok {A} a.
Arguments Raise {A} e.

Definition is_ok {A} (r : result A) : bool :=
match r with Ok _ => true | Raise _ => false end.

Definition is_TypeError (e : exn) : bool :=
match e with TypeError _ => true | _ => false end.

(** ** Python dictionaries

  A [dict] keeps its keys in insertion order and [DataStore.write]
  iterates over it, so the dictionary is an association list: assigning
  to a present key keeps the key's position, assigning to a new key
  appends it. *)

Module pydict.
Section dict.
Context {V : Type}.

Fixpoint get (k : string) (d : list (string * V)) : option V :=
  match d with
  | [] => None
  | (k', v) :: d' => if decide (k' = k) then Some v else get k d'
  end.

Fixpoint set (k : string) (v : V) (d : list (string * V)) : list (string * V) :=
  match d with
  | [] => [(k, v)]
  | (k', v') :: d' =>
      if decide (k' = k) then (k, v) :: d' else (k', v') :: set k v d'
  end.

Fixpoint del (k : string) (d : list (string * V)) : list (string * V) :=
  match d with
  | [] => []
  | (k', v') :: d' => if decide (k' = k) then d' else (k', v') :: del k d'
  end.

Definition keys (d : list (string * V)) : list string := d.*1.

End dict.
End pydict.

(** ** misc.py: [DataStore]

  [listdir], [readf], [writef] and [deletef] are class attributes that
  the subclasses ([DataSet], [ImageSet]) bind to methods of the UFO
  reader and writer.  They are the store's interface to the container:
  here they are parameters, each call to them is recorded as an [event],
  and a call that fails answers [Raise]. *)

Module misc.

Inductive slot (Payload : Type) : Type :=
| NOT_LOADED
| Loaded (data : Payload).
Arguments NOT_LOADED {Payload}.
Arguments Loaded {Payload} data.

Inductive event (Reader Writer Payload : Type) : Type :=
| EvListdir (reader : Reader)
| EvRead (reader : Reader) (fileName : string)
| EvWrite (writer : Writer) (fileName : string) (data : Payload)
| EvDelete (writer : Writer) (fileName : string).
Arguments EvListdir {Reader Writer Payload} reader.
Arguments EvRead {Reader Writer Payload} reader fileName.
Arguments EvWrite {Reader Writer Payload} writer fileName data.
Arguments EvDelete {Reader Writer Payload} writer fileName.

Record DataStore (Reader Payload : Type) : Type := mkDataStore {
_data : list (string * slot Payload);
_scheduledForDeletion : gset string;
(* the [reader] attribute exists only on a store read lazily *)
reader : option Reader
}.
Arguments mkDataStore {Reader Payload} _ _ _.
Arguments _data {Reader Payload} _.
Arguments _scheduledForDeletion {Reader Payload} _.
Arguments reader {Reader Payload} _.

Definition is_delete_of {Reader Writer Payload}
  (k : string) (ev : event Reader Writer Payload) : bool :=
match ev with EvDelete _ f => bool_decide (f = k) | _ => false end.

Definition is_delete {Reader Writer Payload}
  (ev : event Reader Writer Payload) : bool :=
match ev with EvDelete _ _ => true | _ => false end.

Definition is_read_of {Reader Writer Payload}
  (k : string) (ev : event Reader Writer Payload) : bool :=
match ev with EvRead _ f => bool_decide (f = k) | _ => false end.

Definition is_read {Reader Writer Payload}
  (ev : event Reader Writer Payload) : bool :=
match ev with EvRead _ _ => true | _ => false end.

Definition count_if {A} (f : A → bool) (l : list A) : nat :=
  length (List.filter f l).

(** The [(fileName, data)] pairs handed to [writef], in call order. *)
Definition written {Reader Writer Payload}
  (evs : list (event Reader Writer Payload)) : list (string * Payload) :=
omap (λ ev, match ev with EvWrite _ f d => Some (f, d) | _ => None end) evs.

Section DataStore.
Context {Reader Writer Payload : Type}.
Variable listdir : Reader → list string.
Variable readf : Reader → string → result Payload.
Variable writef : Writer → string → Payload → result unit.
Variable deletef : Writer → string → result unit.

Local Abbreviation store := (DataStore Reader Payload).
Local Abbreviation trace := (list (event Reader Writer Payload)).

(** [DataStore(data)]: attrs sets [_data], then [__attrs_post_init__]
    creates the empty deletion set. *)
Definition new (data : list (string * slot Payload)) : store :=
  mkDataStore data ∅ None.

Fixpoint read_loop (r : Reader) (lazy : bool) (names : list string)
    (d : list (string * slot Payload))
    : result (list (string * slot Payload)) * trace :=
  match names with
  | [] => (Ok d, [])
  | fileName :: rest =>
      if lazy then read_loop r lazy rest (pydict.set fileName NOT_LOADED d)
      else
        match readf r fileName with
        | Ok p =>
            let '(res, evs) :=
              read_loop r lazy rest (pydict.set fileName (Loaded p) d) in
            (res, EvRead r fileName :: evs)
        | Raise e => (Raise e, [EvRead r fileName])
        end
  end.

Definition read (r : Reader) (lazy : bool) : result store * trace :=
  let '(res, evs) := read_loop r lazy (listdir r) [] in
  match res with
  | Ok d =>
      (Ok (mkDataStore d ∅ (if lazy then Some r else None)),
       EvListdir r :: evs)
  | Raise e => (Raise e, EvListdir r :: evs)
  end.

Definition __len__ (self : store) : nat := length (_data self).

Definition __iter__ (self : store) : list string := pydict.keys (_data self).

Definition __getitem__ (fileName : string) (self : store)
    : result Payload * store * trace :=
  match pydict.get fileName (_data self) with
  | None => (Raise (KeyError fileName), self, [])
  | Some (Loaded p) => (Ok p, self, [])
  | Some NOT_LOADED =>
      match reader self with
      | None => (Raise (AttributeError "reader"), self, [])
      | Some r =>
          match readf r fileName with
          | Ok p =>
              (Ok p,
               mkDataStore (pydict.set fileName (Loaded p) (_data self))
                 (_scheduledForDeletion self) (reader self),
               [EvRead r fileName])
          | Raise e => (Raise e, self, [EvRead r fileName])
          end
      end
  end.

Definition __setitem__ (fileName : string) (data : Payload) (self : store) : store :=
  mkDataStore (pydict.set fileName (Loaded data) (_data self))
    (_scheduledForDeletion self ∖ {[fileName]}) (reader self).

Definition __delitem__ (fileName : string) (self : store) : result unit * store :=
  match pydict.get fileName (_data self) with
  | None => (Raise (KeyError fileName), self)
  | Some _ =>
      (Ok tt,
       mkDataStore (pydict.del fileName (_data self))
         ({[fileName]} ∪ _scheduledForDeletion self) (reader self))
  end.

(** [for fileName in self._scheduledForDeletion: deletef(writer, fileName)] *)
Fixpoint delete_loop (w : Writer) (names : list string) : result unit * trace :=
  match names with
  | [] => (Ok tt, [])
  | fileName :: rest =>
      match deletef w fileName with
      | Ok _ =>
          let '(res, evs) := delete_loop w rest in
          (res, EvDelete w fileName :: evs)
      | Raise e => (Raise e, [EvDelete w fileName])
      end
  end.

(** [for fileName, data in self.items(): writef(writer, fileName, data)].
    [items()] is the mixin view of [MutableMapping]: it walks the keys
    and looks each one up with [__getitem__], which loads the entry. *)
Fixpoint write_loop (w : Writer) (names : list string) (self : store)
    : result unit * store * trace :=
  match names with
  | [] => (Ok tt, self, [])
  | fileName :: rest =>
      match __getitem__ fileName self with
      | (Raise e, self1, evs) => (Raise e, self1, evs)
      | (Ok data, self1, evs) =>
          match writef w fileName data with
          | Raise e => (Raise e, self1, evs ++ [EvWrite w fileName data])
          | Ok _ =>
              let '(res, self2, evs2) := write_loop w rest self1 in
              (res, self2, evs ++ EvWrite w fileName data :: evs2)
          end
      end
  end.

(** A Python [set] is iterated in an unspecified order; [elements] fixes
    one. *)
Definition write (w : Writer) (saveAs : bool) (self : store)
    : result unit * store * trace :=
  let '(res1, evs1) :=
    if saveAs then (Ok tt, [])
    else delete_loop w (elements (_scheduledForDeletion self)) in
  match res1 with
  | Raise e => (Raise e, self, evs1)
  | Ok _ =>
      match write_loop w (__iter__ self) self with
      | (Raise e, self1, evs2) => (Raise e, self1, evs1 ++ evs2)
      | (Ok _, self1, evs2) =>
          (Ok tt,
           mkDataStore (_data self1) ∅
             (if saveAs then None else reader self1),
           evs1 ++ evs2)
      end
  end.

Definition fileNames (self : store) : list string := pydict.keys (_data self).

(** *** Clients of a store

    What a caller can do with a store: build it with the constructor or
    with [read], then call the mapping methods and [write] in any order.
    A caller may catch an exception and go on, so a raise does not end
    the sequence. *)

Inductive reachable : store → Prop :=
  | reach_new d :
      NoDup (pydict.keys d) →
      (∀ k, pydict.get k d ≠ Some NOT_LOADED) →
      reachable (new d)
  | reach_read r lazy s evs :
      read r lazy = (Ok s, evs) → reachable s
  | reach_getitem k s :
      reachable s → reachable (__getitem__ k s).1.2
  | reach_setitem k v s :
      reachable s → reachable (__setitem__ k v s)
  | reach_delitem k s :
      reachable s → reachable (__delitem__ k s).2
  | reach_write w saveAs s :
      reachable s → reachable (write w saveAs s).1.2.

(** Successive look-ups [self[k1], self[k2], ...]; stops at the first
    raise. *)
Fixpoint getitems (names : list string) (self : store)
    : result (list Payload) * store * trace :=
  match names with
  | [] => (Ok [], self, [])
  | fileName :: rest =>
      match __getitem__ fileName self with
      | (Raise e, self1, evs) => (Raise e, self1, evs)
      | (Ok p, self1, evs) =>
          let '(res, self2, evs2) := getitems rest self1 in
          (match res with Ok ps => Ok (p :: ps) | Raise e => Raise e end,
           self2, evs ++ evs2)
      end
  end.

(** The payload an entry stands for: its own when loaded, the reader's
    when not. *)
Definition resolve (self : store) (fileName : string) : option Payload :=
  match pydict.get fileName (_data self) with
  | Some (Loaded p) => Some p
  | Some NOT_LOADED =>
      match reader self with
      | Some r => match readf r fileName with Ok p => Some p | Raise _ => None end
      | None => None
      end
  | None => None
  end.

Definition is_unloaded (self : store) (fileName : string) : bool :=
  match pydict.get fileName (_data self) with
  | Some NOT_LOADED => true
  | _ => false
  end.

(** The store's invariant. *)
Record wf (self : store) : Prop := mk_wf {
  wf_nodup : NoDup (pydict.keys (_data self));
  wf_exclusive :
    ∀ k, k ∈ _scheduledForDeletion self → pydict.get k (_data self) = None;
  wf_reader :
    ∀ k, pydict.get k (_data self) = Some NOT_LOADED → is_Some (reader self)
}.
End DataStore.

(** *** A container in memory *)

(** Modelled from the spec: the adapters that [DataSet] and [ImageSet]
    (not in the modules at hand) bind to the reader and the writer,
    [listEntries], [readEntry], [writeEntry] and [deleteEntry], for the
    simplest container: a reader is the association list of what the
    container holds, reading a name that is not there raises [KeyError],
    writing and deleting always succeed. *)

Definition mem_listdir (r : list (string * string)) : list string :=
  pydict.keys r.

Definition mem_readf (r : list (string * string)) (fileName : string)
    : result string :=
  match pydict.get fileName r with
  | Some p => Ok p
  | None => Raise (KeyError fileName)
  end.

Definition mem_writef (w : string) (fileName data : string) : result unit :=
  Ok tt.

Definition mem_deletef (w : string) (fileName : string) : result unit :=
  Ok tt.

Definition mem_read :=
  read (Writer:=string) mem_listdir mem_readf.

Definition mem_reachable :=
  reachable mem_listdir mem_readf mem_writef mem_deletef.

Definition sample_container : list (string * string) :=
  [("a.bin", "A"); ("b.bin", "B"); ("c.bin", "C")].

(** [DataSet.read(reader, lazy=True)] on the sample container. *)
Definition sample_lazy : DataStore (list (string * string)) string :=
  mkDataStore
    [("a.bin", NOT_LOADED); ("b.bin", NOT_LOADED); ("c.bin", NOT_LOADED)]
    ∅ (Some sample_container).
End misc.

(** ** glyph.py: [Glyph]

    The fields are those the modelled methods read or write; a glyph's
    image, lib, guidelines and deep-component lists take no part in them.
    Coordinates and widths are integers in font units. *)

Module glyph.
Local Open Scope Z_scope.

(** Modelled from the spec: [BoundingBox], which [glyph.py] imports from
    [ufoLib2.objects.misc] and which the [misc.py] at hand does not
    define; the box (xMin, yMin, xMax, yMax) that a bounds query answers. *)
Record BoundingBox : Type := mkBoundingBox {
  xMin : Z;
  yMin : Z;
  xMax : Z;
  yMax : Z
}.

Record Glyph (Contour Component Anchor : Type) : Type := mkGlyph {
  _name : option string;
  width : Z;
  height : Z;
  unicodes : list Z;
  note : option string;
  _anchors : list Anchor;
  components : list Component;
  contours : list Contour
}.
Arguments mkGlyph {Contour Component Anchor} _ _ _ _ _ _ _ _.
Arguments _name {Contour Component Anchor} _.
Arguments width {Contour Component Anchor} _.
Arguments height {Contour Component Anchor} _.
Arguments unicodes {Contour Component Anchor} _.
Arguments note {Contour Component Anchor} _.
Arguments _anchors {Contour Component Anchor} _.
Arguments components {Contour Component Anchor} _.
Arguments contours {Contour Component Anchor} _.

(** [list.remove(value)]: drops the first item equal to [value];
    [None] stands for the [ValueError] of a list without such an item. *)
Fixpoint list_remove (value : Z) (l : list Z) : option (list Z) :=
  match l with
  | [] => None
  | x :: l' =>
      if decide (x = value) then Some l'
      else match list_remove value l' with
           | Some l'' => Some (x :: l'')
           | None => None
           end
  end.

(** What the specification says of the [unicode] setter for a value:
    every occurrence of the value leaves the list, then the value is put
    in front. *)
Definition spec_unicodes_after_set (value : Z) (us : list Z) : list Z :=
  value :: List.filter (λ u, negb (Z.eqb u value)) us.

Definition shift_box (delta : Z * Z) (b : BoundingBox) : BoundingBox :=
  mkBoundingBox (xMin b + delta.1) (yMin b + delta.2)
                (xMax b + delta.1) (yMax b + delta.2).

Section Glyph.
Context {Contour Component Anchor Layer : Type}.
(** [Contour.move], [Component.move], [Anchor.move] and
    [ufoLib2.objects.misc.getBounds] are defined outside this module. *)
Variable contour_move : Z * Z → Contour → Contour.
Variable component_move : Z * Z → Component → Component.
Variable anchor_move : Z * Z → Anchor → Anchor.
Variable misc_getBounds :
  Glyph Contour Component Anchor → option Layer → option BoundingBox.

Local Abbreviation glyph := (Glyph Contour Component Anchor).

Definition set_unicodes (us : list Z) (self : glyph) : glyph :=
  mkGlyph (_name self) (width self) (height self) us (note self)
    (_anchors self) (components self) (contours self).

Definition set_width (w : Z) (self : glyph) : glyph :=
  mkGlyph (_name self) w (height self) (unicodes self) (note self)
    (_anchors self) (components self) (contours self).

(** The [unicode] property, getter. *)
Definition unicode (self : glyph) : option Z :=
  match unicodes self with
  | u :: _ => Some u
  | [] => None
  end.

(** The [unicode] property, setter. *)
Definition unicode_setter (value : option Z) (self : glyph) : glyph :=
  match value with
  | None => set_unicodes [] self
  | Some v =>
      match unicodes self with
      | u :: _ =>
          if decide (u = v) then self
          else
            let us1 :=
              match list_remove v (unicodes self) with
              | Some l => l
              | None => unicodes self   (* except ValueError: pass *)
              end in
            set_unicodes (v :: us1) self
      | [] => set_unicodes ([] ++ [v]) self
      end
  end.

Definition move (delta : Z * Z) (self : glyph) : glyph :=
  mkGlyph (_name self) (width self) (height self) (unicodes self) (note self)
    (anchor_move delta <$> _anchors self)
    (component_move delta <$> components self)
    (contour_move delta <$> contours self).

Definition getBounds (layer : option Layer) (self : glyph)
    : result (option BoundingBox) :=
  match layer, components self with
  | None, _ :: _ =>
      Raise (TypeError "layer is required to compute bounds of components")
  | _, _ => Ok (misc_getBounds self layer)
  end.

Definition getLeftMargin (layer : option Layer) (self : glyph)
    : result (option Z) :=
  match getBounds layer self with
  | Raise e => Raise e
  | Ok None => Ok None
  | Ok (Some bounds) => Ok (Some (xMin bounds))
  end.

Definition setLeftMargin (value : Z) (layer : option Layer) (self : glyph)
    : result unit * glyph :=
  match getBounds layer self with
  | Raise e => (Raise e, self)
  | Ok None => (Ok tt, self)
  | Ok (Some bounds) =>
      let diff := value - xMin bounds in
      if decide (diff = 0) then (Ok tt, self)
      else (Ok tt, move (diff, 0) (set_width (width self + diff) self))
  end.

Definition getRightMargin (layer : option Layer) (self : glyph)
    : result (option Z) :=
  match getBounds layer self with
  | Raise e => Raise e
  | Ok None => Ok None
  | Ok (Some bounds) => Ok (Some (width self - xMax bounds))
  end.

Definition setRightMargin (value : Z) (layer : option Layer) (self : glyph)
    : result unit * glyph :=
  match getBounds layer self with
  | Raise e => (Raise e, self)
  | Ok None => (Ok tt, self)
  | Ok (Some bounds) => (Ok tt, set_width (xMax bounds + value) self)
  end.
End Glyph.

(** *** Outlines made of straight segments *)

(** Modelled from the spec: [Contour.move], [Anchor.move] and
    [misc.getBounds], none of them in the modules at hand, for a glyph
    without components whose contours are polygons: a contour is the list
    of its points, an anchor is a point, moving adds the offset to every
    point ("shifts all contour/component/anchor geometry by that delta"),
    and the bounds are the bounding box of all the points. *)
Definition move_point (delta : Z * Z) (p : Z * Z) : Z * Z :=
  (p.1 + delta.1, p.2 + delta.2).

Definition poly_move (delta : Z * Z) (c : list (Z * Z)) : list (Z * Z) :=
  move_point delta <$> c.

Definition add_point (p : Z * Z) (b : option BoundingBox) : option BoundingBox :=
  match b with
  | None => Some (mkBoundingBox p.1 p.2 p.1 p.2)
  | Some b =>
      Some (mkBoundingBox (Z.min (xMin b) p.1) (Z.min (yMin b) p.2)
                          (Z.max (xMax b) p.1) (Z.max (yMax b) p.2))
  end.

Definition points_bounds (ps : list (Z * Z)) : option BoundingBox :=
  foldr add_point None ps.

Definition poly_getBounds
    (g : Glyph (list (Z * Z)) Empty_set (Z * Z)) (layer : option unit)
    : option BoundingBox :=
  points_bounds (concat (contours g)).

Definition poly_setLeftMargin :=
  setLeftMargin (Layer:=unit) poly_move (λ _ (c : Empty_set), c) move_point
    poly_getBounds.

Definition poly_getRightMargin :=
  getRightMargin (Layer:=unit) poly_getBounds.

(** A box from (10, 0) to (90, 700) on an advance width of 100. *)
Definition sample_box : Glyph (list (Z * Z)) Empty_set (Z * Z) :=
  mkGlyph (Some "box") 100 0 [3; 5; 7] None [(50, 700)] []
    [[(10, 0); (90, 0); (90, 700); (10, 700)]]%Z.
End glyph.

(** ** deepComponent.py: [DeepComponent] *)

Module deepComponent.
Local Open Scope Z_scope.

Record DeepComponent : Type := mkDeepComponent {
  baseGlyph : string;
  transformation : list Z;   (* x, y, scalex, scaley, rotate *)
  coord : list (Z * Z);
  identifier : option string
}.

Inductive warning : Type :=
  | UserWarning (message : string).

Definition discarded_identifier_message : string :=
  "The addDeepComponent method needs an identifier kwarg. The component's identifier value has been discarded.".

Section drawPoints.
Context {Pen : Type}.
(** [pointPen.addDeepComponent(baseGlyph, transformation, coord, ...)]: the
    last argument is [Some i] when the call passes [identifier=i] and
    [None] when it passes no keyword.  The pen is the caller's object: a
    call may change it and may raise. *)
Variable addDeepComponent :
  Pen → string → list Z → list (Z * Z) → option (option string) →
  Pen * result unit.

Definition drawPoints (self : DeepComponent) (pointPen : Pen)
    : Pen * result unit * list warning :=
  match addDeepComponent pointPen (baseGlyph self) (transformation self)
          (coord self) (Some (identifier self)) with
  | (pen1, Ok _) => (pen1, Ok tt, [])
  | (pen1, Raise e) =>
      if is_TypeError e then
        match addDeepComponent pen1 (baseGlyph self) (transformation self)
                (coord self) None with
        | (pen2, Ok _) =>
            (pen2, Ok tt, [UserWarning discarded_identifier_message])
        | (pen2, Raise e2) => (pen2, Raise e2, [])
        end
      else (pen1, Raise e, [])
  end.
End drawPoints.

(** Two pens that record the calls they receive.  The first one has no
    [identifier] parameter; the second rejects its arguments whatever the
    keywords. *)
Definition legacy_pen_add (calls : list (string * option (option string)))
    (base : string) (t : list Z) (c : list (Z * Z))
    (kw : option (option string))
    : list (string * option (option string)) * result unit :=
  match kw with
  | Some _ =>
      (calls,
       Raise (TypeError "addDeepComponent() got an unexpected keyword argument 'identifier'"))
  | None => (calls ++ [(base, kw)], Ok tt)
  end.

Definition picky_pen_add (calls : list (string * option (option string)))
    (base : string) (t : list Z) (c : list (Z * Z))
    (kw : option (option string))
    : list (string * option (option string)) * result unit :=
  (calls ++ [(base, kw)],
   Raise (TypeError "unsupported operand type(s) for *: 'NoneType' and 'float'")).

Definition sample_deep : DeepComponent :=
  mkDeepComponent "DC_53E3_00" [0; 0; 1; 1; 0]%Z [(0, 1)]%Z (Some "id01").
End deepComponent.

(** ** font.py: [Font.write] and [Font.save]

    The outside world of [save] is a file system: the entries reachable by
    path, and the temporary file systems ([fs.tempfs.TempFS]) that are
    alive, each a directory of its own with a fresh name. *)

Module font.

Inductive node : Type :=
  | File (content : string)
  | Dir (entries : list (string * string)).

Record FS : Type := mkFS {
  disk : gmap string node;
  temps : gmap nat (gmap string node)
}.

(** Where a [UFOWriter] writes: a path of the file system, an entry of a
    temporary file system, or a file-system object handed in by the
    caller. *)
Inductive target : Type :=
  | OnDisk (path : string)
  | InTemp (tmp : nat) (name : string)
  | OnFS (handle : nat).

(** The [path] argument of [save], when it is not [None]: a string, an
    object with [__fspath__], or an [fs.base.FS] object. *)
Inductive path_arg : Type :=
  | PathStr (s : string)
  | PathLike (fspath : string)
  | PathFS (handle : nat).

(** A path after normalisation, as kept in [Font._path]. *)
Inductive path_value : Type :=
  | PStr (s : string)
  | PFS (handle : nat).

Definition target_of (p : path_value) : target :=
  match p with PStr s => OnDisk s | PFS h => OnFS h end.

(** Modelled from the spec: [LayerSet], of [ufoLib2.objects.layerSet]: an
    "ordered collection of Layers" in which "looking up the default layer
    is an O(1) attribute", with [layerOrder] the names the layers are
    registered under, in order. *)
Record LayerSet (Layer : Type) : Type := mkLayerSet {
  _layers : list (string * Layer);   (* an OrderedDict, keyed by layer name *)
  defaultLayer : Layer
}.
Arguments mkLayerSet {Layer} _ _.
Arguments _layers {Layer} _.
Arguments defaultLayer {Layer} _.

Definition layerOrder {Layer} (self : LayerSet Layer) : list string :=
  pydict.keys (_layers self).

Record Font (Layer Info Features Groups Kerning Lib DataSet ImageSet Structure : Type)
    : Type := mkFont {
  layers : LayerSet Layer;
  info : Info;
  features : Features;
  groups : Groups;
  kerning : Kerning;
  lib : Lib;
  data : DataSet;
  images : ImageSet;
  _path : option path_value;
  _reader : option nat;             (* the identity of the reader object *)
  _fileStructure : option Structure
}.
Arguments mkFont {Layer Info Features Groups Kerning Lib DataSet ImageSet Structure}
  _ _ _ _ _ _ _ _ _ _ _.
Arguments layers {Layer Info Features Groups Kerning Lib DataSet ImageSet Structure} _.
Arguments info {Layer Info Features Groups Kerning Lib DataSet ImageSet Structure} _.
Arguments features {Layer Info Features Groups Kerning Lib DataSet ImageSet Structure} _.
Arguments groups {Layer Info Features Groups Kerning Lib DataSet ImageSet Structure} _.
Arguments kerning {Layer Info Features Groups Kerning Lib DataSet ImageSet Structure} _.
Arguments lib {Layer Info Features Groups Kerning Lib DataSet ImageSet Structure} _.
Arguments data {Layer Info Features Groups Kerning Lib DataSet ImageSet Structure} _.
Arguments images {Layer Info Features Groups Kerning Lib DataSet ImageSet Structure} _.
Arguments _path {Layer Info Features Groups Kerning Lib DataSet ImageSet Structure} _.
Arguments _reader {Layer Info Features Groups Kerning Lib DataSet ImageSet Structure} _.
Arguments _fileStructure {Layer Info Features Groups Kerning Lib DataSet ImageSet Structure} _.

(** The methods of [UFOWriter] that [save] and [write] call. *)
Inductive writer_call (Info Features Groups Kerning Lib Structure : Type) : Type :=
  | WInit (structure : option Structure) (validate : bool)
  | WriteFeatures (text : Features)
  | WriteGroups (groups : Groups)
  | WriteInfo (info : Info)
  | WriteKerning (kerning : Kerning)
  | WriteLib (lib : Lib)
  | WExit
  | SetModificationTime.
Arguments WInit {Info Features Groups Kerning Lib Structure} _ _.
Arguments WriteFeatures {Info Features Groups Kerning Lib Structure} _.
Arguments WriteGroups {Info Features Groups Kerning Lib Structure} _.
Arguments WriteInfo {Info Features Groups Kerning Lib Structure} _.
Arguments WriteKerning {Info Features Groups Kerning Lib Structure} _.
Arguments WriteLib {Info Features Groups Kerning Lib Structure} _.
Arguments WExit {Info Features Groups Kerning Lib Structure}.
Arguments SetModificationTime {Info Features Groups Kerning Lib Structure}.

Record Writer : Type := mkWriter {
  writer_id : nat;          (* the identity of the writer object *)
  writer_target : target
}.

Inductive os_call : Type :=
  | Rmtree (path : string)
  | Remove (path : string)
  | Move (tmp : nat) (name : string) (dst : string).

(** All that [write] on a writer bound to the entry [name] of the
    temporary file system [t] may change between [fs] and [fs']. *)
Definition only_in_temp (t : nat) (fs fs' : FS) : Prop :=
  disk fs' = disk fs ∧ ∀ t', t' ≠ t → temps fs' !! t' = temps fs !! t'.

Definition EEXIST : Z := 17.

Section Font.
Context {Layer Info Features Groups Kerning Lib DataSet ImageSet : Type}.
Context {Structure StructureArg : Type}.
(** From [ufoLib2.constants], [os.path] and [fontTools.ufoLib]. *)
Variable DEFAULT_LAYER_NAME : string.
Variable layer_name : Layer → string.
Variable normpath : string → string.
Variable basename : string → string.
Variable UFOFileStructure : StructureArg → result Structure.
(** The writer's methods act on the file system and may raise. *)
Variable writer_do :
  Writer → writer_call Info Features Groups Kerning Lib Structure → FS →
  result unit * FS.
(** [LayerSet.write], [DataSet.write] and [ImageSet.write]: they write
    through the writer and update the set they belong to. *)
Variable layers_write :
  LayerSet Layer → Writer → bool → FS → result unit * LayerSet Layer * FS.
Variable data_write : DataSet → Writer → bool → FS → result unit * DataSet * FS.
Variable images_write : ImageSet → Writer → bool → FS → result unit * ImageSet * FS.
(** An error of the operating system in [shutil.rmtree], [os.remove] or
    [shutil.move], if any. *)
Variable os_fault : os_call → FS → option exn.

Local Abbreviation font :=
  (Font Layer Info Features Groups Kerning Lib DataSet ImageSet Structure).
Local Abbreviation step := (font → FS → result unit * font * FS).

Definition set_layers (ls : LayerSet Layer) (self : font) : font :=
  mkFont ls (info self) (features self) (groups self) (kerning self)
    (lib self) (data self) (images self) (_path self) (_reader self)
    (_fileStructure self).

Definition set_data (d : DataSet) (self : font) : font :=
  mkFont (layers self) (info self) (features self) (groups self)
    (kerning self) (lib self) d (images self) (_path self) (_reader self)
    (_fileStructure self).

Definition set_images (im : ImageSet) (self : font) : font :=
  mkFont (layers self) (info self) (features self) (groups self)
    (kerning self) (lib self) (data self) im (_path self) (_reader self)
    (_fileStructure self).

Definition set_path (p : option path_value) (self : font) : font :=
  mkFont (layers self) (info self) (features self) (groups self)
    (kerning self) (lib self) (data self) (images self) p (_reader self)
    (_fileStructure self).

(** Statements in sequence: the second runs only if the first returns. *)
Definition and_then (a b : step) : step :=
  λ self fs,
    match a self fs with
    | (Ok _, self1, fs1) => b self1 fs1
    | (Raise e, self1, fs1) => (Raise e, self1, fs1)
    end.

Definition call (writer : Writer)
    (c : font → writer_call Info Features Groups Kerning Lib Structure) : step :=
  λ self fs, let '(res, fs1) := writer_do writer (c self) fs in (res, self, fs1).

(** [assert DEFAULT_LAYER_NAME not in self.layers.layerOrder], under its
    guard. *)
Definition check_default_layer : step :=
  λ self fs,
    if bool_decide (layer_name (defaultLayer (layers self)) ≠ DEFAULT_LAYER_NAME)
       && bool_decide (DEFAULT_LAYER_NAME ∈ layerOrder (layers self))
    then (Raise AssertionError, self, fs)
    else (Ok tt, self, fs).

Definition write_layers (writer : Writer) (saveAs : bool) : step :=
  λ self fs,
    let '(res, ls, fs1) := layers_write (layers self) writer saveAs fs in
    (res, set_layers ls self, fs1).

Definition write_data (writer : Writer) (saveAs : bool) : step :=
  λ self fs,
    let '(res, d, fs1) := data_write (data self) writer saveAs fs in
    (res, set_data d self, fs1).

Definition write_images (writer : Writer) (saveAs : bool) : step :=
  λ self fs,
    let '(res, im, fs1) := images_write (images self) writer saveAs fs in
    (res, set_images im self, fs1).

Definition write (writer : Writer) (saveAs : option bool) : step :=
  λ self fs,
    let saveAs :=
      match saveAs with
      | Some b => b
      | None => negb (bool_decide (_reader self = Some (writer_id writer)))
      end in
    and_then check_default_layer
   (and_then (call writer (λ self, WriteFeatures (features self)))
   (and_then (call writer (λ self, WriteGroups (groups self)))
   (and_then (call writer (λ self, WriteInfo (info self)))
   (and_then (call writer (λ self, WriteKerning (kerning self)))
   (and_then (call writer (λ self, WriteLib (lib self)))
   (and_then (write_layers writer saveAs)
   (and_then (write_data writer saveAs)
             (write_images writer saveAs)))))))) self fs.

(** The body of the [try] statement of [save]:
    [with UFOWriter(path, ...) as writer: self.write(writer, saveAs=saveAs)]
    and then [writer.setModificationTime()].  Leaving the [with] block
    calls the writer's [__exit__], also when [write] has raised; the
    exception of [write] then goes on unless [__exit__] raises one itself. *)
Definition try_body (writer : Writer) (structure : option Structure)
    (validate saveAs : bool) : step :=
  λ self fs,
    match writer_do writer (WInit structure validate) fs with
    | (Raise e, fs1) => (Raise e, self, fs1)
    | (Ok _, fs1) =>
        let '(res, self2, fs2) := write writer (Some saveAs) self fs1 in
        match writer_do writer WExit fs2 with
        | (Raise e, fs3) => (Raise e, self2, fs3)
        | (Ok _, fs3) =>
            match res with
            | Raise e => (Raise e, self2, fs3)
            | Ok _ =>
                let '(res4, fs4) := writer_do writer SetModificationTime fs3 in
                (res4, self2, fs4)
            end
        end
    end.

Definition exists_ (p : string) (fs : FS) : bool :=
  bool_decide (is_Some (disk fs !! p)).

Definition isdir (p : string) (fs : FS) : bool :=
  match disk fs !! p with Some (Dir _) => true | _ => false end.

Definition isfile (p : string) (fs : FS) : bool :=
  match disk fs !! p with Some (File _) => true | _ => false end.

(** [fs.tempfs.TempFS()]: a new, empty temporary file system. *)
Definition TempFS (fs : FS) : nat * FS :=
  let t := fresh (dom (temps fs)) in
  (t, mkFS (disk fs) (<[t := ∅]> (temps fs))).

(** [tmp.close()]: the temporary file system and all it holds go away. *)
Definition tmp_close (t : nat) (fs : FS) : FS :=
  mkFS (disk fs) (delete t (temps fs)).

Definition os_delete (c : os_call) (p : string) (fs : FS) : result unit * FS :=
  match os_fault c fs with
  | Some e => (Raise e, fs)
  | None => (Ok tt, mkFS (delete p (disk fs)) (temps fs))
  end.

Definition shutil_move (t : nat) (name dst : string) (fs : FS) : result unit * FS :=
  match os_fault (Move t name dst) fs with
  | Some e => (Raise e, fs)
  | None =>
      match temps fs !! t ≫= (λ d, d !! name) with
      | None => (Raise (OSError 2 "No such file or directory"), fs)
      | Some n =>
          (Ok tt,
           mkFS (<[dst := n]> (disk fs)) (alter (delete name) t (temps fs)))
      end
  end.

(** The [else] clause of the [try] statement, when [overwritePath] is set:
    remove what is at the destination, then move the staged entry there. *)
Definition replace_destination (t : nat) (name overwritePath : string) (fs : FS)
    : result unit * FS :=
  let '(res1, fs1) :=
    if isdir overwritePath fs then os_delete (Rmtree overwritePath) overwritePath fs
    else if isfile overwritePath fs then os_delete (Remove overwritePath) overwritePath fs
    else (Ok tt, fs) in
  match res1 with
  | Raise e => (Raise e, fs1)
  | Ok _ => shutil_move t name overwritePath fs1
  end.

Definition normalize (path : option path_arg) : option path_value :=
  match path with
  | None => None
  | Some (PathStr s) => Some (PStr (normpath s))
  | Some (PathLike s) => Some (PStr (normpath s))
  | Some (PathFS h) => Some (PFS h)
  end.

(** [structure] as given, else the structure the font was loaded with. *)
Definition resolve_structure (self : font) (structure : option StructureArg)
    : result (option Structure) :=
  match structure with
  | Some s =>
      match UFOFileStructure s with
      | Ok st => Ok (Some st)
      | Raise e => Raise e
      end
  | None => Ok (_fileStructure self)
  end.

Definition save (self : font) (path : option path_arg) (formatVersion : Z)
    (structure : option StructureArg) (overwrite validate : bool)
    (new_writer_id : nat) (fs : FS)
    : result unit * font * FS :=
  if decide (formatVersion ≠ 3%Z) then
    (Raise (NotImplementedError
              ("unsupported format version: " +:+ pretty formatVersion)),
     self, fs)
  else
    match resolve_structure self structure with
    | Raise e => (Raise e, self, fs)
    | Ok structure =>
        let path := normalize path in
        match
          match path with
          | Some (PStr p) =>
              if exists_ p fs then
                if overwrite then
                  let '(t, fs0) := TempFS fs in
                  Ok (InTemp t (basename p), Some (p, t), fs0)
                else
                  Raise (OSError EEXIST ("path " +:+ p +:+ " already exists"))
              else Ok (OnDisk p, None, fs)
          | Some (PFS h) => Ok (OnFS h, None, fs)
          | None =>
              match _path self with
              | None => Raise (TypeError "'path' is required when saving a new Font")
              | Some p => Ok (target_of p, None, fs)
              end
          end
        with
        | Raise e => (Raise e, self, fs)
        | Ok (tg, staged, fs0) =>
            let saveAs := bool_decide (is_Some path) in
            let writer := mkWriter new_writer_id tg in
            let '(res, self1, fs1) :=
              try_body writer structure validate saveAs self fs0 in
            (* else: *)
            let '(res2, fs2) :=
              match res, staged with
              | Ok _, Some (overwritePath, t) =>
                  replace_destination t (basename overwritePath) overwritePath fs1
              | _, _ => (res, fs1)
              end in
            (* finally: *)
            let fs3 :=
              match staged with
              | Some (_, t) => tmp_close t fs2
              | None => fs2
              end in
            match res2 with
            | Raise e => (Raise e, self1, fs3)
            | Ok _ =>
                let final :=
                  match staged, path with
                  | Some (overwritePath, _), _ => Some (PStr overwritePath)
                  | None, Some p => Some p
                  | None, None => _path self
                  end in
                (Ok tt, set_path final self1, fs3)
            end
        end
    end.
End Font.

(** *** A writer that writes

    A UFO is a directory of files; the writer puts each part of the font
    in a file of the directory it is bound to.  Every part is a string
    here, and a font whose kerning is the string "unwritable" makes
    [writeKerning] fail, after the parts before it have been written. *)

Definition entries_of (n : option node) : list (string * string) :=
  match n with
  | Some (Dir es) => es
  | _ => []
  end.

Definition put_entry (tg : target) (name content : string) (fs : FS) : FS :=
  match tg with
  | OnDisk p =>
      mkFS (<[p := Dir (pydict.set name content (entries_of (disk fs !! p)))]>
              (disk fs))
           (temps fs)
  | InTemp t n =>
      mkFS (disk fs)
           (alter (λ d, <[n := Dir (pydict.set name content (entries_of (d !! n)))]> d)
                  t (temps fs))
  | OnFS _ => fs
  end.

Definition sim_writer_do (w : Writer)
    (c : writer_call string string string string string string) (fs : FS)
    : result unit * FS :=
  match c with
  | WInit _ _ => (Ok tt, put_entry (writer_target w) "metainfo.plist" "3" fs)
  | WriteFeatures s => (Ok tt, put_entry (writer_target w) "features.fea" s fs)
  | WriteGroups s => (Ok tt, put_entry (writer_target w) "groups.plist" s fs)
  | WriteInfo s => (Ok tt, put_entry (writer_target w) "fontinfo.plist" s fs)
  | WriteKerning s =>
      if decide (s = "unwritable")
      then (Raise (OSError 28 "No space left on device"), fs)
      else (Ok tt, put_entry (writer_target w) "kerning.plist" s fs)
  | WriteLib s => (Ok tt, put_entry (writer_target w) "lib.plist" s fs)
  | WExit => (Ok tt, fs)
  | SetModificationTime => (Ok tt, fs)
  end.

Definition sim_layers_write (ls : LayerSet string) (w : Writer) (saveAs : bool)
    (fs : FS) : result unit * LayerSet string * FS :=
  (Ok tt, ls,
   put_entry (writer_target w) "layercontents.plist"
     (String.concat "," (layerOrder ls)) fs).

Definition sim_data_write (d : string) (w : Writer) (saveAs : bool) (fs : FS)
    : result unit * string * FS :=
  (Ok tt, d, put_entry (writer_target w) "data" d fs).

Definition sim_images_write (im : string) (w : Writer) (saveAs : bool) (fs : FS)
    : result unit * string * FS :=
  (Ok tt, im, put_entry (writer_target w) "images" im fs).

Definition sim_UFOFileStructure (s : string) : result string :=
  if decide (s = "package") then Ok s
  else if decide (s = "zip") then Ok s
  else Raise (ValueError (s +:+ " is not a valid UFOFileStructure")).

Definition sim_basename (p : string) : string := p.

Definition sim_save :=
  save (Layer:=string) "public.default" (λ name, name) (λ p, p) sim_basename
    sim_UFOFileStructure sim_writer_do sim_layers_write sim_data_write
    sim_images_write (λ _ _, None).

Definition sim_write :=
  write (Layer:=string) (Structure:=string) "public.default" (λ name, name)
    sim_writer_do sim_layers_write sim_data_write sim_images_write.

Definition sample_font (kerning : string)
    : Font string string string string string string string string string :=
  mkFont (mkLayerSet [("public.default", "public.default")] "public.default")
    "info" "feature liga;" "groups" kerning "lib" "data" "images"
    None None None.

(** A font whose default layer is called "foreground" and which has
    another layer under the reserved name. *)
Definition clashing_font
    : Font string string string string string string string string string :=
  mkFont
    (mkLayerSet [("foreground", "foreground"); ("public.default", "public.default")]
       "foreground")
    "info" "" "groups" "kerning" "lib" "data" "images" None None None.

Definition sample_disk : FS :=
  mkFS {[ "old.ufo" := Dir [("metainfo.plist", "3"); ("lib.plist", "old lib")] ]} ∅.
End font.

(** * Part I, continued: the rest of the modules *)

(** ** misc.py: more readers *)

Module misc_more.

(** Modelled from the spec: the adapters of a container whose listing may
    name an entry it does not hold ("a read of a listed-but-missing key is
    fatal"): the reader is the listing together with the contents. *)
Definition idx_listdir (r : list string * list (string * string)) : list string :=
  r.1.

Definition idx_readf (r : list string * list (string * string))
    (fileName : string) : result string :=
  match pydict.get fileName r.2 with
  | Some p => Ok p
  | None => Raise (KeyError fileName)
  end.

Definition stale_reader : list string * list (string * string) :=
  (["a.bin"; "gone.bin"; "c.bin"], [("a.bin", "A"); ("c.bin", "C")]).
End misc_more.

(** ** misc.py: [AttrDictMixin]

    The mixin reads the attributes of an attrs instance through the
    mapping interface.  An instance is what [getattr] can find on it: its
    attrs fields, in the order of [attr.fields_dict], each holding a value
    or [None], and the other attributes (methods, properties). *)

Module attrdict.
Section AttrDictMixin.
Context {Value : Type}.

Record instance : Type := mkInstance {
  fields : list (string * option Value);
  others : list (string * Value)
}.

Definition getattr (self : instance) (key : string) : result (option Value) :=
  match pydict.get key (fields self) with
  | Some v => Ok v
  | None =>
      match pydict.get key (others self) with
      | Some v => Ok (Some v)
      | None => Raise (AttributeError key)
      end
  end.

Definition __getitem__ (self : instance) (key : string) : result (option Value) :=
  match getattr self key with
  | Ok v => Ok v
  | Raise (AttributeError _) => Raise (KeyError key)
  | Raise e => Raise e
  end.

Definition __iter__ (self : instance) : list string :=
  omap (λ f : string * option Value,
          match getattr self f.1 with
          | Ok (Some _) => Some f.1
          | _ => None
          end)
       (fields self).

Definition __len__ (self : instance) : nat := length (__iter__ self).

(** [Mapping.__contains__], which the mixin inherits: [key in self] is
    whether [self[key]] raises [KeyError]. *)
Definition __contains__ (self : instance) (key : string) : bool :=
  match __getitem__ self key with
  | Raise (KeyError _) => false
  | _ => true
  end.
End AttrDictMixin.
Arguments instance Value : clear implicits.

(** An anchor at (10, 20) with a name and no colour or identifier. *)
Definition sample_anchor : instance string :=
  mkInstance
    [("x", Some "10"); ("y", Some "20"); ("name", Some "top");
     ("color", None); ("identifier", None)]
    [("move", "<bound method>")].
End attrdict.

(** ** Values of a lib

    A lib maps strings to values of any kind: nothing, numbers, strings,
    lists and dictionaries. *)

Module pyvalue.
Local Open Scope Z_scope.

Local Unset Elimination Schemes.
Inductive value : Type :=
  | VNone
  | VNum (n : Z)
  | VStr (s : string)
  | VList (items : list value)
  | VDict (entries : list (string * value)).
Local Set Elimination Schemes.

Definition is_None (v : value) : bool :=
  match v with VNone => true | _ => false end.

(** [len(v)] *)
Definition py_len (v : value) : result nat :=
  match v with
  | VStr s => Ok (String.length s)
  | VList l => Ok (length l)
  | VDict d => Ok (length d)
  | VNum _ => Raise (TypeError "object of type 'int' has no len()")
  | VNone => Raise (TypeError "object of type 'NoneType' has no len()")
  end.

(** [list(v)]: the items of a list, the keys of a dictionary, the
    characters of a string. *)
Definition py_list (v : value) : result (list value) :=
  match v with
  | VList l => Ok l
  | VDict d => Ok ((λ kv : string * value, VStr kv.1) <$> d)
  | VStr s => Ok ((λ c, VStr (String c EmptyString)) <$> list_ascii_of_string s)
  | VNum _ => Raise (TypeError "'int' object is not iterable")
  | VNone => Raise (TypeError "'NoneType' object is not iterable")
  end.

(** [v - h] for an integer [h] *)
Definition py_sub (v : value) (h : Z) : result Z :=
  match v with
  | VNum n => Ok (n - h)
  | _ => Raise (TypeError "unsupported operand type(s) for -")
  end.

(** [d.get(key)], [None] when the key is missing. *)
Definition dict_get_or_None (key : string) (d : list (string * value)) : value :=
  match pydict.get key d with
  | Some v => v
  | None => VNone
  end.
End pyvalue.

(** ** glyph.py: attributes kept in the lib, vertical margins

    A glyph together with its lib.  [core] holds the attributes of the
    glyph that the first part models. *)

Module glyph_lib.
Import pyvalue.
Local Open Scope Z_scope.

Record GlyphL (Contour Component Anchor : Type) : Type := mkGlyphL {
  core : glyph.Glyph Contour Component Anchor;
  lib : list (string * value)
}.
Arguments mkGlyphL {Contour Component Anchor} _ _.
Arguments core {Contour Component Anchor} _.
Arguments lib {Contour Component Anchor} _.

Section GlyphL.
Context {Contour Component Anchor Layer : Type}.
Variable misc_getBounds :
  glyph.Glyph Contour Component Anchor → option Layer →
  option glyph.BoundingBox.

Local Abbreviation glyphL := (GlyphL Contour Component Anchor).

Definition set_lib (l : list (string * value)) (self : glyphL) : glyphL :=
  mkGlyphL (core self) l.

Definition set_height (h : Z) (g : glyph.Glyph Contour Component Anchor)
    : glyph.Glyph Contour Component Anchor :=
  glyph.mkGlyph (glyph._name g) (glyph.width g) h (glyph.unicodes g)
    (glyph.note g) (glyph._anchors g) (glyph.components g) (glyph.contours g).

Definition markColor (self : glyphL) : value :=
  dict_get_or_None "public.markColor" (lib self).

Definition markColor_setter (v : value) (self : glyphL) : glyphL :=
  if negb (is_None v) then set_lib (pydict.set "public.markColor" v (lib self)) self
  else if bool_decide (is_Some (pydict.get "public.markColor" (lib self)))
  then set_lib (pydict.del "public.markColor" (lib self)) self
  else self.

Definition verticalOrigin (self : glyphL) : value :=
  dict_get_or_None "public.verticalOrigin" (lib self).

Definition verticalOrigin_setter (v : value) (self : glyphL) : glyphL :=
  if negb (is_None v) then set_lib (pydict.set "public.verticalOrigin" v (lib self)) self
  else if bool_decide (is_Some (pydict.get "public.verticalOrigin" (lib self)))
  then set_lib (pydict.del "public.verticalOrigin" (lib self)) self
  else self.

Definition getBounds (layer : option Layer) (self : glyphL)
    : result (option glyph.BoundingBox) :=
  glyph.getBounds misc_getBounds layer (core self).

Definition getBottomMargin (layer : option Layer) (self : glyphL)
    : result (option Z) :=
  match getBounds layer self with
  | Raise e => Raise e
  | Ok None => Ok None
  | Ok (Some bounds) =>
      if is_None (verticalOrigin self) then Ok (Some (glyph.yMin bounds))
      else
        match py_sub (verticalOrigin self) (glyph.height (core self)) with
        | Raise e => Raise e
        | Ok d => Ok (Some (glyph.yMin bounds - d))
        end
  end.

Definition setBottomMargin (v : Z) (layer : option Layer) (self : glyphL)
    : result unit * glyphL :=
  match getBounds layer self with
  | Raise e => (Raise e, self)
  | Ok None => (Ok tt, self)
  | Ok (Some bounds) =>
      match
        if is_None (verticalOrigin self) then
          Ok (glyph.yMin bounds,
              verticalOrigin_setter (VNum (glyph.height (core self))) self)
        else
          match py_sub (verticalOrigin self) (glyph.height (core self)) with
          | Raise e => Raise e
          | Ok d => Ok (glyph.yMin bounds - d, self)
          end
      with
      | Raise e => (Raise e, self)
      | Ok (oldValue, self1) =>
          let diff := v - oldValue in
          if decide (diff = 0) then (Ok tt, self1)
          else
            (Ok tt,
             mkGlyphL (set_height (glyph.height (core self1) + diff) (core self1))
               (lib self1))
      end
  end.

Definition getTopMargin (layer : option Layer) (self : glyphL)
    : result (option Z) :=
  match getBounds layer self with
  | Raise e => Raise e
  | Ok None => Ok None
  | Ok (Some bounds) =>
      if is_None (verticalOrigin self)
      then Ok (Some (glyph.height (core self) - glyph.yMax bounds))
      else
        match py_sub (verticalOrigin self) (glyph.yMax bounds) with
        | Raise e => Raise e
        | Ok d => Ok (Some d)
        end
  end.

Definition setTopMargin (v : Z) (layer : option Layer) (self : glyphL)
    : result unit * glyphL :=
  match getBounds layer self with
  | Raise e => (Raise e, self)
  | Ok None => (Ok tt, self)
  | Ok (Some bounds) =>
      match
        if is_None (verticalOrigin self)
        then Ok (glyph.height (core self) - glyph.yMax bounds)
        else py_sub (verticalOrigin self) (glyph.yMax bounds)
      with
      | Raise e => (Raise e, self)
      | Ok oldValue =>
          let diff := v - oldValue in
          if decide (oldValue ≠ v) then
            let self1 :=
              verticalOrigin_setter (VNum (glyph.yMax bounds + v)) self in
            (Ok tt,
             mkGlyphL (set_height (glyph.height (core self1) + diff) (core self1))
               (lib self1))
          else (Ok tt, self)
      end
  end.
End GlyphL.

(** [Glyph()]: every attribute at its default. *)
Definition empty_glyph : glyph.Glyph (list (Z * Z)) Empty_set (Z * Z) :=
  glyph.mkGlyph None 0 0 [] None [] [] [].

Definition sample_boxL : GlyphL (list (Z * Z)) Empty_set (Z * Z) :=
  mkGlyphL (set_height 1000 glyph.sample_box) [("public.markColor", VStr "1,0,0,1")].
End glyph_lib.

(** ** glyph.py: the [anchors] and [guidelines] properties

    The two properties hand out the list object that the glyph holds, and
    their setters receive a list object: whether the two are the same
    object matters.  Lists live at addresses of a heap; the glyph holds
    the addresses of its two lists, which no method rebinds.

    What a list may hold is an instance of the class in question, a
    [Mapping] (to be passed to the constructor of the class), or an
    object of another type. *)

Module glyph_lists.

Inductive item (T Mapping : Type) : Type :=
  | IsInstance (obj : T)
  | IsMapping (m : Mapping)
  | OtherType (type_name : string).
Arguments IsInstance {T Mapping} obj.
Arguments IsMapping {T Mapping} m.
Arguments OtherType {T Mapping} type_name.

Definition is_instance {T Mapping} (x : item T Mapping) : bool :=
  match x with IsInstance _ => true | _ => false end.

Record Glyph : Type := mkGlyph {
  _anchors : nat;
  _guidelines : nat
}.

Section lists.
Context {Anchor Guideline Mapping : Type}.
(** The constructors of the two classes, called with the items of a
    mapping as keywords; the classes are defined elsewhere, and a
    constructor may reject the keywords. *)
Variable Anchor_init : Mapping → result Anchor.
Variable Guideline_init : Mapping → result Guideline.

Local Abbreviation anchor_heap := (gmap nat (list (item Anchor Mapping))).
Local Abbreviation guideline_heap := (gmap nat (list (item Guideline Mapping))).

(** [list.append] on the list at an address *)
Definition heap_append {A} (at_ : nat) (x : A) (h : gmap nat (list A))
    : gmap nat (list A) :=
  alter (λ l, l ++ [x]) at_ h.

(** [del self._anchors[:]] *)
Definition clearAnchors (self : Glyph) (h : anchor_heap) : anchor_heap :=
  <[_anchors self := []]> h.

Definition clearGuidelines (self : Glyph) (h : guideline_heap) : guideline_heap :=
  <[_guidelines self := []]> h.

Definition appendAnchor (anchor : item Anchor Mapping) (self : Glyph)
    (h : anchor_heap) : result unit * anchor_heap :=
  match anchor with
  | IsInstance a => (Ok tt, heap_append (_anchors self) (IsInstance a) h)
  | IsMapping m =>
      match Anchor_init m with
      | Ok a => (Ok tt, heap_append (_anchors self) (IsInstance a) h)
      | Raise e => (Raise e, h)
      end
  | OtherType n =>
      (Raise (TypeError
                ("Expected Anchor object or a Mapping for the Anchor constructor, found "
                 +:+ n)), h)
  end.

Definition appendGuideline (guideline : item Guideline Mapping) (self : Glyph)
    (h : guideline_heap) : result unit * guideline_heap :=
  match guideline with
  | IsInstance g => (Ok tt, heap_append (_guidelines self) (IsInstance g) h)
  | IsMapping m =>
      match Guideline_init m with
      | Ok g => (Ok tt, heap_append (_guidelines self) (IsInstance g) h)
      | Raise e => (Raise e, h)
      end
  | OtherType n =>
      (Raise (TypeError
                ("Expected Guideline object or a Mapping for the Guideline constructor, found "
                 +:+ n)), h)
  end.

(** [for anchor in value: self.appendAnchor(anchor)], over the items that
    [value] holds when the loop starts. *)
Fixpoint append_anchors (items : list (item Anchor Mapping)) (self : Glyph)
    (h : anchor_heap) : result unit * anchor_heap :=
  match items with
  | [] => (Ok tt, h)
  | anchor :: rest =>
      match appendAnchor anchor self h with
      | (Ok _, h1) => append_anchors rest self h1
      | (Raise e, h1) => (Raise e, h1)
      end
  end.

Fixpoint append_guidelines (items : list (item Guideline Mapping)) (self : Glyph)
    (h : guideline_heap) : result unit * guideline_heap :=
  match items with
  | [] => (Ok tt, h)
  | guideline :: rest =>
      match appendGuideline guideline self h with
      | (Ok _, h1) => append_guidelines rest self h1
      | (Raise e, h1) => (Raise e, h1)
      end
  end.

(** The [anchors] setter: [self.clearAnchors()], then the loop over
    [value], the list at the address [value].  The loop reads the list
    after it has been cleared.  If [value] is the glyph's own list, it is
    empty by then and the loop ends at once; if it is another list, the
    appends do not touch it: in both cases the loop sees exactly the
    items the list holds when the loop starts. *)
Definition anchors_setter (value : nat) (self : Glyph) (h : anchor_heap)
    : result unit * anchor_heap :=
  let h1 := clearAnchors self h in
  append_anchors (default [] (h1 !! value)) self h1.

Definition guidelines_setter (value : nat) (self : Glyph) (h : guideline_heap)
    : result unit * guideline_heap :=
  let h1 := clearGuidelines self h in
  append_guidelines (default [] (h1 !! value)) self h1.
End lists.

(** The object that [appendAnchor] or [appendGuideline] appends for an
    item, if it accepts the item. *)
Definition accepts {T Mapping} (init : Mapping → result T) (x : item T Mapping)
    : option T :=
  match x with
  | IsInstance obj => Some obj
  | IsMapping m =>
      match init m with
      | Ok obj => Some obj
      | Raise _ => None
      end
  | OtherType _ => None
  end.

(** A glyph whose anchors live at address 0 and guidelines at address 1,
    and a heap that also holds, at address 2, a list made by the caller
    with an integer in the middle. *)
Definition sample_glyph : Glyph := mkGlyph 0 1.

Definition sample_heap : gmap nat (list (item string string)) :=
  {[ 0 := [IsInstance "top"; IsInstance "bottom"];
     2 := [IsInstance "left"; OtherType "int"; IsInstance "right"] ]}.
End glyph_lists.

(** ** font.py: [glyphOrder] and [guidelines] *)

Module font_more.
Import pyvalue.

(** Modelled from the spec: [Info], of [ufoLib2.objects.info], the
    "font-wide metadata" of a font; of its attributes [Font] uses the list
    [guidelines]. *)
Record Info (Guideline Rest : Type) : Type := mkInfo {
  guidelines : list Guideline;
  info_rest : Rest
}.
Arguments mkInfo {Guideline Rest} _ _.
Arguments guidelines {Guideline Rest} _.
Arguments info_rest {Guideline Rest} _.

Section Font.
Context {Layer Guideline Mapping Rest Features Groups Kerning DataSet ImageSet : Type}.
Context {Structure : Type}.
(** The constructor of [Guideline], called with the items of a mapping as
    keywords. *)
Variable Guideline_init : Mapping → result Guideline.

Local Abbreviation font :=
  (font.Font Layer (Info Guideline Rest) Features Groups Kerning
     (list (string * value)) DataSet ImageSet Structure).

Definition set_lib (l : list (string * value)) (self : font) : font :=
  font.mkFont (font.layers self) (font.info self) (font.features self)
    (font.groups self) (font.kerning self) l (font.data self)
    (font.images self) (font._path self) (font._reader self)
    (font._fileStructure self).

Definition set_info (i : Info Guideline Rest) (self : font) : font :=
  font.mkFont (font.layers self) i (font.features self)
    (font.groups self) (font.kerning self) (font.lib self) (font.data self)
    (font.images self) (font._path self) (font._reader self)
    (font._fileStructure self).

(** The [glyphOrder] property, getter:
    [list(self.lib.get("public.glyphOrder", []))]. *)
Definition glyphOrder (self : font) : result (list value) :=
  match pydict.get "public.glyphOrder" (font.lib self) with
  | Some v => py_list v
  | None => Ok []
  end.

(** The [glyphOrder] property, setter. *)
Definition glyphOrder_setter (v : value) (self : font) : result unit * font :=
  match
    if is_None v then Ok true
    else match py_len v with
         | Ok n => Ok (bool_decide (n = 0%nat))
         | Raise e => Raise e
         end
  with
  | Raise e => (Raise e, self)
  | Ok true =>
      if bool_decide (is_Some (pydict.get "public.glyphOrder" (font.lib self)))
      then (Ok tt, set_lib (pydict.del "public.glyphOrder" (font.lib self)) self)
      else (Ok tt, self)
  | Ok false =>
      (Ok tt, set_lib (pydict.set "public.glyphOrder" v (font.lib self)) self)
  end.

(** The [guidelines] property, getter. *)
Definition font_guidelines (self : font) : list Guideline :=
  guidelines (font.info self).

(** [appendGuideline]: an object that is no [Guideline] goes through the
    constructor, which for an object that is no mapping is a
    [TypeError] of the call itself. *)
Definition appendGuideline (guideline : glyph_lists.item Guideline Mapping)
    (self : font) : result unit * font :=
  match
    match guideline with
    | glyph_lists.IsInstance g => Ok g
    | glyph_lists.IsMapping m => Guideline_init m
    | glyph_lists.OtherType n =>
        Raise (TypeError ("argument after ** must be a mapping, not " +:+ n))
    end
  with
  | Raise e => (Raise e, self)
  | Ok g =>
      (Ok tt,
       set_info (mkInfo (guidelines (font.info self) ++ [g])
                   (info_rest (font.info self))) self)
  end.

(** The [guidelines] property, setter:
    [for guideline in value: self.appendGuideline(guideline)], for a
    [value] that is not the list the font holds: [items] is what the
    list holds. *)
Fixpoint guidelines_setter (items : list (glyph_lists.item Guideline Mapping))
    (self : font) : result unit * font :=
  match items with
  | [] => (Ok tt, self)
  | guideline :: rest =>
      match appendGuideline guideline self with
      | (Ok _, self1) => guidelines_setter rest self1
      | (Raise e, self1) => (Raise e, self1)
      end
  end.
End Font.

Definition sample_font_with_lib (l : list (string * value))
    : font.Font string (Info string string) string string string
        (list (string * value)) string string string :=
  font.mkFont (font.mkLayerSet [("public.default", "public.default")] "public.default")
    (mkInfo ["baseline"] "info") "" "groups" "kerning" l "data" "images"
    None None None.
End font_more.

(** ** font.py: a file system that fails *)

Module font_faults.

(** An operating system on which nothing can be moved to a destination:
    [shutil.move] raises, removing succeeds. *)
Definition move_fails (c : font.os_call) (fs : font.FS) : option exn :=
  match c with
  | font.Move _ _ _ => Some (OSError 13 "Permission denied")
  | _ => None
  end.

Definition sim_save_move_fails :=
  font.save (Layer:=string) "public.default" (λ name, name) (λ p, p)
    font.sim_basename font.sim_UFOFileStructure font.sim_writer_do
    font.sim_layers_write font.sim_data_write font.sim_images_write move_fails.

(** A font opened from "old.ufo". *)
Definition opened_font (kerning : string)
    : font.Font string string string string string string string string string :=
  font.set_path (Some (font.PStr "old.ufo")) (font.sample_font kerning).
End font_faults.

(** ** glyph.py: [drawPoints]

    Besides contours and components, [drawPoints] draws the deep
    components that RoboCJK keeps in the lib, under two keys, and reads
    the names of the variation layers from a third.  The entries have the
    shape RoboCJK gives them: a deep component is a dictionary with a
    name, five numbers and a dictionary [coord] from axis names to
    numbers; the variations are a dictionary from axis names to layer
    names.  [None] stands for a key that the lib does not have. *)

Module glyph_draw.
Local Open Scope Z_scope.

Record dc_entry : Type := mkEntry {
  dc_name : string;
  dc_x : Z;
  dc_y : Z;
  dc_scalex : Z;
  dc_scaley : Z;
  dc_rotation : Z;
  dc_coord : list (string * Z)
}.

Record robocjk_lib : Type := mkLib {
  (** lib["robocjk.deepComponent.atomicElements"] *)
  atomicElements : option (list dc_entry);
  (** lib["robocjk.characterGlyph.deepComponents"] *)
  deepComponents : option (list dc_entry);
  (** lib["robocjk.atomicElement.glyphVariations"] *)
  glyphVariations : option (list (string * string))
}.

Record GlyphD (Contour Component Anchor Variation : Type) : Type := mkGlyphD {
  core : glyph.Glyph Contour Component Anchor;
  lib : robocjk_lib;
  glyphVariationLayers : list string;
  variationGlyphs : list Variation
}.
Arguments mkGlyphD {Contour Component Anchor Variation} _ _ _ _.
Arguments core {Contour Component Anchor Variation} _.
Arguments lib {Contour Component Anchor Variation} _.
Arguments glyphVariationLayers {Contour Component Anchor Variation} _.
Arguments variationGlyphs {Contour Component Anchor Variation} _.

(** [[[i, v] for i, (k, v) in enumerate(dc['coord'].items())]] *)
Definition enumerate_values (coord : list (string * Z)) : list (Z * Z) :=
  imap (λ i (kv : string * Z), (Z.of_nat i, kv.2)) coord.

(** [DeepComponent(dc['name'], transformation, coord)] *)
Definition deep_of (dc : dc_entry) : deepComponent.DeepComponent :=
  deepComponent.mkDeepComponent (dc_name dc)
    [dc_x dc; dc_y dc; dc_scalex dc; dc_scaley dc; dc_rotation dc]
    (enumerate_values (dc_coord dc)) None.

Section drawPoints.
Context {Contour Component Anchor Variation Pen : Type}.
(** [Contour.drawPoints] and [Component.drawPoints], defined elsewhere,
    and the pen's [addDeepComponent]. *)
Variable contour_drawPoints : Contour → Pen → Pen * result unit.
Variable component_drawPoints : Component → Pen → Pen * result unit.
Variable addDeepComponent :
  Pen → string → list Z → list (Z * Z) → option (option string) →
  Pen * result unit.

Local Abbreviation glyphD := (GlyphD Contour Component Anchor Variation).

(** [for x in xs: x.drawPoints(pointPen)] *)
Fixpoint draw_each {A} (draw : A → Pen → Pen * result unit) (xs : list A)
    (pen : Pen) : Pen * result unit :=
  match xs with
  | [] => (pen, Ok tt)
  | x :: rest =>
      match draw x pen with
      | (pen1, Ok _) => draw_each draw rest pen1
      | (pen1, Raise e) => (pen1, Raise e)
      end
  end.

(** [for dc in self.lib[e]: ... dc.drawPoints(pointPen)] *)
Fixpoint draw_deep (dcs : list dc_entry) (pen : Pen)
    : Pen * result unit * list deepComponent.warning :=
  match dcs with
  | [] => (pen, Ok tt, [])
  | dc :: rest =>
      match deepComponent.drawPoints addDeepComponent (deep_of dc) pen with
      | (pen1, Ok _, ws) =>
          let '(pen2, res, ws2) := draw_deep rest pen1 in
          (pen2, res, ws ++ ws2)
      | (pen1, Raise e, ws) => (pen1, Raise e, ws)
      end
  end.

Definition addDepth (layers : list string) (self : glyphD) : glyphD :=
  mkGlyphD (core self) (lib self) layers (variationGlyphs self).

(** The result, the glyph, the pen, the warnings issued and the lines
    printed. *)
Definition drawPoints (self : glyphD) (pointPen : Pen)
    : result unit * glyphD * Pen * list deepComponent.warning * list string :=
  match draw_each contour_drawPoints (glyph.contours (core self)) pointPen with
  | (pen1, Raise e) => (Raise e, self, pen1, [], [])
  | (pen1, Ok _) =>
      match draw_each component_drawPoints (glyph.components (core self)) pen1 with
      | (pen2, Raise e) => (Raise e, self, pen2, [], [])
      | (pen2, Ok _) =>
          match draw_deep (default [] (atomicElements (lib self))) pen2 with
          | (pen3, Raise e, ws3) => (Raise e, self, pen3, ws3, [])
          | (pen3, Ok _, ws3) =>
              match draw_deep (default [] (deepComponents (lib self))) pen3 with
              | (pen4, Raise e, ws4) => (Raise e, self, pen4, ws3 ++ ws4, [])
              | (pen4, Ok _, ws4) =>
                  match glyphVariations (lib self) with
                  | None => (Ok tt, self, pen4, ws3 ++ ws4, [])
                  | Some variations =>
                      (Ok tt, addDepth (variations.*2) self, pen4, ws3 ++ ws4,
                       match variationGlyphs self with
                       | [] => []
                       | _ :: _ =>
                           ["glyph HAS variations "
                            +:+ pretty (length (variationGlyphs self))]
                       end)
                  end
              end
          end
      end
  end.
End drawPoints.

(** A pen that accepts every deep component and records the calls. *)
Definition record_pen_add
    (calls : list (string * list Z * list (Z * Z) * option (option string)))
    (base : string) (t : list Z) (c : list (Z * Z)) (kw : option (option string))
    : list (string * list Z * list (Z * Z) * option (option string)) * result unit :=
  (calls ++ [(base, t, c, kw)], Ok tt).

Definition sample_entry : dc_entry :=
  mkEntry "DC_53E3_00" 10 20 1 1 0 [("HGHT", 500); ("WDTH", 250)].

Definition sample_glyphD : GlyphD (list (Z * Z)) Empty_set (Z * Z) string :=
  mkGlyphD glyph_lib.empty_glyph
    (mkLib None (Some [sample_entry]) (Some [("wght", "bold"); ("wdth", "wide")]))
    [] [].
End glyph_draw.

(** * Part II: properties *)

(** ** Facts about dictionaries *)

Section dict_facts.
Context {V : Type}.
Implicit Types (d : list (string * V)) (k : string) (v : V).
Import pydict.

Lemma dict_get_set_eq k v d : get k (set k v d) = Some v.
Proof.
  induction d as [|[k' v'] d IH]; simpl.
  - by rewrite decide_True.
  - destruct (decide (k' = k)) as [->|Hne]; simpl.
    + by rewrite decide_True.
    + by rewrite decide_False.
Qed.

Lemma dict_get_set_ne k k' v d : k ≠ k' → get k' (set k v d) = get k' d.
Proof.
  intros Hne. induction d as [|[k0 v0] d IH]; simpl.
  - by rewrite decide_False.
  - destruct (decide (k0 = k)) as [->|Hk0]; simpl.
    + by rewrite !decide_False.
    + destruct (decide (k0 = k')); [done | apply IH].
Qed.

Lemma dict_get_None k d : get k d = None ↔ k ∉ keys d.
Proof.
  unfold keys. induction d as [|[k0 v0] d IH]; simpl.
  - split; [intros _; apply not_elem_of_nil | done].
  - rewrite not_elem_of_cons. destruct (decide (k0 = k)) as [->|Hk0].
    + split; [done | intros [? _]; done].
    + rewrite IH. split; [intros ?; split; [congruence | done] | intros [_ ?]; done].
Qed.

Lemma dict_get_is_Some k d : is_Some (get k d) ↔ k ∈ keys d.
Proof.
  destruct (get k d) eqn:E.
  - split; [intros _ | eauto].
    destruct (decide (k ∈ keys d)) as [|Hn]; [done |].
    apply dict_get_None in Hn. congruence.
  - split; [intros [? ?]; done | intros Hin].
    apply dict_get_None in E. done.
Qed.

Lemma dict_keys_set_present k v d : k ∈ keys d → keys (set k v d) = keys d.
Proof.
  unfold keys. induction d as [|[k0 v0] d IH]; simpl.
  - intros H. by apply elem_of_nil in H.
  - intros H. destruct (decide (k0 = k)) as [->|Hk0]; simpl; [done |].
    apply elem_of_cons in H as [->|H]; [done |]. f_equal. by apply IH.
Qed.

Lemma dict_keys_set_absent k v d : k ∉ keys d → keys (set k v d) = keys d ++ [k].
Proof.
  unfold keys. induction d as [|[k0 v0] d IH]; simpl; [done |].
  intros H. apply not_elem_of_cons in H as [Hk Hd].
  rewrite decide_False by done. simpl. f_equal. by apply IH.
Qed.

Lemma dict_elem_of_keys_set k k' v d : k' ∈ keys (set k v d) ↔ k' = k ∨ k' ∈ keys d.
Proof.
  destruct (decide (k ∈ keys d)) as [Hin|Hnin].
  - rewrite dict_keys_set_present by done. split; [auto | intros [->|?]; done].
  - rewrite dict_keys_set_absent by done. rewrite elem_of_app, list_elem_of_singleton.
    tauto.
Qed.

Lemma dict_get_del_ne k k' d : k ≠ k' → get k' (del k d) = get k' d.
Proof.
  intros Hne. induction d as [|[k0 v0] d IH]; simpl; [done |].
  destruct (decide (k0 = k)) as [->|Hk0]; simpl.
  - by rewrite decide_False.
  - destruct (decide (k0 = k')); [done | apply IH].
Qed.

Lemma dict_get_del_eq k d : NoDup (keys d) → get k (del k d) = None.
Proof.
  unfold keys. induction d as [|[k0 v0] d IH]; simpl; [done |].
  intros Hnd. apply NoDup_cons in Hnd as [Hk0 Hnd].
  destruct (decide (k0 = k)) as [->|Hne]; simpl.
  - by apply dict_get_None.
  - rewrite decide_False by done. by apply IH.
Qed.

Lemma dict_keys_del_subseteq k d : keys (del k d) ⊆ keys d.
Proof.
  unfold keys. induction d as [|[k0 v0] d IH]; simpl; [done |].
  destruct (decide (k0 = k)); simpl.
  - intros x Hx. right. done.
  - intros x Hx. apply elem_of_cons in Hx as [->|Hx]; [left | right; by apply IH].
Qed.

Lemma dict_NoDup_keys_set k v d : NoDup (keys d) → NoDup (keys (set k v d)).
Proof.
  intros Hnd. destruct (decide (k ∈ keys d)) as [Hin|Hnin].
  - by rewrite dict_keys_set_present.
  - rewrite dict_keys_set_absent by done. apply NoDup_app. split; [done |].
    split; [| apply NoDup_singleton].
    intros x Hx Hx'. apply list_elem_of_singleton in Hx' as ->. done.
Qed.

Lemma dict_NoDup_keys_del k d : NoDup (keys d) → NoDup (keys (del k d)).
Proof.
  unfold keys. induction d as [|[k0 v0] d IH]; simpl; [done |].
  intros Hnd. apply NoDup_cons in Hnd as [Hk0 Hnd].
  destruct (decide (k0 = k)); simpl; [done |].
  apply NoDup_cons. split; [| by apply IH].
  intros Hin. apply Hk0. by apply (dict_keys_del_subseteq k d).
Qed.
End dict_facts.

(** ** misc.py: the lazy store *)

Section DataStore_facts.
Context {Reader Writer Payload : Type}.
Context (listdir : Reader → list string).
Context (readf : Reader → string → result Payload).
Context (writef : Writer → string → Payload → result unit).
Context (deletef : Writer → string → result unit).
Import misc.

Local Abbreviation store := (misc.DataStore Reader Payload).
Local Abbreviation trace := (list (misc.event Reader Writer Payload)).
Local Abbreviation __getitem__ := (misc.__getitem__ (Writer:=Writer) readf).
Local Abbreviation getitems := (misc.getitems (Writer:=Writer) readf).
Local Abbreviation write_loop := (misc.write_loop readf writef).
Local Abbreviation delete_loop := (misc.delete_loop (Reader:=Reader) (Payload:=Payload) deletef).
Local Abbreviation write := (misc.write readf writef deletef).
Local Abbreviation read := (misc.read (Writer:=Writer) listdir readf).
Local Abbreviation read_loop := (misc.read_loop (Writer:=Writer) readf).
Local Abbreviation reachable := (misc.reachable listdir readf writef deletef).
Local Abbreviation resolve := (misc.resolve readf).

Implicit Types (s self : store) (k fileName : string) (evs : trace).

(** *** [__getitem__] *)

Lemma getitem_loaded k s p :
  pydict.get k (_data s) = Some (Loaded p) → __getitem__ k s = (Ok p, s, []).
Proof. intros H. unfold misc.__getitem__. by rewrite H. Qed.

Lemma getitem_inv k s res s' evs :
  __getitem__ k s = (res, s', evs) →
  (s' = s ∧ evs = [] ∧
   ((pydict.get k (_data s) = None ∧ res = Raise (KeyError k)) ∨
    (∃ p, pydict.get k (_data s) = Some (Loaded p) ∧ res = Ok p) ∨
    (pydict.get k (_data s) = Some NOT_LOADED ∧ reader s = None ∧
     res = Raise (AttributeError "reader")))) ∨
  (∃ r, pydict.get k (_data s) = Some NOT_LOADED ∧ reader s = Some r ∧
        evs = [EvRead r k] ∧
        ((∃ e, readf r k = Raise e ∧ res = Raise e ∧ s' = s) ∨
         (∃ p, readf r k = Ok p ∧ res = Ok p ∧
               s' = mkDataStore (pydict.set k (Loaded p) (_data s))
                      (_scheduledForDeletion s) (reader s)))).
Proof.
  unfold misc.__getitem__. intros H.
  destruct (pydict.get k (_data s)) as [[|p]|] eqn:Hk.
  - destruct (reader s) as [r|] eqn:Hr.
    + right. exists r. destruct (readf r k) as [p|e] eqn:Hrd; simplify_eq.
      * split_and!; try done. right. by exists p.
      * split_and!; try done. left. by exists e.
    + simplify_eq. left. split_and!; try done. right. right. done.
  - simplify_eq. left. split_and!; try done. right. left. by exists p.
  - simplify_eq. left. split_and!; try done. left. done.
Qed.

Lemma getitem_frame k s res s' evs :
  __getitem__ k s = (res, s', evs) →
  _scheduledForDeletion s' = _scheduledForDeletion s ∧
  reader s' = reader s ∧
  pydict.keys (_data s') = pydict.keys (_data s) ∧
  (∀ k', k' ≠ k → pydict.get k' (_data s') = pydict.get k' (_data s)) ∧
  (∀ p, pydict.get k (_data s) = Some (Loaded p) →
        pydict.get k (_data s') = Some (Loaded p)) ∧
  (∀ p, res = Ok p → pydict.get k (_data s') = Some (Loaded p)).
Proof.
  intros H. apply getitem_inv in H as [(-> & -> & H)|(r & Hk & Hr & -> & H)].
  - split_and!; try done.
    intros p ->. destruct H as [[_ ?]|[(p' & ? & ?)|(_ & _ & ?)]]; by simplify_eq.
  - destruct H as [(e & _ & -> & ->)|(p & Hrd & -> & ->)]; simpl.
    + split_and!; try done.
    + split_and!; try done.
      * apply dict_keys_set_present. apply dict_get_is_Some. by rewrite Hk.
      * intros k' Hne. by apply dict_get_set_ne.
      * intros p'. rewrite Hk. done.
      * intros p' [= <-]. apply dict_get_set_eq.
Qed.

Lemma getitem_wf k s : wf s → wf (__getitem__ k s).1.2.
Proof.
  intros [Hnd Hex Hrd].
  destruct (__getitem__ k s) as [[res s'] evs] eqn:E. simpl.
  pose proof (getitem_frame _ _ _ _ _ E) as (Hsfd & Hr & Hkeys & Hother & _ & _).
  split.
  - by rewrite Hkeys.
  - intros k'. rewrite Hsfd. intros Hin. apply dict_get_None.
    rewrite Hkeys. apply dict_get_None. by apply Hex.
  - intros k' Hk'. rewrite Hr. destruct (decide (k' = k)) as [->|Hne].
    + apply getitem_inv in E as [(-> & _)|(r & _ & -> & _)]; [by eapply Hrd | done].
    + rewrite Hother in Hk' by done. by eapply Hrd.
Qed.

Lemma getitem_events k s ev :
  ev ∈ (__getitem__ k s).2 → ∃ r, ev = EvRead r k ∧ reader s = Some r.
Proof.
  destruct (__getitem__ k s) as [[res s'] evs] eqn:E. simpl.
  apply getitem_inv in E as [(_ & -> & _)|(r & _ & Hr & -> & _)].
  - intros H. by apply elem_of_nil in H.
  - intros H. apply list_elem_of_singleton in H as ->. by exists r.
Qed.

(** *** [__setitem__] and [__delitem__] *)

Lemma setitem_wf k v s : wf s → wf (__setitem__ k v s).
Proof.
  intros [Hnd Hex Hrd]. split; simpl.
  - by apply dict_NoDup_keys_set.
  - intros k' Hin. apply elem_of_difference in Hin as [Hin Hne].
    rewrite dict_get_set_ne; [by apply Hex | set_solver].
  - intros k' Hk'. destruct (decide (k = k')) as [->|Hne].
    + by rewrite dict_get_set_eq in Hk'.
    + rewrite dict_get_set_ne in Hk' by done. by eapply Hrd.
Qed.

Lemma delitem_wf k s : wf s → wf (__delitem__ k s).2.
Proof.
  intros [Hnd Hex Hrd]. unfold __delitem__.
  destruct (pydict.get k (_data s)) eqn:Hk; simpl; [| done].
  split; simpl.
  - by apply dict_NoDup_keys_del.
  - intros k' Hin. destruct (decide (k = k')) as [->|Hne].
    + by apply dict_get_del_eq.
    + rewrite dict_get_del_ne by done. apply Hex.
      apply elem_of_union in Hin as [Hin|Hin]; [| done].
      apply elem_of_singleton in Hin. congruence.
  - intros k' Hk'. destruct (decide (k = k')) as [->|Hne].
    + by rewrite dict_get_del_eq in Hk'.
    + rewrite dict_get_del_ne in Hk' by done. by eapply Hrd.
Qed.

Lemma getitem_resolve k s k' :
  resolve (__getitem__ k s).1.2 k' = resolve s k'.
Proof.
  destruct (__getitem__ k s) as [[res s'] evs] eqn:E. simpl.
  pose proof (getitem_frame _ _ _ _ _ E) as (_ & Hr & _ & Hother & _ & _).
  apply getitem_inv in E as [(-> & _)|(r & Hk & Hrd & _ & H)]; [done |].
  destruct H as [(e & _ & _ & ->)|(p & Hp & _ & ->)]; [done |].
  unfold misc.resolve. simpl. destruct (decide (k = k')) as [<-|Hne].
  - by rewrite dict_get_set_eq, Hk, Hrd, Hp.
  - by rewrite dict_get_set_ne.
Qed.

Lemma getitem_ok_resolve k s p s' evs :
  __getitem__ k s = (Ok p, s', evs) → resolve s k = Some p.
Proof.
  intros E. unfold misc.resolve.
  apply getitem_inv in E as [(_ & _ & H)|(r & Hk & Hr & _ & H)].
  - destruct H as [[_ ?]|[(p' & -> & ?)|(_ & _ & ?)]]; by simplify_eq.
  - rewrite Hk, Hr. destruct H as [(e & _ & ? & _)|(p' & -> & ? & _)]; by simplify_eq.
Qed.

(** *** The two loops of [write] *)

Lemma delete_loop_events w names ev :
  ev ∈ (delete_loop w names).2 → ∃ k, k ∈ names ∧ ev = EvDelete w k.
Proof.
  induction names as [|k names IH]; simpl.
  - intros H. by apply elem_of_nil in H.
  - destruct (deletef w k).
    + destruct (delete_loop w names) as [res evs]. simpl in *.
      intros [->|H]%elem_of_cons.
      * exists k. split; [left | done].
      * destruct (IH H) as (k' & ? & ?). exists k'. split; [by right | done].
    + simpl. intros ->%list_elem_of_singleton. exists k. split; [left | done].
Qed.

Lemma write_loop_frame w names s :
  let '(res, s', evs) := write_loop w names s in
  _scheduledForDeletion s' = _scheduledForDeletion s ∧
  reader s' = reader s ∧
  pydict.keys (_data s') = pydict.keys (_data s) ∧
  (∀ k, resolve s' k = resolve s k) ∧
  (wf s → wf s') ∧
  (∀ k p, pydict.get k (_data s) = Some (Loaded p) →
          pydict.get k (_data s') = Some (Loaded p)) ∧
  (∀ ev, ev ∈ evs → is_delete ev = false).
Proof.
  revert s. induction names as [|k names IH]; intros s; simpl.
  - split_and!; try done. intros ev H. by apply elem_of_nil in H.
  - destruct (__getitem__ k s) as [[[p|e] s1] evs1] eqn:E.
    + pose proof (getitem_frame _ _ _ _ _ E) as (Hsfd & Hr & Hkeys & Hother & Hkeep & _).
      pose proof (getitem_resolve k s) as Hres. rewrite E in Hres. simpl in Hres.
      pose proof (getitem_wf k s) as Hwf. rewrite E in Hwf. simpl in Hwf.
      pose proof (getitem_events k s) as Hev. rewrite E in Hev. simpl in Hev.
      assert (∀ k' p', pydict.get k' (_data s) = Some (Loaded p') →
                       pydict.get k' (_data s1) = Some (Loaded p')) as Hkeep'.
      { intros k' p' Hk'. destruct (decide (k' = k)) as [->|Hne]; [by apply Hkeep |].
        by rewrite Hother. }
      destruct (writef w k p).
      * specialize (IH s1). destruct (write_loop w names s1) as [[res s2] evs2].
        destruct IH as (IH1 & IH2 & IH3 & IH4 & IH5 & IH6 & IH7).
        split_and!.
        -- congruence.
        -- congruence.
        -- congruence.
        -- intros k'. by rewrite IH4.
        -- auto.
        -- auto.
        -- intros ev [H|H]%elem_of_app.
           ++ apply Hev in H as (r & -> & _). done.
           ++ apply elem_of_cons in H as [->|H]; [done | by apply IH7].
      * split_and!; try done.
        intros ev [H|H]%elem_of_app.
        -- apply Hev in H as (r & -> & _). done.
        -- apply list_elem_of_singleton in H as ->. done.
    + pose proof (getitem_frame _ _ _ _ _ E) as (Hsfd & Hr & Hkeys & Hother & Hkeep & _).
      pose proof (getitem_resolve k s) as Hres. rewrite E in Hres. simpl in Hres.
      pose proof (getitem_wf k s) as Hwf. rewrite E in Hwf. simpl in Hwf.
      pose proof (getitem_events k s) as Hev. rewrite E in Hev. simpl in Hev.
      split_and!; try done.
      * intros k' p' Hk'. destruct (decide (k' = k)) as [->|Hne]; [by apply Hkeep |].
        by rewrite Hother.
      * intros ev H. apply Hev in H as (r & -> & _). done.
Qed.

(** A completed [write_loop] hands every name, in order, to [writef] with
    the payload the entry stands for, and leaves the entry loaded. *)
Lemma write_loop_ok w names s s' evs :
  write_loop w names s = (Ok tt, s', evs) →
  Forall2 (λ k kp, kp.1 = k ∧ resolve s k = Some kp.2) names (written evs) ∧
  (∀ k, k ∈ names → ∃ p, resolve s k = Some p ∧
                          pydict.get k (_data s') = Some (Loaded p)).
Proof.
  revert s evs. induction names as [|k names IH]; intros s evs; simpl.
  - intros [= <- <-]. split; [constructor |]. intros k H. by apply elem_of_nil in H.
  - destruct (__getitem__ k s) as [[[p|e] s1] evs1] eqn:E; [| done].
    pose proof (getitem_ok_resolve _ _ _ _ _ E) as Hp.
    pose proof (getitem_resolve k s) as Hres. rewrite E in Hres. simpl in Hres.
    pose proof (getitem_events k s) as Hev. rewrite E in Hev. simpl in Hev.
    pose proof (getitem_frame _ _ _ _ _ E) as (_ & _ & _ & _ & _ & Hload).
    destruct (writef w k p); [| done].
    destruct (write_loop w names s1) as [[res s2] evs2] eqn:E2.
    intros [= -> -> <-].
    pose proof (write_loop_frame w names s1) as Hfr. rewrite E2 in Hfr.
    destruct Hfr as (_ & _ & _ & _ & _ & Hkeep & _).
    destruct (IH _ _ E2) as [IHa IHb]. split.
    + unfold written. rewrite omap_app. simpl.
      assert (omap (λ ev : event Reader Writer Payload,
                match ev with EvWrite _ f d => Some (f, d) | _ => None end) evs1 = [])
        as ->.
      { clear -Hev. induction evs1 as [|ev evs1 IH]; [done |].
        destruct (Hev ev) as (r & -> & _); [left |]. simpl.
        apply IH. intros ev' H. apply Hev. by right. }
      simpl. constructor; [done |].
      eapply Forall2_impl; [exact IHa |]. intros k' kp [? ?]. by rewrite <- Hres.
    + intros k' [->|H]%elem_of_cons.
      * exists p. split; [done |]. apply Hkeep. by apply Hload.
      * destruct (IHb _ H) as (p' & ? & ?). exists p'. by rewrite <- Hres.
Qed.

(** If no adapter call fails, [write_loop] completes. *)
Lemma write_loop_total w names s :
  (∀ k, k ∈ names → is_Some (resolve s k)) →
  (∀ k p, is_ok (writef w k p) = true) →
  (write_loop w names s).1.1 = Ok tt.
Proof.
  intros Hres Hw. revert s Hres. induction names as [|k names IH]; intros s Hres; [done |].
  simpl. destruct (Hres k) as [p Hp]; [left |].
  destruct (__getitem__ k s) as [[res s1] evs1] eqn:E.
  pose proof (getitem_resolve k s) as Hr. rewrite E in Hr. simpl in Hr.
  assert (res = Ok p) as ->.
  { unfold misc.resolve in Hp.
    apply getitem_inv in E as [(_ & _ & H)|(r & Hk & Hrd & _ & H)].
    - destruct H as [[H ?]|[(p' & H & ?)|(H & H' & ?)]]; rewrite H in Hp; try done.
      + by simplify_eq.
      + by rewrite H' in Hp.
    - rewrite Hk, Hrd in Hp.
      destruct H as [(e & H & _)|(p' & H & ? & _)]; rewrite H in Hp; by simplify_eq. }
  specialize (Hw k p). destruct (writef w k p) as [[]|]; [| done].
  specialize (IH s1). destruct (write_loop w names s1) as [[res2 s2] evs2].
  simpl in *. apply IH. intros k' Hk'. rewrite Hr. apply Hres. by right.
Qed.

(** *** [write] *)

Lemma write_inv w saveAs s res s' evs :
  write w saveAs s = (res, s', evs) →
  ∃ res1 evs1,
    (if saveAs then (Ok tt, [])
     else delete_loop w (elements (_scheduledForDeletion s))) = (res1, evs1) ∧
    ((∃ e, res1 = Raise e ∧ res = Raise e ∧ s' = s ∧ evs = evs1) ∨
     (∃ res2 s2 evs2,
        res1 = Ok tt ∧ write_loop w (__iter__ s) s = (res2, s2, evs2) ∧
        evs = evs1 ++ evs2 ∧
        ((∃ e, res2 = Raise e ∧ res = Raise e ∧ s' = s2) ∨
         (res2 = Ok tt ∧ res = Ok tt ∧
          s' = mkDataStore (_data s2) ∅ (if saveAs then None else reader s2))))).
Proof.
  unfold misc.write.
  destruct (if saveAs then _ else _) as [res1 evs1] eqn:E1.
  intros H. exists res1, evs1. split; [done |].
  destruct res1 as [[]|e].
  - right. destruct (write_loop w (__iter__ s) s) as [[res2 s2] evs2] eqn:E2.
    exists res2, s2, evs2. split_and!; try done.
    + destruct res2; by simplify_eq.
    + destruct res2 as [[]|e]; simplify_eq; [right | left; exists e]; done.
  - left. exists e. by simplify_eq.
Qed.

Lemma write_wf w saveAs s : wf s → wf (write w saveAs s).1.2.
Proof.
  intros Hwf. destruct (write w saveAs s) as [[res s'] evs] eqn:E. simpl.
  apply write_inv in E as (res1 & evs1 & _ & [(e & _ & _ & -> & _)|H]); [done |].
  destruct H as (res2 & s2 & evs2 & _ & E2 & _ & H).
  pose proof (write_loop_frame w (__iter__ s) s) as Hfr. rewrite E2 in Hfr.
  destruct Hfr as (_ & _ & Hkeys & _ & Hwf2 & _ & _).
  destruct H as [(e & _ & _ & ->)|(-> & _ & ->)]; [by apply Hwf2 |].
  destruct (Hwf2 Hwf) as [Hnd Hex Hrd].
  apply write_loop_ok in E2 as [_ Hall].
  split; simpl; [done | |].
  - intros k Hk. by apply elem_of_empty in Hk.
  - intros k Hk. assert (k ∈ __iter__ s) as Hin.
    { unfold __iter__. rewrite <- Hkeys. apply dict_get_is_Some. by rewrite Hk. }
    destruct (Hall k Hin) as (p & _ & Hp). congruence.
Qed.

(** An in-place flush asks [deletef] only for names scheduled for
    deletion; a save-as flush never asks. *)
Lemma write_deletes w saveAs s ev :
  ev ∈ (write w saveAs s).2 → is_delete ev = true →
  saveAs = false ∧ ∃ k, k ∈ _scheduledForDeletion s ∧ ev = EvDelete w k.
Proof.
  destruct (write w saveAs s) as [[res s'] evs] eqn:E. simpl.
  apply write_inv in E as (res1 & evs1 & E1 & H).
  assert (ev ∈ evs1 → saveAs = false ∧
          ∃ k, k ∈ _scheduledForDeletion s ∧ ev = EvDelete w k) as Hdel.
  { destruct saveAs.
    - injection E1 as <- <-. intros Hin. by apply elem_of_nil in Hin.
    - intros Hin. split; [done |].
      pose proof (delete_loop_events w (elements (_scheduledForDeletion s)) ev) as Hd.
      rewrite E1 in Hd. destruct (Hd Hin) as (k & Hk & ->).
      exists k. split; [by apply elem_of_elements | done]. }
  destruct H as [(e & _ & _ & _ & ->)|(res2 & s2 & evs2 & _ & E2 & -> & _)].
  - intros Hin _. by apply Hdel.
  - intros [Hin|Hin]%elem_of_app Hd; [by apply Hdel |].
    pose proof (write_loop_frame w (__iter__ s) s) as Hfr. rewrite E2 in Hfr.
    destruct Hfr as (_ & _ & _ & _ & _ & _ & Hno). rewrite (Hno _ Hin) in Hd. done.
Qed.

Lemma delete_loop_total w names :
  (∀ k, is_ok (deletef w k) = true) → (delete_loop w names).1 = Ok tt.
Proof.
  intros Hd. induction names as [|k names IH]; [done |]. simpl.
  specialize (Hd k). destruct (deletef w k) as [[]|]; [| done].
  destruct (delete_loop w names). done.
Qed.

(** If no adapter call fails, [write] completes. *)
Lemma write_total w saveAs s :
  wf s →
  (∀ r k, reader s = Some r → is_unloaded s k = true → is_ok (readf r k) = true) →
  (∀ k p, is_ok (writef w k p) = true) →
  (saveAs = false → ∀ k, is_ok (deletef w k) = true) →
  (write w saveAs s).1.1 = Ok tt.
Proof.
  intros [Hnd Hex Hrd] Hr Hw Hd. unfold misc.write.
  destruct (if saveAs then _ else _) as [res1 evs1] eqn:E1.
  assert (res1 = Ok tt) as ->.
  { destruct saveAs; [by simplify_eq |].
    pose proof (delete_loop_total w (elements (_scheduledForDeletion s))
                  (Hd eq_refl)) as H.
    by rewrite E1 in H. }
  pose proof (write_loop_total w (__iter__ s) s) as Hl.
  destruct (write_loop w (__iter__ s) s) as [[res2 s2] evs2]. simpl in Hl.
  rewrite Hl; [done | | done].
  intros k Hk. apply dict_get_is_Some in Hk as [sl Hsl].
  unfold misc.resolve. rewrite Hsl. destruct sl as [|p]; [| by eexists].
  destruct (Hrd k Hsl) as [r Hrs]. rewrite Hrs. specialize (Hr r k Hrs).
  unfold is_unloaded in Hr. rewrite Hsl in Hr. specialize (Hr eq_refl).
  destruct (readf r k); [by eexists | done].
Qed.

(** *** [read] *)

Lemma read_loop_get r lazy names d d' evs :
  read_loop r lazy names d = (Ok d', evs) →
  ∀ k, pydict.get k d' =
    if decide (k ∈ names) then
      if lazy then Some NOT_LOADED
      else match readf r k with Ok p => Some (Loaded p) | Raise _ => None end
    else pydict.get k d.
Proof.
  revert d evs. induction names as [|k0 names IH]; intros d evs E k.
  - injection E as <- <-. rewrite decide_False; [done | apply not_elem_of_nil].
  - simpl in E. destruct lazy.
    + rewrite (IH _ _ E k).
      destruct (decide (k ∈ names)) as [Hin|Hnin].
      * rewrite decide_True; [done | by right].
      * destruct (decide (k = k0)) as [->|Hne].
        -- rewrite decide_True by left. apply dict_get_set_eq.
        -- rewrite decide_False by (by intros [?|?]%elem_of_cons).
           by apply dict_get_set_ne.
    + destruct (readf r k0) as [p|e] eqn:Hrd; [| done].
      destruct (read_loop r false names (pydict.set k0 (Loaded p) d))
        as [res evs'] eqn:E'.
      injection E as -> <-. rewrite (IH _ _ E' k).
      destruct (decide (k ∈ names)) as [Hin|Hnin].
      * rewrite decide_True; [done | by right].
      * destruct (decide (k = k0)) as [->|Hne].
        -- rewrite decide_True by left. rewrite Hrd. apply dict_get_set_eq.
        -- rewrite decide_False by (by intros [?|?]%elem_of_cons).
           by apply dict_get_set_ne.
Qed.

Lemma read_loop_nodup r lazy names d d' evs :
  read_loop r lazy names d = (Ok d', evs) →
  NoDup (pydict.keys d) → NoDup (pydict.keys d').
Proof.
  revert d evs. induction names as [|k0 names IH]; intros d evs; simpl.
  - by intros [= <- <-].
  - destruct lazy.
    + intros E Hnd. eapply IH; [exact E |]. by apply dict_NoDup_keys_set.
    + destruct (readf r k0) as [p|e]; [| done].
      destruct (read_loop r false names (pydict.set k0 (Loaded p) d))
        as [res evs'] eqn:E.
      intros [= -> <-] Hnd. eapply IH; [exact E |]. by apply dict_NoDup_keys_set.
Qed.

Lemma read_loop_events r lazy names d d' evs :
  read_loop r lazy names d = (Ok d', evs) →
  evs = if lazy then [] else EvRead r <$> names.
Proof.
  revert d evs. induction names as [|k0 names IH]; intros d evs; simpl.
  - intros [= <- <-]. by destruct lazy.
  - destruct lazy.
    + intros E. by apply IH in E.
    + destruct (readf r k0) as [p|e]; [| done].
      destruct (read_loop r false names (pydict.set k0 (Loaded p) d))
        as [res evs'] eqn:E.
      intros [= -> <-]. apply IH in E. by rewrite E.
Qed.

Lemma read_loop_total r lazy names d :
  (∀ k, k ∈ names → is_ok (readf r k) = true) →
  is_ok (read_loop r lazy names d).1 = true.
Proof.
  revert d. induction names as [|k0 names IH]; intros d Hok; [done |]. simpl.
  destruct lazy.
  - apply IH. intros k Hk. apply Hok. by right.
  - pose proof (Hok k0 ltac:(left)) as Hk0.
    destruct (readf r k0) as [p|e]; [| done].
    specialize (IH (pydict.set k0 (Loaded p) d)).
    destruct (read_loop r false names (pydict.set k0 (Loaded p) d)). simpl in *.
    apply IH. intros k Hk. apply Hok. by right.
Qed.

Lemma read_inv r lazy s evs :
  read r lazy = (Ok s, evs) →
  ∃ evs', read_loop r lazy (listdir r) [] = (Ok (_data s), evs') ∧
          evs = EvListdir r :: evs' ∧
          _scheduledForDeletion s = ∅ ∧
          reader s = (if lazy then Some r else None).
Proof.
  unfold misc.read.
  destruct (read_loop r lazy (listdir r) []) as [[d|e] evs'] eqn:E; [| done].
  intros [= <- <-]. by exists evs'.
Qed.

Lemma read_wf r lazy s evs : read r lazy = (Ok s, evs) → wf s.
Proof.
  intros (evs' & E & _ & Hsfd & Hr)%read_inv. split.
  - eapply read_loop_nodup; [exact E | constructor].
  - intros k. rewrite Hsfd. intros H. by apply elem_of_empty in H.
  - intros k Hk. rewrite Hr. destruct lazy; [done |].
    rewrite (read_loop_get _ _ _ _ _ _ E k) in Hk.
    destruct (decide (k ∈ listdir r)); [| done]. by destruct (readf r k).
Qed.

(** Every store a client can build satisfies the invariant. *)
Lemma reachable_wf s : reachable s → wf s.
Proof.
  induction 1 as [d Hnd Hld|r lazy s evs E|k s _ IH|k v s _ IH|k s _ IH|w sa s _ IH].
  - split; simpl; [done | | ].
    + intros k H. by apply elem_of_empty in H.
    + intros k Hk. by apply Hld in Hk.
  - by eapply read_wf.
  - by apply getitem_wf.
  - by apply setitem_wf.
  - by apply delitem_wf.
  - by apply write_wf.
Qed.

Lemma written_app evs1 evs2 :
  written (evs1 ++ evs2) = written evs1 ++ written evs2.
Proof. unfold written. apply omap_app. Qed.

Lemma write_written w saveAs s s' evs :
  write w saveAs s = (Ok tt, s', evs) →
  Forall2 (λ k kp, kp.1 = k ∧ resolve s k = Some kp.2) (__iter__ s) (written evs) ∧
  pydict.keys (_data s') = pydict.keys (_data s) ∧
  (∀ k, k ∈ __iter__ s → ∃ p, resolve s k = Some p ∧
                           pydict.get k (_data s') = Some (Loaded p)).
Proof.
  intros (res1 & evs1 & E1 & [(e & _ & ? & _)|H])%write_inv; [done |].
  destruct H as (res2 & s2 & evs2 & -> & E2 & -> & [(e & _ & ? & _)|(-> & _ & ->)]);
    [done |].
  pose proof (write_loop_frame w (__iter__ s) s) as Hfr. rewrite E2 in Hfr.
  destruct Hfr as (_ & _ & Hkeys & _ & _ & _ & _).
  apply write_loop_ok in E2 as [Hall Hld]. simpl. split_and!; [| done | done].
  rewrite written_app.
  assert (written evs1 = []) as ->; [| done].
  destruct saveAs; [by simplify_eq |].
  pose proof (delete_loop_events w (elements (_scheduledForDeletion s))) as Hd.
  rewrite E1 in Hd. simpl in Hd. clear -Hd.
  induction evs1 as [|ev evs1 IH]; [done |].
  destruct (Hd ev) as (k & _ & ->); [left |]. simpl.
  apply IH. intros ev' H. apply Hd. by right.
Qed.

(** C2: a name is never both in the data mapping and in the
    pending-deletion set, whatever sequence of operations built the store;
    [__setitem__] stores the payload and clears the name's pending deletion,
    [__delitem__] removes the name and schedules it; and after a delete and a
    set of the same name, an in-place [write] never calls [deletef] for it,
    hands the new payload to [writef] when it completes, and completes
    whenever no adapter call fails. *)
Theorem set_clears_pending_deletion s :
  reachable s →
  (∀ k, ¬ (k ∈ __iter__ s ∧ k ∈ _scheduledForDeletion s)) ∧
  (∀ k v, pydict.get k (_data (__setitem__ k v s)) = Some (Loaded v) ∧
          k ∉ _scheduledForDeletion (__setitem__ k v s)) ∧
  (∀ k, k ∈ __iter__ s →
        (__delitem__ k s).1 = Ok tt ∧
        (k ∉ __iter__ (__delitem__ k s).2) ∧
        k ∈ _scheduledForDeletion (__delitem__ k s).2) ∧
  (∀ k v w,
     let s1 := __setitem__ k v (__delitem__ k s).2 in
     (∀ ev, ev ∈ (write w false s1).2 → is_delete_of k ev = false) ∧
     ((write w false s1).1.1 = Ok tt → (k, v) ∈ written (write w false s1).2) ∧
     ((∀ r k', reader s1 = Some r → is_unloaded s1 k' = true →
               is_ok (readf r k') = true) →
      (∀ k' p, is_ok (writef w k' p) = true) →
      (∀ k', is_ok (deletef w k') = true) →
      (write w false s1).1.1 = Ok tt)).
Proof.
  intros Hreach. pose proof (reachable_wf _ Hreach) as Hwf.
  destruct Hwf as [Hnd Hex Hrd]. split_and!.
  - intros k [Hin Hdel]. apply Hex in Hdel. apply dict_get_None in Hdel. done.
  - intros k v. simpl. split; [apply dict_get_set_eq |].
    intros [_ Hne]%elem_of_difference. apply Hne. by apply elem_of_singleton.
  - intros k Hin. unfold __delitem__.
    apply dict_get_is_Some in Hin as [sl Hsl]. rewrite Hsl. simpl. split_and!.
    + done.
    + apply dict_get_None. by apply dict_get_del_eq.
    + apply elem_of_union. left. by apply elem_of_singleton.
  - intros k v w s1.
    assert (wf s1) as Hwf1.
    { apply setitem_wf, delitem_wf. by split. }
    assert (k ∉ _scheduledForDeletion s1) as Hnot.
    { unfold s1. simpl. intros [_ Hne]%elem_of_difference.
      apply Hne. by apply elem_of_singleton. }
    split_and!.
    + intros ev Hev. destruct (is_delete ev) eqn:Hd.
      * destruct (write_deletes _ _ _ _ Hev Hd) as (_ & k' & Hk' & ->). simpl.
        apply bool_decide_eq_false. intros ->. done.
      * by destruct ev.
    + destruct (write w false s1) as [[res s2] evs] eqn:E. simpl. intros ->.
      apply write_written in E as (Hall & _ & _).
      assert (k ∈ __iter__ s1) as Hin.
      { unfold s1, __iter__. simpl. apply dict_elem_of_keys_set. by left. }
      apply list_elem_of_lookup in Hin as [i Hi].
      destruct (Forall2_lookup_l _ _ _ _ _ Hall Hi) as ([k' p] & Hkp & Hk' & Hres).
      simpl in *. subst k'.
      unfold misc.resolve, s1 in Hres. simpl in Hres.
      rewrite dict_get_set_eq in Hres. injection Hres as <-.
      apply list_elem_of_lookup. by exists i.
    + intros Hr Hw Hd. by apply write_total.
Qed.

(** In a completed [write_loop], an entry that was not loaded is read from
    the store's reader and the payload read is the one written next. *)
Lemma write_loop_pull w names s s' evs k :
  write_loop w names s = (Ok tt, s', evs) →
  k ∈ names → pydict.get k (_data s) = Some NOT_LOADED →
  ∃ r p l1 l2, reader s = Some r ∧ readf r k = Ok p ∧
               evs = l1 ++ EvRead r k :: EvWrite w k p :: l2.
Proof.
  revert s evs. induction names as [|k0 names IH]; intros s evs E Hin Hk.
  - by apply elem_of_nil in Hin.
  - simpl in E. destruct (__getitem__ k0 s) as [[[p0|e] s1] evs1] eqn:E1; [| done].
    destruct (writef w k0 p0); [| done].
    destruct (write_loop w names s1) as [[res s2] evs2] eqn:E2.
    injection E as -> -> <-.
    destruct (decide (k = k0)) as [->|Hne].
    + apply getitem_inv in E1 as [(_ & _ & H)|(r & _ & Hr & -> & H)].
      * destruct H as [[? _]|[(p' & ? & _)|(_ & _ & ?)]]; congruence.
      * destruct H as [(e & _ & ? & _)|(p & Hp & ? & _)]; [done |].
        simplify_eq. by eexists r, _, [], evs2.
    + apply elem_of_cons in Hin as [?|Hin]; [done |].
      pose proof (getitem_frame _ _ _ _ _ E1) as (_ & Hr & _ & Hother & _ & _).
      destruct (IH _ _ E2 Hin) as (r & p & l1 & l2 & Hr' & Hp & ->).
      { by rewrite Hother. }
      exists r, p, (evs1 ++ EvWrite w k0 p0 :: l1), l2.
      split_and!; [congruence | done |]. by rewrite <- !app_assoc.
Qed.

(** C3: a save-as [write] that completes has handed every entry of the
    store to [writef], in order and with the payload the entry stands for;
    an entry that was still unloaded was first read through the store's
    reader, and what was read is what is written; afterwards every entry
    is loaded and the [reader] attribute is gone.  The write completes
    whenever no adapter call fails. *)
Theorem save_as_pulls_unloaded_entries s w :
  reachable s →
  (∀ s' evs, write w true s = (Ok tt, s', evs) →
     (written evs).*1 = __iter__ s ∧
     (∀ k p, (k, p) ∈ written evs → resolve s k = Some p) ∧
     (∀ k, is_unloaded s k = true →
           ∃ r p l1 l2, reader s = Some r ∧ readf r k = Ok p ∧
                        evs = l1 ++ EvRead r k :: EvWrite w k p :: l2) ∧
     __iter__ s' = __iter__ s ∧
     (∀ k, k ∈ __iter__ s' → is_unloaded s' k = false) ∧
     reader s' = None) ∧
  ((∀ r k, reader s = Some r → is_unloaded s k = true →
           is_ok (readf r k) = true) →
   (∀ k p, is_ok (writef w k p) = true) →
   (write w true s).1.1 = Ok tt).
Proof.
  intros Hreach. pose proof (reachable_wf _ Hreach) as Hwf. split.
  - intros s' evs E.
    pose proof (write_written _ _ _ _ _ E) as (Hall & Hkeys & Hld).
    apply write_inv in E as (res1 & evs1 & E1 & [(e & _ & ? & _)|H]); [done |].
    destruct H as (res2 & s2 & evs2 & _ & E2 & -> & [(e & _ & ? & _)|(-> & _ & ->)]);
      [done |].
    injection E1 as <- <-. simpl in *. split_and!.
    + clear -Hall. induction Hall as [|k [k' p] ks kps [Hk _] _ IH]; [done |].
      rewrite fmap_cons, IH. simpl in Hk. by rewrite Hk.
    + intros k p Hin. apply list_elem_of_lookup in Hin as [i Hi].
      destruct (Forall2_lookup_r _ _ _ _ _ Hall Hi) as (k' & _ & Hk' & Hres).
      simpl in *. by subst k'.
    + intros k Hk. unfold is_unloaded in Hk.
      destruct (pydict.get k (_data s)) as [[|p]|] eqn:Hget; try done.
      eapply write_loop_pull; [exact E2 | | done].
      apply dict_get_is_Some. by rewrite Hget.
    + done.
    + intros k Hin. unfold __iter__ in Hin. simpl in Hin. rewrite Hkeys in Hin.
      destruct (Hld k Hin) as (p & _ & Hp). unfold is_unloaded. simpl. by rewrite Hp.
    + done.
  - intros Hr Hw. by apply write_total.
Qed.

(** C9: a save-as [write] never calls [deletef], whether it completes or
    not; when it completes the pending-deletion set is empty, so the names
    that were scheduled are forgotten and an in-place [write] that follows
    calls [deletef] for none of them (indeed for no name at all).  The
    save-as write completes whenever no adapter call fails. *)
Theorem save_as_discards_pending_deletions s w :
  reachable s →
  (∀ ev, ev ∈ (write w true s).2 → is_delete ev = false) ∧
  (∀ s' evs, write w true s = (Ok tt, s', evs) →
     _scheduledForDeletion s' = ∅ ∧
     ∀ w' ev, ev ∈ (write w' false s').2 → is_delete ev = false) ∧
  ((∀ r k, reader s = Some r → is_unloaded s k = true →
           is_ok (readf r k) = true) →
   (∀ k p, is_ok (writef w k p) = true) →
   (write w true s).1.1 = Ok tt).
Proof.
  intros Hreach. split_and!.
  - intros ev Hev. destruct (is_delete ev) eqn:Hd; [| done].
    by destruct (write_deletes _ _ _ _ Hev Hd) as [? _].
  - intros s' evs E.
    assert (_scheduledForDeletion s' = ∅) as Hempty.
    { apply write_inv in E as (res1 & evs1 & _ & [(e & _ & ? & _)|H]); [done |].
      by destruct H as (? & ? & ? & _ & _ & _ & [(e & _ & ? & _)|(_ & _ & ->)]). }
    split; [done |]. intros w' ev Hev. destruct (is_delete ev) eqn:Hd; [| done].
    destruct (write_deletes _ _ _ _ Hev Hd) as (_ & k & Hk & _).
    rewrite Hempty in Hk. by apply elem_of_empty in Hk.
  - intros Hr Hw. apply write_total; [by apply reachable_wf | done | done | done].
Qed.

(** *** Lazy and eager stores *)

Lemma count_if_app {A} (f : A → bool) l1 l2 :
  count_if f (l1 ++ l2) = count_if f l1 + count_if f l2.
Proof. unfold count_if. by rewrite List.filter_app, length_app. Qed.

(** Looking up names whose entries are all loaded calls no adapter and
    leaves the store as it is. *)
Lemma getitems_loaded s names ps :
  Forall2 (λ k p, pydict.get k (_data s) = Some (Loaded p)) names ps →
  getitems names s = (Ok ps, s, []).
Proof.
  induction 1 as [|k p names ps Hk _ IH]; [done |]. simpl.
  by rewrite (getitem_loaded _ _ _ Hk), IH.
Qed.

Lemma getitems_keep names s k p :
  pydict.get k (_data s) = Some (Loaded p) →
  pydict.get k (_data (getitems names s).1.2) = Some (Loaded p).
Proof.
  revert s. induction names as [|k0 names IH]; intros s Hk; [done |]. simpl.
  destruct (__getitem__ k0 s) as [[res s1] evs1] eqn:E1.
  pose proof (getitem_frame _ _ _ _ _ E1) as (_ & _ & _ & Hother & Hkeep & _).
  assert (pydict.get k (_data s1) = Some (Loaded p)) as Hk1.
  { destruct (decide (k = k0)) as [->|Hne]; [by apply Hkeep | by rewrite Hother]. }
  destruct res as [p0|e]; [| done].
  specialize (IH s1 Hk1). by destruct (getitems names s1) as [[res2 s2] evs2].
Qed.

(** Looking up names of a lazily read store: each name is read from the
    reader at its first look-up and never again. *)
Lemma getitems_lazy r s names :
  reader s = Some r →
  (∀ k, k ∈ names → ∃ p, readf r k = Ok p ∧
        (pydict.get k (_data s) = Some NOT_LOADED ∨
         pydict.get k (_data s) = Some (Loaded p))) →
  ∃ ps s' evs,
    getitems names s = (Ok ps, s', evs) ∧
    Forall2 (λ k p, readf r k = Ok p) names ps ∧
    (∀ k, count_if (is_read_of k) evs =
          if bool_decide (k ∈ names) && is_unloaded s k then 1 else 0) ∧
    (∀ ev, ev ∈ evs → ∃ k, ev = EvRead r k) ∧
    Forall2 (λ k p, pydict.get k (_data s') = Some (Loaded p)) names ps.
Proof.
  revert s. induction names as [|k0 names IH]; intros s Hr Hnames.
  - exists [], s, []. split_and!; try done.
    intros ev H. by apply elem_of_nil in H.
  - assert (k0 ∈ k0 :: names) as Hin0 by left.
    destruct (Hnames k0 Hin0) as (p0 & Hp0 & Hk0).
    destruct (__getitem__ k0 s) as [[res s1] evs1] eqn:E1.
    pose proof (getitem_frame _ _ _ _ _ E1) as (_ & Hr1 & _ & Hother & Hkeep & Hload).
    assert (res = Ok p0 ∧ evs1 = (if is_unloaded s k0 then [EvRead r k0] else []))
      as [-> Hevs1].
    { unfold is_unloaded.
      apply getitem_inv in E1 as [(_ & -> & H)|(r' & Hk & Hr' & -> & H)].
      - destruct H as [[H ?]|[(p & H & ?)|(H & H' & ?)]]; [| | congruence].
        + destruct Hk0; congruence.
        + rewrite H. destruct Hk0; split; congruence.
      - rewrite Hk. assert (r' = r) as -> by congruence.
        destruct H as [(e & H & _)|(p & H & ? & _)]; [congruence |].
        split; congruence. }
    destruct (IH s1) as (ps & s2 & evs2 & E2 & Hall & Hcount & Hevs2 & Hld2).
    { congruence. }
    { intros k Hk. assert (k ∈ k0 :: names) as Hin by (by right).
      destruct (Hnames k Hin) as (p & Hp & Hkk).
      exists p. split; [done |]. destruct (decide (k = k0)) as [->|Hne].
      - right. assert (p = p0) as -> by congruence. by apply Hload.
      - by rewrite Hother. }
    exists (p0 :: ps), s2, (evs1 ++ evs2). simpl. rewrite E1, E2. split_and!.
    + done.
    + by constructor.
    + intros k. rewrite count_if_app, Hcount.
      destruct (decide (k = k0)) as [->|Hne].
      * rewrite (bool_decide_eq_true_2 (k0 ∈ k0 :: names)) by left. simpl.
        assert (is_unloaded s1 k0 = false) as ->.
        { unfold is_unloaded. by rewrite (Hload p0 eq_refl). }
        rewrite andb_false_r, Nat.add_0_r, Hevs1.
        destruct (is_unloaded s k0); unfold count_if; simpl; [| done].
        by rewrite bool_decide_eq_true_2.
      * assert (count_if (is_read_of k) evs1 = 0) as ->.
        { rewrite Hevs1. destruct (is_unloaded s k0); unfold count_if; simpl; [| done].
          by rewrite bool_decide_eq_false_2. }
        assert (is_unloaded s1 k = is_unloaded s k) as ->.
        { unfold is_unloaded. by rewrite Hother. }
        assert (bool_decide (k ∈ k0 :: names) = bool_decide (k ∈ names)) as ->.
        { apply bool_decide_ext. rewrite elem_of_cons.
          split; [intros [?|?]; done | by right]. }
        done.
    + intros ev [H|H]%elem_of_app; [| by apply Hevs2].
      rewrite Hevs1 in H. destruct (is_unloaded s k0).
      * apply list_elem_of_singleton in H. by exists k0.
      * by apply elem_of_nil in H.
    + constructor; [| done].
      pose proof (getitems_keep names s1 k0 p0 (Hload p0 eq_refl)) as Hk.
      by rewrite E2 in Hk.
Qed.

Lemma read_ok r lazy :
  (∀ k, k ∈ listdir r → is_ok (readf r k) = true) →
  ∃ s, read r lazy =
         (Ok s, EvListdir r :: (if lazy then [] else EvRead r <$> listdir r)) ∧
       reader s = (if lazy then Some r else None) ∧
       ∀ k, pydict.get k (_data s) =
         if decide (k ∈ listdir r) then
           if lazy then Some NOT_LOADED
           else match readf r k with Ok p => Some (Loaded p) | Raise _ => None end
         else None.
Proof.
  intros Hok. pose proof (read_loop_total r lazy (listdir r) [] Hok) as Ht.
  unfold misc.read.
  destruct (read_loop r lazy (listdir r) []) as [[d|e] evs] eqn:E; [| done].
  eexists. split_and!.
  - by rewrite (read_loop_events _ _ _ _ _ _ E).
  - done.
  - intros k. simpl. by rewrite (read_loop_get _ _ _ _ _ _ E k).
Qed.

(** C4: when the reader can read every name it lists, a store read lazily
    and a store read eagerly return the same payloads for any sequence of
    look-ups of listed names; the lazy store calls [readf] exactly once for
    each name looked up, however often it is looked up, and for no other
    name; the eager store, whose entries are loaded, calls no adapter. *)
Theorem lazy_lookup_agrees_with_eager r :
  (∀ k, k ∈ listdir r → is_ok (readf r k) = true) →
  ∃ sl se,
    read r true = (Ok sl, [EvListdir r]) ∧
    read r false = (Ok se, EvListdir r :: (EvRead r <$> listdir r)) ∧
    ∀ names, (∀ k, k ∈ names → k ∈ listdir r) →
      ∃ ps sl' evs,
        getitems names sl = (Ok ps, sl', evs) ∧
        getitems names se = (Ok ps, se, []) ∧
        Forall2 (λ k p, readf r k = Ok p) names ps ∧
        (∀ k, count_if (is_read_of k) evs =
              if bool_decide (k ∈ names) then 1 else 0) ∧
        (∀ ev, ev ∈ evs → ∃ k, ev = EvRead r k) ∧
        getitems names sl' = (Ok ps, sl', []).
Proof.
  intros Hok.
  destruct (read_ok r true Hok) as (sl & El & Hrl & Hgl).
  destruct (read_ok r false Hok) as (se & Ee & Hre & Hge).
  exists sl, se. split_and!; [done | done |].
  intros names Hnames.
  destruct (getitems_lazy r sl names Hrl)
    as (ps & sl' & evs & E & Hall & Hcount & Hevs & Hld).
  { intros k Hk. specialize (Hok k (Hnames k Hk)).
    destruct (readf r k) as [p|] eqn:Hp; [| done].
    exists p. split; [done |]. left. rewrite Hgl.
    by rewrite decide_True by auto. }
  exists ps, sl', evs. split_and!; try done.
  - apply getitems_loaded. eapply Forall2_impl; [| exact (λ k p H, H)].
    clear -Hall Hnames Hge. induction Hall as [|k p names ps Hp _ IH]; constructor.
    + rewrite Hge, decide_True, Hp; [done |]. apply Hnames. left.
    + apply IH. intros k' Hk'. apply Hnames. by right.
  - intros k. rewrite Hcount. destruct (bool_decide (k ∈ names)) eqn:Hin; [| done].
    apply bool_decide_eq_true in Hin. unfold is_unloaded.
    rewrite Hgl, decide_True by auto. done.
  - by apply getitems_loaded.
Qed.
End DataStore_facts.

(** *** The store on a container in memory *)

Lemma mem_readf_listed r k :
  k ∈ misc.mem_listdir r → is_ok (misc.mem_readf r k) = true.
Proof.
  intros Hk. apply dict_get_is_Some in Hk as [p Hp].
  unfold misc.mem_readf. by rewrite Hp.
Qed.

Lemma sample_lazy_reachable : misc.mem_reachable misc.sample_lazy.
Proof.
  apply (misc.reach_read _ _ _ _ misc.sample_container true _
           [misc.EvListdir misc.sample_container]).
  reflexivity.
Qed.

Example sample_lazy_lookup :
  misc.getitems (Writer:=string) misc.mem_readf ["b.bin"; "a.bin"; "b.bin"]
    misc.sample_lazy
  = (Ok ["B"; "A"; "B"],
     misc.mkDataStore
       [("a.bin", misc.Loaded "A"); ("b.bin", misc.Loaded "B");
        ("c.bin", misc.NOT_LOADED)]
       ∅ (Some misc.sample_container),
     [misc.EvRead misc.sample_container "b.bin";
      misc.EvRead misc.sample_container "a.bin"]).
Proof. reflexivity. Qed.

Example sample_delete_set_write :
  let s1 := misc.__setitem__ "a.bin" "new" (misc.__delitem__ "a.bin" misc.sample_lazy).2 in
  misc.__iter__ s1 = ["b.bin"; "c.bin"; "a.bin"] ∧
  (misc.write misc.mem_readf misc.mem_writef misc.mem_deletef "w" false s1).2
  = [misc.EvRead misc.sample_container "b.bin"; misc.EvWrite "w" "b.bin" "B";
     misc.EvRead misc.sample_container "c.bin"; misc.EvWrite "w" "c.bin" "C";
     misc.EvWrite "w" "a.bin" "new"].
Proof. split; vm_compute; reflexivity. Qed.

Example sample_delete_write_in_place :
  (misc.write misc.mem_readf misc.mem_writef misc.mem_deletef "w" false
     (misc.__delitem__ "a.bin" misc.sample_lazy).2).2
  = [misc.EvDelete "w" "a.bin";
     misc.EvRead misc.sample_container "b.bin"; misc.EvWrite "w" "b.bin" "B";
     misc.EvRead misc.sample_container "c.bin"; misc.EvWrite "w" "c.bin" "C"].
Proof. vm_compute. reflexivity. Qed.

Example sample_delete_write_save_as :
  misc.write misc.mem_readf misc.mem_writef misc.mem_deletef "w" true
     (misc.__delitem__ "a.bin" misc.sample_lazy).2
  = (Ok tt,
     misc.mkDataStore [("b.bin", misc.Loaded "B"); ("c.bin", misc.Loaded "C")]
       ∅ None,
     [misc.EvRead misc.sample_container "b.bin"; misc.EvWrite "w" "b.bin" "B";
      misc.EvRead misc.sample_container "c.bin"; misc.EvWrite "w" "c.bin" "C"]).
Proof. vm_compute. reflexivity. Qed.

Lemma set_clears_pending_deletion_witness :
  misc.mem_reachable misc.sample_lazy ∧
  ∀ ev,
    ev ∈ (misc.write misc.mem_readf misc.mem_writef misc.mem_deletef "w" false
            (misc.__setitem__ "a.bin" "new"
               (misc.__delitem__ "a.bin" misc.sample_lazy).2)).2 →
    misc.is_delete_of "a.bin" ev = false.
Proof.
  split; [exact sample_lazy_reachable |].
  exact (proj1 (proj2 (proj2 (proj2
    (set_clears_pending_deletion misc.mem_listdir misc.mem_readf
       misc.mem_writef misc.mem_deletef misc.sample_lazy sample_lazy_reachable)))
    "a.bin" "new" "w")).
Defined.

Lemma save_as_pulls_unloaded_entries_witness :
  misc.mem_reachable misc.sample_lazy ∧
  (misc.write misc.mem_readf misc.mem_writef misc.mem_deletef "w" true
     misc.sample_lazy).1.1 = Ok tt.
Proof.
  split; [exact sample_lazy_reachable |].
  apply (proj2 (save_as_pulls_unloaded_entries misc.mem_listdir misc.mem_readf
                  misc.mem_writef misc.mem_deletef misc.sample_lazy "w"
                  sample_lazy_reachable)).
  - intros r k Hr Hk. injection Hr as <-. apply mem_readf_listed.
    unfold misc.is_unloaded in Hk.
    change (k ∈ pydict.keys (misc._data misc.sample_lazy)).
    apply dict_get_is_Some. by destruct (pydict.get k _).
  - done.
Defined.

Lemma save_as_discards_pending_deletions_witness :
  misc.mem_reachable (misc.__delitem__ "a.bin" misc.sample_lazy).2 ∧
  ∀ ev,
    ev ∈ (misc.write misc.mem_readf misc.mem_writef misc.mem_deletef "w" true
            (misc.__delitem__ "a.bin" misc.sample_lazy).2).2 →
    misc.is_delete ev = false.
Proof.
  assert (misc.mem_reachable (misc.__delitem__ "a.bin" misc.sample_lazy).2) as H.
  { apply misc.reach_delitem, sample_lazy_reachable. }
  split; [exact H |].
  exact (proj1 (save_as_discards_pending_deletions misc.mem_listdir misc.mem_readf
                  misc.mem_writef misc.mem_deletef _ "w" H)).
Defined.

Lemma lazy_lookup_agrees_with_eager_witness :
  (∀ k, k ∈ misc.mem_listdir misc.sample_container →
        is_ok (misc.mem_readf misc.sample_container k) = true) ∧
  ∃ sl se,
    misc.mem_read misc.sample_container true
      = (Ok sl, [misc.EvListdir misc.sample_container]) ∧
    misc.mem_read misc.sample_container false
      = (Ok se, misc.EvListdir misc.sample_container ::
                (misc.EvRead misc.sample_container <$>
                   misc.mem_listdir misc.sample_container)).
Proof.
  split; [intros k; apply mem_readf_listed |].
  destruct (lazy_lookup_agrees_with_eager (Writer:=string) misc.mem_listdir
              misc.mem_readf misc.sample_container
              (λ k, mem_readf_listed misc.sample_container k))
    as (sl & se & Hl & He & _).
  by exists sl, se.
Defined.

(** ** glyph.py: the [unicode] property *)

Section unicode_facts.
Context {Contour Component Anchor : Type}.
Local Abbreviation glyph := (glyph.Glyph Contour Component Anchor).
Import glyph.
Local Open Scope Z_scope.

Lemma list_remove_None v l : list_remove v l = None ↔ v ∉ l.
Proof.
  induction l as [|x l IH]; simpl.
  - split; [intros _; apply not_elem_of_nil | done].
  - rewrite not_elem_of_cons. destruct (decide (x = v)) as [->|Hne].
    + split; [done | intros [? _]; done].
    + destruct (list_remove v l) as [l'|].
      * split; [done |]. intros [_ H]. by apply IH in H.
      * split; [| done]. intros _. split; [congruence | by apply IH].
Qed.

Lemma list_remove_Some v l l' :
  list_remove v l = Some l' →
  ∃ l1 l2, l = l1 ++ v :: l2 ∧ (v ∉ l1) ∧ l' = l1 ++ l2.
Proof.
  revert l'. induction l as [|x l IH]; intros l'; simpl; [done |].
  destruct (decide (x = v)) as [->|Hne].
  - intros [= <-]. exists [], l. split_and!; [done | apply not_elem_of_nil | done].
  - destruct (list_remove v l) as [l''|]; [| done]. intros [= <-].
    destruct (IH _ eq_refl) as (l1 & l2 & -> & Hnin & ->).
    exists (x :: l1), l2. split_and!; [done | | done].
    apply not_elem_of_cons. split; [congruence | done].
Qed.

Lemma filter_other_id v (l : list Z) :
  v ∉ l → List.filter (λ u, negb (u =? v)) l = l.
Proof.
  induction l as [|x l IH]; [done |]. intros [Hne Hnin]%not_elem_of_cons. simpl.
  destruct (Z.eqb_spec x v) as [->|_]; [done |]. simpl. by rewrite IH.
Qed.

Lemma list_remove_NoDup v l l' :
  NoDup l → list_remove v l = Some l' →
  l' = List.filter (λ u, negb (u =? v)) l.
Proof.
  intros Hnd (l1 & l2 & -> & Hnin & ->)%list_remove_Some.
  apply NoDup_app in Hnd as (_ & Hdisj & [Hv _]%NoDup_cons).
  rewrite List.filter_app. simpl. rewrite Z.eqb_refl. simpl.
  by rewrite !filter_other_id.
Qed.

(** C5 (amended): the getter returns the first code point or nothing;
    setting [None] empties the list; setting a value that is already first
    changes nothing; setting another value removes its first occurrence,
    if there is one, and puts the value in front, so the value becomes the
    glyph's [unicode].  On a list without repeated code points this is the
    removal of every occurrence.  From [3; 5; 7], setting 5 gives
    [5; 3; 7] and setting [None] gives the empty list. *)
Theorem unicode_setter_moves_first_occurrence (g : glyph) :
  unicode g = head (unicodes g) ∧
  unicodes (unicode_setter None g) = [] ∧
  (∀ v,
     (head (unicodes g) = Some v → unicode_setter (Some v) g = g) ∧
     (head (unicodes g) ≠ Some v →
        ((v ∉ unicodes g) ∧
         unicodes (unicode_setter (Some v) g) = v :: unicodes g) ∨
        (∃ l1 l2, unicodes g = l1 ++ v :: l2 ∧ (v ∉ l1) ∧
                  unicodes (unicode_setter (Some v) g) = v :: l1 ++ l2)) ∧
     unicode (unicode_setter (Some v) g) = Some v ∧
     (NoDup (unicodes g) →
        unicodes (unicode_setter (Some v) g)
        = spec_unicodes_after_set v (unicodes g))) ∧
  (unicodes g = [3; 5; 7] →
     unicodes (unicode_setter (Some 5) g) = [5; 3; 7] ∧
     unicodes (unicode_setter None g) = []).
Proof.
  split_and!.
  - unfold unicode. by destruct (unicodes g).
  - done.
  - intros v. unfold unicode_setter, unicode.
    destruct (unicodes g) as [|u us] eqn:Hus; simpl.
    + split_and!; [done | | done |].
      * intros _. left. split; [apply not_elem_of_nil | done].
      * intros _. done.
    + destruct (decide (u = v)) as [->|Hne].
      * split_and!; [done | done | by rewrite Hus |].
        intros [Hv _]%NoDup_cons. rewrite Hus. unfold spec_unicodes_after_set.
        simpl. rewrite Z.eqb_refl. simpl. by rewrite filter_other_id.
      * split_and!; [congruence | | by destruct (list_remove v us) | ].
        -- intros _. destruct (list_remove v us) as [l'|] eqn:Hrm; simpl.
           ++ right. apply list_remove_Some in Hrm as (l1 & l2 & -> & Hnin & ->).
              exists (u :: l1), l2. split_and!; [done | | done].
              apply not_elem_of_cons. split; [congruence | done].
           ++ left. apply list_remove_None in Hrm. split; [| done].
              apply not_elem_of_cons. split; [congruence | done].
        -- intros Hnd. unfold spec_unicodes_after_set.
           destruct (list_remove v us) as [l'|] eqn:Hrm; simpl.
           ++ apply NoDup_cons in Hnd as [_ Hnd].
              rewrite (list_remove_NoDup _ _ _ Hnd Hrm).
              by destruct (Z.eqb_spec u v).
           ++ apply list_remove_None in Hrm.
              destruct (Z.eqb_spec u v); [done |]. simpl. by rewrite filter_other_id.
  - intros Hus. unfold unicode_setter. by rewrite Hus.
Qed.
End unicode_facts.

Lemma unicode_setter_leaves_later_duplicate :
  glyph.unicodes
    (glyph.unicode_setter (Some 5%Z)
       (glyph.set_unicodes [3; 5; 5]%Z glyph.sample_box))
  = [5; 3; 5]%Z ∧
  glyph.unicodes
    (glyph.unicode_setter (Some 5%Z)
       (glyph.set_unicodes [3; 5; 5]%Z glyph.sample_box))
  ≠ glyph.spec_unicodes_after_set 5 [3; 5; 5]%Z.
Proof. split; [reflexivity | discriminate]. Qed.

(** ** glyph.py: horizontal margins *)

Section margin_facts.
Context {Contour Component Anchor Layer : Type}.
Context (contour_move : Z * Z → Contour → Contour).
Context (component_move : Z * Z → Component → Component).
Context (anchor_move : Z * Z → Anchor → Anchor).
Context (misc_getBounds :
  glyph.Glyph Contour Component Anchor → option Layer →
  option glyph.BoundingBox).
Import glyph.
Local Open Scope Z_scope.

Local Abbreviation glyph := (Glyph Contour Component Anchor).
Local Abbreviation move := (glyph.move contour_move component_move anchor_move).
Local Abbreviation getBounds := (glyph.getBounds misc_getBounds).
Local Abbreviation getLeftMargin := (glyph.getLeftMargin misc_getBounds).
Local Abbreviation getRightMargin := (glyph.getRightMargin misc_getBounds).
Local Abbreviation setLeftMargin :=
  (glyph.setLeftMargin contour_move component_move anchor_move misc_getBounds).

(** What the margins need of the geometry: the bounding box is that of the
    outline, so it moves with the outline and ignores the advance width. *)
Hypothesis bounds_move : ∀ delta (g : glyph) layer,
  misc_getBounds (move delta g) layer
  = shift_box delta <$> misc_getBounds g layer.
Hypothesis bounds_width : ∀ w (g : glyph) layer,
  misc_getBounds (set_width w g) layer = misc_getBounds g layer.

Lemma getBounds_moved delta w (g : glyph) layer b :
  getBounds layer g = Ok (Some b) →
  getBounds layer (move delta (set_width w g)) = Ok (Some (shift_box delta b)).
Proof.
  unfold glyph.getBounds. simpl.
  destruct layer as [l|], (components g) as [|c cs]; simpl; try done.
  - intros [= H]. by rewrite bounds_move, bounds_width, H.
  - intros [= H]. by rewrite bounds_move, bounds_width, H.
  - intros [= H]. by rewrite bounds_move, bounds_width, H.
Qed.

(** [setLeftMargin] moves the outline and widens the glyph by the same
    amount: the left margin becomes the value asked for and the right
    margin stays what it was. *)
Lemma setLeftMargin_spec value (g : glyph) layer b :
  getBounds layer g = Ok (Some b) →
  let g' := (setLeftMargin value layer g).2 in
  (setLeftMargin value layer g).1 = Ok tt ∧
  getBounds layer g' = Ok (Some (shift_box (value - xMin b, 0) b)) ∧
  width g' = width g + (value - xMin b) ∧
  getLeftMargin layer g' = Ok (Some value) ∧
  getRightMargin layer g' = getRightMargin layer g.
Proof.
  intros Hb. unfold glyph.setLeftMargin, glyph.getLeftMargin, glyph.getRightMargin.
  rewrite Hb. destruct (decide (value - xMin b = 0)) as [Hz|Hnz]; simpl.
  - rewrite Hb, Hz. split_and!; [done | | lia | f_equal; f_equal; lia | done].
    destruct b. unfold shift_box. simpl. by rewrite !Z.add_0_r.
  - rewrite (getBounds_moved _ _ _ _ _ Hb). simpl.
    split_and!; [done | done | done | f_equal; f_equal; lia | f_equal; f_equal; lia].
Qed.

(** C6 (amended): on a glyph whose bounds run from [xMin] = 10 to
    [xMax] = 90 and whose width is 100, [setLeftMargin(20)] moves the
    outline by 10, so that [xMin] = 20 and [xMax] = 100, and makes the
    width 110; [getRightMargin()] then answers 110 - 100 = 10, the right
    margin the glyph had before. *)
Theorem setLeftMargin_moves_outline_and_width (g : glyph) layer b :
  getBounds layer g = Ok (Some b) →
  xMin b = 10 → xMax b = 90 → width g = 100 →
  let g' := (setLeftMargin 20 layer g).2 in
  (setLeftMargin 20 layer g).1 = Ok tt ∧
  (∃ b', getBounds layer g' = Ok (Some b') ∧ xMin b' = 20 ∧ xMax b' = 100) ∧
  width g' = 110 ∧
  getLeftMargin layer g' = Ok (Some 20) ∧
  getRightMargin layer g' = Ok (Some 10) ∧
  getRightMargin layer g = Ok (Some 10).
Proof.
  intros Hb Hmin Hmax Hw g'.
  destruct (setLeftMargin_spec 20 g layer b Hb) as (H1 & H2 & H3 & H4 & H5).
  fold g' in H2, H3, H4, H5.
  assert (getRightMargin layer g = Ok (Some 10)) as Hr.
  { unfold glyph.getRightMargin. rewrite Hb, Hw, Hmax. done. }
  split_and!; [done | | lia | done | congruence | done].
  eexists. split; [exact H2 |]. simpl. lia.
Qed.
End margin_facts.

(** *** Polygons *)

Lemma points_bounds_move delta ps :
  glyph.points_bounds (glyph.move_point delta <$> ps)
  = glyph.shift_box delta <$> glyph.points_bounds ps.
Proof.
  induction ps as [|p ps IH]; [done |].
  change (glyph.add_point (glyph.move_point delta p)
            (glyph.points_bounds (glyph.move_point delta <$> ps))
          = glyph.shift_box delta <$>
              glyph.add_point p (glyph.points_bounds ps)).
  rewrite IH. destruct (glyph.points_bounds ps) as [b|]; simpl; [| done].
  unfold glyph.shift_box. simpl.
  by rewrite !Z.add_min_distr_r, !Z.add_max_distr_r.
Qed.

Lemma poly_bounds_move delta g layer :
  glyph.poly_getBounds
    (glyph.move glyph.poly_move (λ _ (c : Empty_set), c) glyph.move_point delta g)
    layer
  = glyph.shift_box delta <$> glyph.poly_getBounds g layer.
Proof.
  unfold glyph.poly_getBounds. simpl. rewrite <- points_bounds_move. f_equal.
  induction (glyph.contours g) as [|c cs IH]; [done |].
  rewrite fmap_cons. simpl. by rewrite fmap_app, IH.
Qed.

Lemma poly_bounds_width w g layer :
  glyph.poly_getBounds (glyph.set_width w g) layer = glyph.poly_getBounds g layer.
Proof. done. Qed.

Example sample_box_bounds :
  glyph.getBounds glyph.poly_getBounds None glyph.sample_box
  = Ok (Some (glyph.mkBoundingBox 10 0 90 700)).
Proof. reflexivity. Qed.

Example sample_box_setLeftMargin :
  glyph.poly_setLeftMargin 20 None glyph.sample_box
  = (Ok tt,
     glyph.mkGlyph (Some "box") 110 0 [3; 5; 7]%Z None [(60, 700)%Z] []
       [[(20, 0); (100, 0); (100, 700); (20, 700)]%Z]).
Proof. reflexivity. Qed.

Lemma setLeftMargin_moves_outline_and_width_witness :
  glyph.getBounds glyph.poly_getBounds None glyph.sample_box
    = Ok (Some (glyph.mkBoundingBox 10 0 90 700)) ∧
  glyph.width glyph.sample_box = 100%Z ∧
  glyph.poly_getRightMargin None
    (glyph.poly_setLeftMargin 20 None glyph.sample_box).2 = Ok (Some 10%Z).
Proof.
  split; [reflexivity |]. split; [reflexivity |].
  exact (proj1 (proj2 (proj2 (proj2 (proj2
    (setLeftMargin_moves_outline_and_width
       glyph.poly_move (λ _ (c : Empty_set), c) glyph.move_point
       glyph.poly_getBounds poly_bounds_move poly_bounds_width
       glyph.sample_box None (glyph.mkBoundingBox 10 0 90 700)
       eq_refl eq_refl eq_refl eq_refl)))))).
Defined.

Lemma getRightMargin_after_setLeftMargin_is_not_20 :
  glyph.getBounds glyph.poly_getBounds None glyph.sample_box
    = Ok (Some (glyph.mkBoundingBox 10 0 90 700)) ∧
  glyph.width glyph.sample_box = 100%Z ∧
  glyph.poly_getRightMargin None
    (glyph.poly_setLeftMargin 20 None glyph.sample_box).2 = Ok (Some 10%Z) ∧
  glyph.poly_getRightMargin None
    (glyph.poly_setLeftMargin 20 None glyph.sample_box).2 ≠ Ok (Some 20%Z).
Proof. split_and!; [reflexivity | reflexivity | reflexivity | discriminate]. Qed.

(** ** deepComponent.py: [drawPoints] *)

Section drawPoints_facts.
Context {Pen : Type}.
Context (addDeepComponent :
  Pen → string → list Z → list (Z * Z) → option (option string) →
  Pen * result unit).
Import deepComponent.

Local Abbreviation drawPoints := (deepComponent.drawPoints addDeepComponent).
Local Abbreviation call self pen kw :=
  (addDeepComponent pen (baseGlyph self) (transformation self) (coord self) kw).

(** C10 (amended): [drawPoints] first calls [addDeepComponent] with the
    [identifier] keyword.  If the call returns, nothing else happens; an
    exception other than [TypeError] goes to the caller.  If the call
    raises [TypeError], the method calls again without the keyword, on
    the pen as the first call left it: when this second call returns, one
    [UserWarning] is issued and no exception reaches the caller; when it
    raises, its exception, a [TypeError] included, goes to the caller and
    no warning is issued. *)
Theorem drawPoints_retries_once self pen :
  let first := call self pen (Some (identifier self)) in
  let second := call self first.1 None in
  (is_ok first.2 = true → drawPoints self pen = (first.1, Ok tt, [])) ∧
  (∀ e, first.2 = Raise e → is_TypeError e = false →
        drawPoints self pen = (first.1, Raise e, [])) ∧
  (∀ e, first.2 = Raise e → is_TypeError e = true →
        (is_ok second.2 = true →
           drawPoints self pen
           = (second.1, Ok tt, [UserWarning discarded_identifier_message])) ∧
        (∀ e2, second.2 = Raise e2 →
           drawPoints self pen = (second.1, Raise e2, []))).
Proof.
  unfold deepComponent.drawPoints. simpl.
  destruct (call self pen (Some (identifier self))) as [pen1 [[]|e]]; simpl.
  - split_and!; [done | done | done].
  - split_and!; [done | |].
    + intros e' [= <-] ->. done.
    + intros e' [= <-] ->.
      destruct (call self pen1 None) as [pen2 [[]|e2]]; simpl.
      * split; [done | done].
      * split; [done |]. by intros e2' [= <-].
Qed.
End drawPoints_facts.

Example drawPoints_legacy_pen :
  deepComponent.drawPoints deepComponent.legacy_pen_add
    deepComponent.sample_deep []
  = ([("DC_53E3_00", None)], Ok tt,
     [deepComponent.UserWarning deepComponent.discarded_identifier_message]).
Proof. reflexivity. Qed.

Lemma drawPoints_lets_retry_TypeError_through :
  ∃ msg,
    deepComponent.drawPoints deepComponent.picky_pen_add
      deepComponent.sample_deep []
    = ([("DC_53E3_00", Some (Some "id01")); ("DC_53E3_00", None)],
       Raise (TypeError msg), []).
Proof. eexists. reflexivity. Qed.

(** ** font.py: [write] and [save] *)

Section Font_facts.
Context {Layer Info Features Groups Kerning Lib DataSet ImageSet : Type}.
Context {Structure StructureArg : Type}.
Context (DEFAULT_LAYER_NAME : string) (layer_name : Layer → string).
Context (normpath basename : string → string).
Context (UFOFileStructure : StructureArg → result Structure).
Context (writer_do :
  font.Writer → font.writer_call Info Features Groups Kerning Lib Structure →
  font.FS → result unit * font.FS).
Context (layers_write :
  font.LayerSet Layer → font.Writer → bool → font.FS →
  result unit * font.LayerSet Layer * font.FS).
Context (data_write :
  DataSet → font.Writer → bool → font.FS → result unit * DataSet * font.FS).
Context (images_write :
  ImageSet → font.Writer → bool → font.FS → result unit * ImageSet * font.FS).
Context (os_fault : font.os_call → font.FS → option exn).
Import font.

Local Abbreviation font :=
  (Font Layer Info Features Groups Kerning Lib DataSet ImageSet Structure).
Local Abbreviation write :=
  (font.write DEFAULT_LAYER_NAME layer_name writer_do layers_write data_write
     images_write).
Local Abbreviation try_body :=
  (font.try_body DEFAULT_LAYER_NAME layer_name writer_do layers_write data_write
     images_write).
Local Abbreviation save :=
  (font.save DEFAULT_LAYER_NAME layer_name normpath basename UFOFileStructure
     writer_do layers_write data_write images_write os_fault).
Local Abbreviation resolve_structure :=
  (font.resolve_structure (Layer:=Layer) (Info:=Info) (Features:=Features)
     (Groups:=Groups) (Kerning:=Kerning) (Lib:=Lib) (DataSet:=DataSet)
     (ImageSet:=ImageSet) UFOFileStructure).

(** *** The default-layer check *)

(** C7: when the default layer is not called by the reserved name and the
    reserved name is the key of a layer of the set, [write] raises
    [AssertionError] before it calls the writer, and leaves the font and
    the file system as they are.  In a layer set whose keys are the names
    of its layers, without repetition, and which holds its default layer,
    this is the case as soon as a layer other than the default one bears
    the reserved name. *)
Theorem write_rejects_reserved_layer_name (self : font) writer saveAs fs :
  (layer_name (defaultLayer (layers self)) ≠ DEFAULT_LAYER_NAME →
   DEFAULT_LAYER_NAME ∈ layerOrder (layers self) →
   write writer saveAs self fs = (Raise AssertionError, self, fs)) ∧
  (NoDup (layerOrder (layers self)) →
   (∀ k l, (k, l) ∈ _layers (layers self) → layer_name l = k) →
   (∃ k, (k, defaultLayer (layers self)) ∈ _layers (layers self)) →
   (∃ k l, (k, l) ∈ _layers (layers self) ∧ l ≠ defaultLayer (layers self) ∧
           layer_name l = DEFAULT_LAYER_NAME) →
   write writer saveAs self fs = (Raise AssertionError, self, fs)).
Proof.
  assert (layer_name (defaultLayer (layers self)) ≠ DEFAULT_LAYER_NAME →
          DEFAULT_LAYER_NAME ∈ layerOrder (layers self) →
          write writer saveAs self fs = (Raise AssertionError, self, fs)) as HA.
  { intros Hne Hin. unfold font.write, and_then, check_default_layer.
    rewrite bool_decide_eq_true_2 by done.
    by rewrite bool_decide_eq_true_2 by done. }
  split; [exact HA |].
  intros Hnd Hkeys [kd Hd] (k & l & Hl & Hne & Hname).
  pose proof (Hkeys _ _ Hl) as Hk. rewrite Hname in Hk. subst k.
  apply HA.
  - intros Heq. apply Hne.
    pose proof (Hkeys _ _ Hd) as Hkd. rewrite Heq in Hkd. subst kd.
    unfold layerOrder, pydict.keys in Hnd.
    apply list_elem_of_lookup in Hl as [i Hi].
    apply list_elem_of_lookup in Hd as [j Hj].
    assert (i = j) as ->.
    { eapply NoDup_lookup; [exact Hnd | |].
      - by rewrite list_lookup_fmap, Hi.
      - by rewrite list_lookup_fmap, Hj. }
    congruence.
  - unfold layerOrder, pydict.keys.
    apply list_elem_of_fmap. by exists (DEFAULT_LAYER_NAME, l).
Qed.

(** *** The format version *)

(** C8: with a [formatVersion] other than 3, [save] raises
    [NotImplementedError] at once: the font and the file system, temporary
    directories included, are what they were. *)
Theorem save_rejects_other_format_versions
    (self : font) path formatVersion structure overwrite validate wid fs :
  formatVersion ≠ 3%Z →
  save self path formatVersion structure overwrite validate wid fs
  = (Raise (NotImplementedError
              ("unsupported format version: " +:+ pretty formatVersion)),
     self, fs).
Proof. intros Hne. unfold font.save. by rewrite decide_True. Qed.

(** *** Saving over an existing path *)

Lemma only_in_temp_refl t fs : only_in_temp t fs fs.
Proof. by split. Qed.

Lemma only_in_temp_trans t fs1 fs2 fs3 :
  only_in_temp t fs1 fs2 → only_in_temp t fs2 fs3 → only_in_temp t fs1 fs3.
Proof.
  intros [Hd1 Ht1] [Hd2 Ht2]. split; [congruence |].
  intros t' Hne. by rewrite Ht2, Ht1.
Qed.

(** The contract of the writer and of the three sets: written through a
    writer bound to an entry of a temporary file system, they change
    nothing outside that temporary file system, whether they return or
    raise. *)
Hypothesis writer_do_confined : ∀ w c fs t name,
  writer_target w = InTemp t name → only_in_temp t fs (writer_do w c fs).2.
Hypothesis layers_write_confined : ∀ ls w saveAs fs t name,
  writer_target w = InTemp t name →
  only_in_temp t fs (layers_write ls w saveAs fs).2.
Hypothesis data_write_confined : ∀ d w saveAs fs t name,
  writer_target w = InTemp t name →
  only_in_temp t fs (data_write d w saveAs fs).2.
Hypothesis images_write_confined : ∀ im w saveAs fs t name,
  writer_target w = InTemp t name →
  only_in_temp t fs (images_write im w saveAs fs).2.

Lemma and_then_confined t (a b : font → FS → result unit * font * FS) :
  (∀ self fs, only_in_temp t fs (a self fs).2) →
  (∀ self fs, only_in_temp t fs (b self fs).2) →
  ∀ self fs, only_in_temp t fs (and_then a b self fs).2.
Proof.
  intros Ha Hb self fs. unfold and_then. specialize (Ha self fs).
  destruct (a self fs) as [[[[]|e] self1] fs1]; simpl in *; [| done].
  eapply only_in_temp_trans; [exact Ha | apply Hb].
Qed.

Lemma call_confined w c t name :
  writer_target w = InTemp t name →
  ∀ (self : font) fs, only_in_temp t fs (call writer_do w c self fs).2.
Proof.
  intros Hw self fs. unfold call.
  pose proof (writer_do_confined w (c self) fs _ _ Hw).
  by destruct (writer_do w (c self) fs).
Qed.

Lemma write_confined w saveAs (self : font) fs t name :
  writer_target w = InTemp t name →
  only_in_temp t fs (write w saveAs self fs).2.
Proof.
  intros Hw. unfold font.write.
  set (sa := match saveAs with Some b => b | None => _ end). clearbody sa.
  revert self fs.
  repeat (apply and_then_confined; [by eapply call_confined |]).
  apply and_then_confined.
  { intros self fs. unfold check_default_layer.
    destruct (_ && _); apply only_in_temp_refl. }
  repeat (apply and_then_confined; [by eapply call_confined |]).
  apply and_then_confined.
  { intros self fs. unfold write_layers.
    pose proof (layers_write_confined (layers self) w sa fs _ _ Hw).
    by destruct (layers_write _ _ _ _) as [[? ?] ?]. }
  apply and_then_confined.
  { intros self fs. unfold write_data.
    pose proof (data_write_confined (data self) w sa fs _ _ Hw).
    by destruct (data_write _ _ _ _) as [[? ?] ?]. }
  intros self fs. unfold write_images.
  pose proof (images_write_confined (images self) w sa fs _ _ Hw).
  by destruct (images_write _ _ _ _) as [[? ?] ?].
Qed.

Lemma try_body_confined w st validate saveAs (self : font) fs t name :
  writer_target w = InTemp t name →
  only_in_temp t fs (try_body w st validate saveAs self fs).2.
Proof.
  intros Hw. unfold font.try_body.
  pose proof (writer_do_confined w (WInit st validate) fs _ _ Hw) as H1.
  destruct (writer_do w (WInit st validate) fs) as [[[]|e] fs1]; simpl in *; [| done].
  pose proof (write_confined w (Some saveAs) self fs1 _ _ Hw) as H2.
  destruct (write w (Some saveAs) self fs1) as [[res self2] fs2]; simpl in *.
  pose proof (writer_do_confined w WExit fs2 _ _ Hw) as H3.
  destruct (writer_do w WExit fs2) as [[[]|e] fs3]; simpl in *.
  - destruct res as [[]|e]; simpl.
    + pose proof (writer_do_confined w SetModificationTime fs3 _ _ Hw) as H4.
      destruct (writer_do w SetModificationTime fs3) as [res4 fs4]; simpl in *.
      eauto using only_in_temp_trans.
    + eauto using only_in_temp_trans.
  - eauto using only_in_temp_trans.
Qed.

Lemma tmp_close_restores t fs fs1 :
  temps fs !! t = None →
  only_in_temp t (mkFS (disk fs) (<[t:=∅]> (temps fs))) fs1 →
  tmp_close t fs1 = fs.
Proof.
  intros Hfresh [Hd Ht]. unfold tmp_close. destruct fs as [d ts]. simpl in *.
  f_equal; [done |]. apply map_eq. intros t'.
  destruct (decide (t' = t)) as [->|Hne].
  - by rewrite lookup_delete_eq.
  - by rewrite lookup_delete_ne, Ht, lookup_insert_ne.
Qed.

Lemma shutil_move_temps t name dst fs :
  delete t (temps (shutil_move os_fault t name dst fs).2) = delete t (temps fs).
Proof.
  unfold shutil_move. destruct (os_fault (Move t name dst) fs); [done |].
  destruct (temps fs !! t ≫= _); [| done]. simpl.
  apply map_eq. intros t'. destruct (decide (t' = t)) as [->|Hne].
  - by rewrite !lookup_delete_eq.
  - by rewrite !lookup_delete_ne, lookup_alter_ne.
Qed.

Lemma replace_destination_temps t name dst fs :
  delete t (temps (replace_destination os_fault t name dst fs).2)
  = delete t (temps fs).
Proof.
  unfold replace_destination, os_delete.
  destruct (isdir dst fs); [| destruct (isfile dst fs)].
  - destruct (os_fault (Rmtree dst) fs); [done |]. by rewrite shutil_move_temps.
  - destruct (os_fault (Remove dst) fs); [done |]. by rewrite shutil_move_temps.
  - by rewrite shutil_move_temps.
Qed.

Lemma and_then_path (a b : font → FS → result unit * font * FS) :
  (∀ self fs, _path (a self fs).1.2 = _path self) →
  (∀ self fs, _path (b self fs).1.2 = _path self) →
  ∀ self fs, _path (and_then a b self fs).1.2 = _path self.
Proof.
  intros Ha Hb self fs. unfold and_then. specialize (Ha self fs).
  destruct (a self fs) as [[[[]|e] self1] fs1]; simpl in *; [| done].
  by rewrite Hb.
Qed.

Lemma write_path w saveAs (self : font) fs :
  _path (write w saveAs self fs).1.2 = _path self.
Proof.
  unfold font.write.
  set (sa := match saveAs with Some b => b | None => _ end). clearbody sa.
  revert self fs.
  assert (∀ c (self : font) fs, _path (call writer_do w c self fs).1.2 = _path self)
    as Hcall.
  { intros c self fs. unfold call. by destruct (writer_do w (c self) fs). }
  apply and_then_path.
  { intros self fs. unfold check_default_layer. by destruct (_ && _). }
  repeat (apply and_then_path; [by apply Hcall |]).
  apply and_then_path.
  { intros self fs. unfold write_layers.
    by destruct (layers_write _ _ _ _) as [[? ?] ?]. }
  apply and_then_path.
  { intros self fs. unfold write_data.
    by destruct (data_write _ _ _ _) as [[? ?] ?]. }
  intros self fs. unfold write_images.
  by destruct (images_write _ _ _ _) as [[? ?] ?].
Qed.

Lemma try_body_path w st validate saveAs (self : font) fs :
  _path (try_body w st validate saveAs self fs).1.2 = _path self.
Proof.
  unfold font.try_body.
  destruct (writer_do w (WInit st validate) fs) as [[[]|e] fs1]; [| done].
  pose proof (write_path w (Some saveAs) self fs1) as H.
  destruct (write w (Some saveAs) self fs1) as [[res self2] fs2]; simpl in *.
  destruct (writer_do w WExit fs2) as [[[]|e] fs3]; [| done].
  destruct res as [[]|e]; [| done].
  by destruct (writer_do w SetModificationTime fs3).
Qed.

(** C1: [save(path, overwrite=True)] on a path that exists creates a new
    temporary file system and binds the writer to an entry of it named
    after the destination; given that a writer bound to such an entry
    changes nothing outside that temporary file system, the destination
    and all the rest of the file system are untouched while the font is
    written.  If the writing raises, [save] raises the same exception and
    the file system is again exactly what it was before the call: the
    entry at the path is unchanged and the temporary file system is gone.
    If the writing returns, the staged entry replaces the one at the path
    and becomes the font's path.  On every exit the temporary file systems
    that exist are those that existed before the call. *)
Theorem save_overwrite_is_staged
    (self : font) pa np n structure st validate wid fs :
  normalize normpath (Some pa) = Some (PStr np) →
  disk fs !! np = Some n →
  resolve_structure self structure = Ok st →
  let t := fresh (dom (temps fs)) in
  let writer := mkWriter wid (InTemp t (basename np)) in
  let body :=
    try_body writer st validate true self
      (mkFS (disk fs) (<[t:=∅]> (temps fs))) in
  let out := save self (Some pa) 3 structure true validate wid fs in
  temps fs !! t = None ∧
  disk body.2 = disk fs ∧
  (∀ t', t' ≠ t → temps body.2 !! t' = temps fs !! t') ∧
  temps out.2 = temps fs ∧
  (∀ e, body.1.1 = Raise e →
        out = (Raise e, body.1.2, fs) ∧ _path body.1.2 = _path self) ∧
  (body.1.1 = Ok tt →
   ∀ staged,
     temps body.2 !! t ≫= (λ d, d !! basename np) = Some staged →
     (∀ c fs', os_fault c fs' = None) →
     out = (Ok tt, set_path (Some (PStr np)) body.1.2,
            mkFS (<[np := staged]> (disk fs)) (temps fs))).
Proof.
  intros Hnorm Hex Hst t writer body out.
  assert (temps fs !! t = None) as Hfresh.
  { apply not_elem_of_dom. apply is_fresh. }
  pose proof (try_body_confined writer st validate true self
                (mkFS (disk fs) (<[t:=∅]> (temps fs))) t (basename np) eq_refl)
    as Hconf.
  fold body in Hconf.
  pose proof (try_body_path writer st validate true self
                (mkFS (disk fs) (<[t:=∅]> (temps fs)))) as Hpath.
  fold body in Hpath.
  pose proof (tmp_close_restores t fs body.2 Hfresh Hconf) as Hclose.
  assert (out =
    let '(res, self1, fs1) := body in
    let '(res2, fs2) :=
      match res with
      | Ok _ => replace_destination os_fault t (basename np) np fs1
      | Raise _ => (res, fs1)
      end in
    match res2 with
    | Raise e => (Raise e, self1, tmp_close t fs2)
    | Ok _ => (Ok tt, set_path (Some (PStr np)) self1, tmp_close t fs2)
    end) as Hout.
  { unfold out, font.save. rewrite decide_False by (intros H; by apply H).
    fold resolve_structure. rewrite Hst, Hnorm. unfold exists_.
    rewrite bool_decide_eq_true_2 by (by rewrite Hex). unfold TempFS.
    simpl. subst body writer t.
    destruct (try_body _ _ _ _ _ _) as [[[[]|e] self1] fs1]; simpl; [| done].
    by destruct (replace_destination _ _ _ _ _) as [[[]|e] fs2]. }
  destruct Hconf as [Hdisk Htemps]. simpl in Hdisk.
  split_and!.
  - done.
  - done.
  - intros t' Hne. rewrite Htemps by done. simpl. by rewrite lookup_insert_ne.
  - rewrite Hout. destruct body as [[res self1] fs1]; simpl in *.
    assert (delete t (temps fs1) = temps fs) as Hdel.
    { by rewrite <- Hclose. }
    destruct res as [[]|e].
    + pose proof (replace_destination_temps t (basename np) np fs1) as Hrep.
      destruct (replace_destination os_fault t (basename np) np fs1) as [[[]|e] fs2];
        simpl in *; congruence.
    + done.
  - intros e He. split; [| done]. rewrite Hout.
    destruct body as [[res self1] fs1]; simpl in *. subst res. by rewrite Hclose.
  - intros Hok staged Hstaged Hnofault. rewrite Hout.
    destruct body as [[res self1] fs1]; simpl in *. subst res.
    assert (delete t (temps fs1) = temps fs) as Hdel.
    { by rewrite <- Hclose. }
    assert (delete t (alter (delete (basename np)) t (temps fs1)) = temps fs)
      as Halter.
    { rewrite <- Hdel. apply map_eq. intros t'.
      destruct (decide (t' = t)) as [->|Hne].
      - by rewrite !lookup_delete_eq.
      - by rewrite !lookup_delete_ne, lookup_alter_ne. }
    unfold replace_destination, os_delete, shutil_move, isdir, isfile.
    rewrite Hdisk, Hex.
    destruct n as [content|entries]; rewrite !Hnofault; simpl;
      rewrite Hstaged; unfold tmp_close; simpl;
      by rewrite insert_delete_eq, Halter.
Qed.
End Font_facts.

Example clashing_font_write :
  font.sim_write (font.mkWriter 0 (font.OnDisk "new.ufo")) (Some true)
    font.clashing_font font.sample_disk
  = (Raise AssertionError, font.clashing_font, font.sample_disk).
Proof. reflexivity. Qed.

Lemma save_rejects_other_format_versions_witness :
  (2 ≠ 3)%Z ∧
  (font.sim_save (font.sample_font "kerning") (Some (font.PathStr "new.ufo")) 2
     None true true 0 font.sample_disk).2
  = font.sample_disk.
Proof.
  split; [done |].
  unfold font.sim_save.
  rewrite (save_rejects_other_format_versions "public.default" (λ name, name)
             (λ p, p) font.sim_basename font.sim_UFOFileStructure
             font.sim_writer_do font.sim_layers_write font.sim_data_write
             font.sim_images_write (λ _ _, None)
             (font.sample_font "kerning") (Some (font.PathStr "new.ufo")) 2
             None true true 0 font.sample_disk); [done | done].
Defined.

(** *** The writer that writes keeps the contract *)

Lemma put_entry_confined t n name content fs :
  font.only_in_temp t fs (font.put_entry (font.InTemp t n) name content fs).
Proof.
  split; [done |]. intros t' Hne. simpl. by rewrite lookup_alter_ne.
Qed.

Lemma sim_writer_do_confined w c fs t name :
  font.writer_target w = font.InTemp t name →
  font.only_in_temp t fs (font.sim_writer_do w c fs).2.
Proof.
  intros Hw. unfold font.sim_writer_do. rewrite Hw.
  destruct c; simpl; try apply put_entry_confined; try apply only_in_temp_refl.
  destruct (decide _); simpl; [apply only_in_temp_refl | apply put_entry_confined].
Qed.

Lemma sim_layers_write_confined ls w saveAs fs t name :
  font.writer_target w = font.InTemp t name →
  font.only_in_temp t fs (font.sim_layers_write ls w saveAs fs).2.
Proof. intros Hw. unfold font.sim_layers_write. rewrite Hw. apply put_entry_confined. Qed.

Lemma sim_data_write_confined d w saveAs fs t name :
  font.writer_target w = font.InTemp t name →
  font.only_in_temp t fs (font.sim_data_write d w saveAs fs).2.
Proof. intros Hw. unfold font.sim_data_write. rewrite Hw. apply put_entry_confined. Qed.

Lemma sim_images_write_confined im w saveAs fs t name :
  font.writer_target w = font.InTemp t name →
  font.only_in_temp t fs (font.sim_images_write im w saveAs fs).2.
Proof. intros Hw. unfold font.sim_images_write. rewrite Hw. apply put_entry_confined. Qed.

Example sim_save_new_path :
  font.sim_save (font.sample_font "kerning") (Some (font.PathStr "new.ufo")) 3
    None false true 0 font.sample_disk
  = (Ok tt,
     font.set_path (Some (font.PStr "new.ufo")) (font.sample_font "kerning"),
     font.mkFS
       (<["new.ufo" :=
            font.Dir [("metainfo.plist", "3"); ("features.fea", "feature liga;");
                      ("groups.plist", "groups"); ("fontinfo.plist", "info");
                      ("kerning.plist", "kerning"); ("lib.plist", "lib");
                      ("layercontents.plist", "public.default");
                      ("data", "data"); ("images", "images")]]>
          (font.disk font.sample_disk))
       ∅).
Proof. vm_compute. reflexivity. Qed.

Example sim_save_existing_path_without_overwrite :
  ∃ msg,
    font.sim_save (font.sample_font "kerning") (Some (font.PathStr "old.ufo")) 3
      None false true 0 font.sample_disk
    = (Raise (OSError font.EEXIST msg), font.sample_font "kerning",
       font.sample_disk).
Proof. eexists. vm_compute. reflexivity. Qed.

Example sim_save_overwrite :
  font.sim_save (font.sample_font "kerning") (Some (font.PathStr "old.ufo")) 3
    None true true 0 font.sample_disk
  = (Ok tt,
     font.set_path (Some (font.PStr "old.ufo")) (font.sample_font "kerning"),
     font.mkFS
       {[ "old.ufo" :=
            font.Dir [("metainfo.plist", "3"); ("features.fea", "feature liga;");
                      ("groups.plist", "groups"); ("fontinfo.plist", "info");
                      ("kerning.plist", "kerning"); ("lib.plist", "lib");
                      ("layercontents.plist", "public.default");
                      ("data", "data"); ("images", "images")] ]}
       ∅).
Proof. vm_compute. reflexivity. Qed.

(** What the failing write leaves in the staging directory before the
    directory is removed. *)
Example sim_failed_write_is_partial :
  font.try_body (Layer:=string) "public.default" (λ name, name)
    font.sim_writer_do font.sim_layers_write font.sim_data_write
    font.sim_images_write (font.mkWriter 0 (font.InTemp 0 "old.ufo")) None true
    true (font.sample_font "unwritable")
    (font.mkFS (font.disk font.sample_disk) {[ 0 := ∅ ]})
  = (Raise (OSError 28 "No space left on device"), font.sample_font "unwritable",
     font.mkFS (font.disk font.sample_disk)
       {[ 0 := {[ "old.ufo" :=
                    font.Dir [("metainfo.plist", "3"); ("features.fea", "feature liga;");
                              ("groups.plist", "groups");
                              ("fontinfo.plist", "info")] ]} ]}).
Proof. vm_compute. reflexivity. Qed.

Lemma save_overwrite_is_staged_witness :
  font.disk font.sample_disk !! "old.ufo"
    = Some (font.Dir [("metainfo.plist", "3"); ("lib.plist", "old lib")]) ∧
  font.sim_save (font.sample_font "unwritable") (Some (font.PathStr "old.ufo")) 3
    None true true 0 font.sample_disk
  = (Raise (OSError 28 "No space left on device"),
     font.sample_font "unwritable", font.sample_disk).
Proof.
  split; [vm_compute; reflexivity |].
  pose proof (save_overwrite_is_staged "public.default" (λ name, name) (λ p, p)
                font.sim_basename font.sim_UFOFileStructure font.sim_writer_do
                font.sim_layers_write font.sim_data_write font.sim_images_write
                (λ _ _, None)
                sim_writer_do_confined sim_layers_write_confined
                sim_data_write_confined sim_images_write_confined
                (font.sample_font "unwritable") (font.PathStr "old.ufo") "old.ufo"
                (font.Dir [("metainfo.plist", "3"); ("lib.plist", "old lib")])
                None None true 0 font.sample_disk
                eq_refl ltac:(vm_compute; reflexivity) eq_refl)
    as (_ & _ & _ & _ & Hfail & _).
  destruct (Hfail (OSError 28 "No space left on device")) as [Hout _].
  - vm_compute. reflexivity.
  - unfold font.sim_save. rewrite Hout. vm_compute. reflexivity.
Defined.

Lemma write_rejects_reserved_layer_name_witness :
  "foreground" ≠ "public.default" ∧
  "public.default" ∈ font.layerOrder (font.layers font.clashing_font) ∧
  font.sim_write (font.mkWriter 0 (font.OnDisk "new.ufo")) None
    font.clashing_font font.sample_disk
  = (Raise AssertionError, font.clashing_font, font.sample_disk).
Proof.
  assert ("foreground" ≠ "public.default") as Hne by done.
  assert ("public.default" ∈ font.layerOrder (font.layers font.clashing_font))
    as Hin by (right; left).
  split_and!; [done | done |].
  exact (proj1 (write_rejects_reserved_layer_name "public.default" (λ name, name)
                  font.sim_writer_do font.sim_layers_write font.sim_data_write
                  font.sim_images_write font.clashing_font
                  (font.mkWriter 0 (font.OnDisk "new.ufo")) None font.sample_disk)
           Hne Hin).
Defined.

Lemma drawPoints_retries_once_witness :
  deepComponent.drawPoints deepComponent.legacy_pen_add
    deepComponent.sample_deep []
  = ([("DC_53E3_00", None)], Ok tt,
     [deepComponent.UserWarning deepComponent.discarded_identifier_message]).
Proof.
  exact (proj1 (proj2 (proj2
           (drawPoints_retries_once deepComponent.legacy_pen_add
              deepComponent.sample_deep []))
           (TypeError "addDeepComponent() got an unexpected keyword argument 'identifier'")
           eq_refl eq_refl) eq_refl).
Defined.

(** * Part III: further properties of the code *)

(** ** misc.py: the mapping interface of [DataStore] *)

Section dict_more_facts.
Context {V : Type}.
Implicit Types (d : list (string * V)) (k : string) (v : V).
Import pydict.

Lemma dict_keys_del k d :
  NoDup (keys d) → keys (del k d) = List.filter (λ k', negb (String.eqb k' k)) (keys d).
Proof.
  unfold keys. induction d as [|[k0 v0] d IH]; [done |]. simpl.
  intros [Hk0 Hnd]%NoDup_cons.
  destruct (decide (k0 = k)) as [->|Hne].
  - rewrite String.eqb_refl. simpl. clear IH Hnd.
    induction d as [|[k1 v1] d IH]; [done |]. simpl.
    apply not_elem_of_cons in Hk0 as [Hne Hk0].
    destruct (String.eqb_spec k1 k) as [->|_]; [done |]. simpl. f_equal. by apply IH.
  - destruct (String.eqb_spec k0 k) as [->|_]; [done |]. simpl. f_equal. by apply IH.
Qed.

Lemma dict_length_del k d :
  k ∈ keys d → length (del k d) + 1 = length d.
Proof.
  unfold keys. induction d as [|[k0 v0] d IH]; simpl.
  - intros H. by apply elem_of_nil in H.
  - intros H. destruct (decide (k0 = k)) as [->|Hne]; simpl; [lia |].
    apply elem_of_cons in H as [->|H]; [done |]. specialize (IH H). lia.
Qed.
End dict_more_facts.

Section DataStore_more_facts.
Context {Reader Writer Payload : Type}.
Context (listdir : Reader → list string).
Context (readf : Reader → string → result Payload).
Context (writef : Writer → string → Payload → result unit).
Context (deletef : Writer → string → result unit).
Import misc.

Local Abbreviation store := (misc.DataStore Reader Payload).
Local Abbreviation trace := (list (misc.event Reader Writer Payload)).
Local Abbreviation __getitem__ := (misc.__getitem__ (Writer:=Writer) readf).
Local Abbreviation write_loop := (misc.write_loop readf writef).
Local Abbreviation delete_loop :=
  (misc.delete_loop (Reader:=Reader) (Payload:=Payload) deletef).
Local Abbreviation write := (misc.write readf writef deletef).
Local Abbreviation read := (misc.read (Writer:=Writer) listdir readf).
Local Abbreviation read_loop := (misc.read_loop (Writer:=Writer) readf).
Local Abbreviation reachable := (misc.reachable listdir readf writef deletef).
Local Abbreviation resolve := (misc.resolve readf).

Implicit Types (s self : store) (k fileName : string) (evs : trace).

(** X1: after [self[k] = v], looking [k] up returns [v] without any call
    to the reader and without changing the store; the other entries are
    what they were; a name that was present keeps its place in the
    iteration order and a new name goes to the end. *)
Theorem setitem_then_getitem k (v : Payload) s :
  __getitem__ k (__setitem__ k v s) = (Ok v, __setitem__ k v s, []) ∧
  (∀ k', k' ≠ k →
     pydict.get k' (_data (__setitem__ k v s)) = pydict.get k' (_data s)) ∧
  fileNames (__setitem__ k v s)
  = (if bool_decide (k ∈ fileNames s) then fileNames s else fileNames s ++ [k]) ∧
  reader (__setitem__ k v s) = reader s.
Proof.
  split_and!.
  - apply getitem_loaded. simpl. apply dict_get_set_eq.
  - intros k' Hne. simpl. by apply dict_get_set_ne.
  - unfold fileNames. simpl. case_bool_decide.
    + by apply dict_keys_set_present.
    + by apply dict_keys_set_absent.
  - done.
Qed.

(** X2: [del self[k]] on a name that is not in the store raises
    [KeyError] and changes nothing, the pending deletions included; on a
    name that is there it returns, the store is one entry shorter, the
    other names keep their order and their entries, and looking [k] up
    afterwards raises [KeyError]. *)
Theorem delitem_missing_and_present k s :
  reachable s →
  (k ∉ fileNames s → __delitem__ k s = (Raise (KeyError k), s)) ∧
  (k ∈ fileNames s →
     (__delitem__ k s).1 = Ok tt ∧
     __len__ (__delitem__ k s).2 + 1 = __len__ s ∧
     fileNames (__delitem__ k s).2
     = List.filter (λ k', negb (String.eqb k' k)) (fileNames s) ∧
     (∀ k', k' ≠ k →
        pydict.get k' (_data (__delitem__ k s).2) = pydict.get k' (_data s)) ∧
     __getitem__ k (__delitem__ k s).2
     = (Raise (KeyError k), (__delitem__ k s).2, [])).
Proof.
  intros Hreach. destruct (reachable_wf _ _ _ _ _ Hreach) as [Hnd _ _]. split.
  - intros Hnin. apply dict_get_None in Hnin. unfold misc.__delitem__. by rewrite Hnin.
  - intros Hin. pose proof Hin as Hin'.
    apply dict_get_is_Some in Hin as [sl Hsl].
    unfold misc.__delitem__, fileNames, __len__. rewrite Hsl. simpl. split_and!.
    + done.
    + by apply dict_length_del.
    + by apply dict_keys_del.
    + intros k' Hne. by apply dict_get_del_ne.
    + unfold misc.__getitem__. simpl. by rewrite dict_get_del_eq.
Qed.

Lemma delete_loop_ok w names evs :
  delete_loop w names = (Ok tt, evs) → evs = EvDelete w <$> names.
Proof.
  revert evs. induction names as [|k names IH]; intros evs; simpl.
  - by intros [= <-].
  - destruct (deletef w k); [| done].
    destruct (delete_loop w names) as [res evs']. intros [= -> <-].
    by rewrite (IH _ eq_refl).
Qed.

(** X3: an in-place [write] that completes has first called [deletef]
    once for every name scheduled for deletion and has made no other call
    before, and no [deletef] call after.  A [write] that raises, in place
    or not, keeps the pending deletions, the reader and the names of the
    store, so that it can be tried again. *)
Theorem in_place_write_deletes_first s w :
  (∀ s' evs, write w false s = (Ok tt, s', evs) →
     ∃ rest,
       evs = (EvDelete w <$> elements (_scheduledForDeletion s)) ++ rest ∧
       ∀ ev, ev ∈ rest → is_delete ev = false) ∧
  (∀ saveAs e, (write w saveAs s).1.1 = Raise e →
     _scheduledForDeletion (write w saveAs s).1.2 = _scheduledForDeletion s ∧
     reader (write w saveAs s).1.2 = reader s ∧
     fileNames (write w saveAs s).1.2 = fileNames s).
Proof.
  split.
  - intros s' evs E.
    apply write_inv in E as (res1 & evs1 & E1 & [(e & _ & ? & _)|H]); [done |].
    destruct H as (res2 & s2 & evs2 & -> & E2 & -> & _).
    exists evs2. split.
    + by rewrite (delete_loop_ok _ _ _ E1).
    + pose proof (write_loop_frame readf writef w (__iter__ s) s) as Hfr.
      rewrite E2 in Hfr. by destruct Hfr as (_ & _ & _ & _ & _ & _ & Hno).
  - intros saveAs e. destruct (write w saveAs s) as [[res s'] evs] eqn:E. simpl.
    intros ->.
    apply write_inv in E as (res1 & evs1 & E1 & [(e' & _ & _ & -> & _)|H]); [done |].
    destruct H as (res2 & s2 & evs2 & _ & E2 & _ & [(e' & _ & _ & ->)|(_ & ? & _)]);
      [| done].
    pose proof (write_loop_frame readf writef w (__iter__ s) s) as Hfr.
    rewrite E2 in Hfr. by destruct Hfr as (? & ? & ? & _).
Qed.

Lemma write_loop_loaded_events w names s ev :
  (∀ k, k ∈ names → is_unloaded s k = false) →
  ev ∈ (write_loop w names s).2 → is_read ev = false.
Proof.
  revert s. induction names as [|k names IH]; intros s Hall; simpl.
  - intros H. by apply elem_of_nil in H.
  - destruct (__getitem__ k s) as [[res s1] evs1] eqn:E.
    assert (s1 = s ∧ evs1 = []) as [-> ->].
    { apply getitem_inv in E as [(-> & -> & _)|(r & Hk & _)]; [done |].
      specialize (Hall k ltac:(left)). unfold is_unloaded in Hall.
      by rewrite Hk in Hall. }
    destruct res as [p|e]; simpl; [| intros H; by apply elem_of_nil in H].
    destruct (writef w k p); simpl.
    + specialize (IH s). destruct (write_loop w names s) as [[res2 s2] evs2].
      simpl in *. intros [->|H]%elem_of_cons; [done |].
      apply IH; [| done]. intros k' Hk'. apply Hall. by right.
    + by intros ->%list_elem_of_singleton.
Qed.

Lemma Forall2_written_unique (P Q : string → Payload → Prop)
    (names : list string) (l1 l2 : list (string * Payload)) :
  (∀ k p q, k ∈ names → P k p → Q k q → p = q) →
  Forall2 (λ k kp, kp.1 = k ∧ P k kp.2) names l1 →
  Forall2 (λ k kp, kp.1 = k ∧ Q k kp.2) names l2 →
  l1 = l2.
Proof.
  intros Hpq H1. revert l2.
  induction H1 as [|k [k1 p1] names l1 [Hk1 Hp1] _ IH]; intros l2 H2.
  - by apply Forall2_nil_inv_l in H2.
  - apply Forall2_cons_inv_l in H2 as ([k2 p2] & l2' & [Hk2 Hp2] & H2 & ->).
    simpl in *. subst k1 k2. f_equal.
    + f_equal. eapply Hpq; [left | done | done].
    + apply IH; [| done]. intros k' p q Hk'. apply Hpq. by right.
Qed.

(** X4: a [write] that completes, in place or not, leaves every entry of
    the store loaded.  A second [write] therefore reads nothing and
    deletes nothing, and when it completes it has handed to [writef] the
    same names with the same payloads, in the same order, as the first. *)
Theorem completed_write_loads_every_entry s w saveAs s' evs :
  write w saveAs s = (Ok tt, s', evs) →
  fileNames s' = fileNames s ∧
  (∀ k, k ∈ fileNames s' → is_unloaded s' k = false) ∧
  ∀ w2 saveAs2,
    (∀ ev, ev ∈ (write w2 saveAs2 s').2 →
           is_read ev = false ∧ is_delete ev = false) ∧
    (∀ s'' evs2, write w2 saveAs2 s' = (Ok tt, s'', evs2) →
                 written evs2 = written evs).
Proof.
  intros E. pose proof (write_written _ _ _ _ _ _ _ _ E) as (Hall & Hkeys & Hld).
  assert (_scheduledForDeletion s' = ∅) as Hempty.
  { apply write_inv in E as (res1 & evs1 & _ & [(e & _ & ? & _)|H]); [done |].
    by destruct H as (? & ? & ? & _ & _ & _ & [(e & _ & ? & _)|(_ & _ & ->)]). }
  assert (∀ k, k ∈ fileNames s' → is_unloaded s' k = false) as Hloaded.
  { intros k Hk. unfold fileNames in Hk. rewrite Hkeys in Hk.
    destruct (Hld k Hk) as (p & _ & Hp). unfold is_unloaded. by rewrite Hp. }
  split_and!; [done | done |]. intros w2 saveAs2. split.
  - intros ev Hev. split.
    + destruct (write w2 saveAs2 s') as [[res2 s2] evs2] eqn:E2. simpl in Hev.
      apply write_inv in E2 as (res1 & evs1 & E1 & H).
      assert (evs1 = []) as ->.
      { destruct saveAs2; [by simplify_eq |].
        rewrite Hempty, elements_empty in E1. simpl in E1. by simplify_eq. }
      destruct H as [(e & _ & _ & _ & ->)|(res3 & s3 & evs3 & _ & E3 & -> & _)].
      * by apply elem_of_nil in Hev.
      * simpl in Hev.
        pose proof (write_loop_loaded_events w2 (__iter__ s') s' ev Hloaded) as Hl.
        rewrite E3 in Hl. by apply Hl.
    + destruct (is_delete ev) eqn:Hd; [| done].
      destruct (write_deletes _ _ _ _ _ _ _ Hev Hd) as (_ & k & Hk & _).
      rewrite Hempty in Hk. by apply elem_of_empty in Hk.
  - intros s'' evs2 E2.
    pose proof (write_written _ _ _ _ _ _ _ _ E2) as (Hall2 & _ & _).
    unfold __iter__ in Hall2. rewrite Hkeys in Hall2.
    eapply (Forall2_written_unique
              (λ k p, resolve s' k = Some p) (λ k p, resolve s k = Some p));
      [| exact Hall2 | exact Hall].
    intros k p q Hk Hp Hq. destruct (Hld k Hk) as (p' & Hp' & Hget).
    unfold misc.resolve in Hp. rewrite Hget in Hp. congruence.
Qed.

Lemma read_loop_lazy_ok r names (d : list (string * slot Payload)) :
  ∃ d', read_loop r true names d = (Ok d', []).
Proof.
  revert d. induction names as [|k names IH]; intros d; simpl; [by eexists |].
  apply IH.
Qed.

Lemma read_loop_keys_fresh r lazy names (d d' : list (string * slot Payload)) evs :
  NoDup names → (∀ k, k ∈ names → k ∉ pydict.keys d) →
  read_loop r lazy names d = (Ok d', evs) →
  pydict.keys d' = pydict.keys d ++ names.
Proof.
  revert d evs. induction names as [|k names IH]; intros d evs Hnd Hfresh; simpl.
  - intros [= <- <-]. by rewrite app_nil_r.
  - apply NoDup_cons in Hnd as [Hk Hnd].
    assert (∀ (v : slot Payload) k', k' ∈ names → k' ∉ pydict.keys (pydict.set k v d))
      as Hfresh'.
    { intros v k' Hk' [->|Hin]%dict_elem_of_keys_set; [done |].
      by apply (Hfresh k'); [right |]. }
    assert (∀ v : slot Payload,
              pydict.keys (pydict.set k v d) ++ names = pydict.keys d ++ k :: names)
      as Hkeys.
    { intros v. rewrite dict_keys_set_absent by (apply Hfresh; left).
      by rewrite <- app_assoc. }
    destruct lazy.
    + intros E. rewrite (IH _ _ Hnd (Hfresh' _) E). apply Hkeys.
    + destruct (readf r k) as [p|e]; [| done].
      destruct (read_loop r false names (pydict.set k (Loaded p) d))
        as [res evs'] eqn:E.
      intros [= -> <-]. rewrite (IH _ _ Hnd (Hfresh' _) E). apply Hkeys.
Qed.


Lemma read_loop_fails_fast r l1 k l2 e (d : list (string * slot Payload)) :
  (∀ k', k' ∈ l1 → is_ok (readf r k') = true) →
  readf r k = Raise e →
  read_loop r false (l1 ++ k :: l2) d = (Raise e, (EvRead r <$> l1) ++ [EvRead r k]).
Proof.
  intros Hok Hk. revert d. induction l1 as [|k1 l1 IH]; intros d; simpl.
  - by rewrite Hk.
  - pose proof (Hok k1 ltac:(left)) as Hk1.
    destruct (readf r k1) as [p|]; [| done].
    rewrite IH; [done |]. intros k' Hk'. apply Hok. by right.
Qed.

(** X6: [read(reader, lazy=False)] stops at the first listed name that
    the reader cannot read: it raises the reader's exception, returns no
    store, and the names listed after it are not read. *)
Theorem eager_read_fails_fast r l1 k l2 e :
  listdir r = l1 ++ k :: l2 →
  (∀ k', k' ∈ l1 → is_ok (readf r k') = true) →
  readf r k = Raise e →
  read r false = (Raise e, EvListdir r :: (EvRead r <$> l1) ++ [EvRead r k]).
Proof.
  intros Hl Hok Hk. unfold misc.read. rewrite Hl.
  by rewrite (read_loop_fails_fast r l1 k l2 e [] Hok Hk).
Qed.

(** X7: in a store built through its interface, looking up a name that
    the store lists fails only if the reader fails: it returns the payload
    the entry stands for, or raises what [readf] raised, with the store
    unchanged and the entry still unloaded, so that the next look-up asks
    the reader again.  Looking up a name that the store does not list
    raises [KeyError], calls no adapter and changes nothing. *)
Theorem lookup_fails_only_with_the_reader s k :
  reachable s →
  (k ∈ fileNames s →
     (∃ p, (__getitem__ k s).1.1 = Ok p ∧ resolve s k = Some p ∧
           fileNames (__getitem__ k s).1.2 = fileNames s) ∨
     (∃ r e, reader s = Some r ∧ is_unloaded s k = true ∧ readf r k = Raise e ∧
             __getitem__ k s = (Raise e, s, [EvRead r k]))) ∧
  (k ∉ fileNames s → __getitem__ k s = (Raise (KeyError k), s, [])).
Proof.
  intros Hreach. destruct (reachable_wf _ _ _ _ _ Hreach) as [_ _ Hrd]. split.
  - intros Hin. apply dict_get_is_Some in Hin as [sl Hsl].
    destruct (__getitem__ k s) as [[res s'] evs] eqn:E. simpl.
    pose proof (getitem_frame _ _ _ _ _ _ E) as (_ & _ & Hkeys & _).
    pose proof E as E'.
    apply getitem_inv in E as [(-> & -> & H)|(r & Hk & Hr & -> & H)].
    + destruct H as [[H ?]|[(p & H & ->)|(H & H' & ?)]].
      * congruence.
      * left. exists p. split_and!; [done | | done].
        unfold misc.resolve. by rewrite H.
      * destruct (Hrd k H) as [r Hr]. congruence.
    + destruct H as [(e & Hrd' & -> & ->)|(p & Hp & -> & ->)].
      * right. exists r, e. split_and!; try done.
        unfold is_unloaded. by rewrite Hk.
      * left. exists p. split_and!; [done | | done].
        by apply (getitem_ok_resolve _ _ _ _ _ _ E').
  - intros Hnin. apply dict_get_None in Hnin. unfold misc.__getitem__. by rewrite Hnin.
Qed.
End DataStore_more_facts.

Lemma delitem_missing_and_present_witness :
  misc.mem_reachable misc.sample_lazy ∧
  misc.fileNames (misc.__delitem__ "b.bin" misc.sample_lazy).2 = ["a.bin"; "c.bin"].
Proof.
  split; [exact sample_lazy_reachable |].
  rewrite (proj1 (proj2 (proj2
    (proj2 (delitem_missing_and_present misc.mem_listdir misc.mem_readf
              misc.mem_writef misc.mem_deletef "b.bin" misc.sample_lazy
              sample_lazy_reachable)
       ltac:(right; left))))).
  reflexivity.
Defined.

Lemma completed_write_loads_every_entry_witness :
  (misc.write misc.mem_readf misc.mem_writef misc.mem_deletef "w" false
     misc.sample_lazy).1.1 = Ok tt ∧
  misc.fileNames
    (misc.write misc.mem_readf misc.mem_writef misc.mem_deletef "w" false
       misc.sample_lazy).1.2
  = misc.fileNames misc.sample_lazy.
Proof.
  split; [reflexivity |].
  exact (proj1 (completed_write_loads_every_entry misc.mem_readf misc.mem_writef
                  misc.mem_deletef misc.sample_lazy "w" false _ _ eq_refl)).
Defined.

Lemma eager_read_fails_fast_witness :
  misc_more.idx_readf misc_more.stale_reader "gone.bin"
    = Raise (KeyError "gone.bin") ∧
  misc.read (Writer:=string) misc_more.idx_listdir misc_more.idx_readf
    misc_more.stale_reader false
  = (Raise (KeyError "gone.bin"),
     [misc.EvListdir misc_more.stale_reader;
      misc.EvRead misc_more.stale_reader "a.bin";
      misc.EvRead misc_more.stale_reader "gone.bin"]).
Proof.
  split; [reflexivity |].
  apply (eager_read_fails_fast (Writer:=string) misc_more.idx_listdir
           misc_more.idx_readf misc_more.stale_reader
           ["a.bin"] "gone.bin" ["c.bin"] (KeyError "gone.bin")).
  - reflexivity.
  - intros k ->%list_elem_of_singleton. reflexivity.
  - reflexivity.
Defined.

Lemma lookup_fails_only_with_the_reader_witness :
  misc.mem_reachable misc.sample_lazy ∧
  misc.__getitem__ (Writer:=string) misc.mem_readf "zzz.bin" misc.sample_lazy
  = (Raise (KeyError "zzz.bin"), misc.sample_lazy, []).
Proof.
  split; [exact sample_lazy_reachable |].
  apply (proj2 (lookup_fails_only_with_the_reader misc.mem_listdir misc.mem_readf
                  misc.mem_writef misc.mem_deletef misc.sample_lazy "zzz.bin"
                  sample_lazy_reachable)).
  intros H. repeat (apply elem_of_cons in H as [H|H]; [discriminate |]).
  by apply elem_of_nil in H.
Defined.

(** ** misc.py: [AttrDictMixin] *)

Section AttrDictMixin_facts.
Context {Value : Type}.
Import attrdict.
Implicit Types (self : instance Value) (key : string).

Lemma length_omap_le {A B} (f : A → option B) (l : list A) :
  (length (omap f l) ≤ length l)%nat.
Proof.
  induction l as [|x l IH]; [done |].
  change (omap f (x :: l)) with (match f x with Some y => y :: omap f l | None => omap f l end).
  destruct (f x); simpl; lia.
Qed.

End AttrDictMixin_facts.

Example sample_anchor_mapping :
  attrdict.__iter__ attrdict.sample_anchor = ["x"; "y"; "name"] ∧
  attrdict.__len__ attrdict.sample_anchor = 3 ∧
  attrdict.__getitem__ attrdict.sample_anchor "color" = Ok None ∧
  attrdict.__contains__ attrdict.sample_anchor "color" = true ∧
  attrdict.__contains__ attrdict.sample_anchor "move" = true ∧
  attrdict.__getitem__ attrdict.sample_anchor "angle" = Raise (KeyError "angle").
Proof. split_and!; reflexivity. Qed.

(** ** glyph.py: code points *)

Section unicode_more_facts.
Context {Contour Component Anchor : Type}.
Local Abbreviation glyph := (glyph.Glyph Contour Component Anchor).
Import glyph.
Local Open Scope Z_scope.

(** X9: setting [unicode] to a value never loses a code point: the new
    list is a rearrangement of the old one when the value was in it, and
    of the old one with the value added when it was not; nothing else of
    the glyph changes. *)
Theorem unicode_setter_keeps_code_points (g : glyph) v :
  (if bool_decide (v ∈ unicodes g)
   then unicodes (unicode_setter (Some v) g) ≡ₚ unicodes g
   else unicodes (unicode_setter (Some v) g) = v :: unicodes g) ∧
  unicode_setter (Some v) g
  = set_unicodes (unicodes (unicode_setter (Some v) g)) g.
Proof.
  unfold unicode_setter.
  destruct (unicodes g) as [|u us] eqn:Hus.
  - split; [| done]. rewrite bool_decide_eq_false_2; [done | apply not_elem_of_nil].
  - destruct (decide (u = v)) as [->|Hne].
    + split.
      * rewrite bool_decide_eq_true_2 by left. by rewrite Hus.
      * destruct g. simpl in *. by subst.
    + split; [| done].
      destruct (list_remove v (u :: us)) as [l'|] eqn:Hrm.
      * apply list_remove_Some in Hrm as (l1 & l2 & Heq & _ & ->).
        rewrite Heq. rewrite bool_decide_eq_true_2.
        -- change (v :: l1 ++ l2 ≡ₚ l1 ++ v :: l2). apply Permutation_middle.
        -- apply elem_of_app. right. left.
      * apply list_remove_None in Hrm.
        by rewrite bool_decide_eq_false_2.
Qed.
End unicode_more_facts.

(** ** glyph.py: margins, in general *)

Section margin_more_facts.
Context {Contour Component Anchor Layer : Type}.
Context (contour_move : Z * Z → Contour → Contour).
Context (component_move : Z * Z → Component → Component).
Context (anchor_move : Z * Z → Anchor → Anchor).
Context (misc_getBounds :
  glyph.Glyph Contour Component Anchor → option Layer →
  option glyph.BoundingBox).
Import glyph.
Local Open Scope Z_scope.

Local Abbreviation glyph := (Glyph Contour Component Anchor).
Local Abbreviation move := (glyph.move contour_move component_move anchor_move).
Local Abbreviation getBounds := (glyph.getBounds misc_getBounds).
Local Abbreviation getLeftMargin := (glyph.getLeftMargin misc_getBounds).
Local Abbreviation getRightMargin := (glyph.getRightMargin misc_getBounds).
Local Abbreviation setLeftMargin :=
  (glyph.setLeftMargin contour_move component_move anchor_move misc_getBounds).
Local Abbreviation setRightMargin := (glyph.setRightMargin misc_getBounds).

Hypothesis bounds_move : ∀ delta (g : glyph) layer,
  misc_getBounds (move delta g) layer
  = shift_box delta <$> misc_getBounds g layer.
Hypothesis bounds_width : ∀ w (g : glyph) layer,
  misc_getBounds (set_width w g) layer = misc_getBounds g layer.


End margin_more_facts.



(** ** glyph.py: the lib views and the vertical margins *)

Section lib_view_facts.
Context {Contour Component Anchor Layer : Type}.
Context (misc_getBounds :
  glyph.Glyph Contour Component Anchor → option Layer →
  option glyph.BoundingBox).
Import pyvalue glyph_lib.
Local Open Scope Z_scope.

Local Abbreviation glyphL := (GlyphL Contour Component Anchor).
Local Abbreviation getBounds := (glyph_lib.getBounds misc_getBounds).
Local Abbreviation getTopMargin := (glyph_lib.getTopMargin misc_getBounds).
Local Abbreviation getBottomMargin := (glyph_lib.getBottomMargin misc_getBounds).
Local Abbreviation setTopMargin := (glyph_lib.setTopMargin misc_getBounds).
Local Abbreviation setBottomMargin := (glyph_lib.setBottomMargin misc_getBounds).

Implicit Types (self : glyphL) (v : value).

Lemma dict_get_or_None_set key key' v (d : list (string * value)) :
  dict_get_or_None key' (pydict.set key v d)
  = if decide (key = key') then v else dict_get_or_None key' d.
Proof.
  unfold dict_get_or_None. destruct (decide (key = key')) as [->|Hne].
  - by rewrite dict_get_set_eq.
  - by rewrite dict_get_set_ne.
Qed.

Lemma dict_get_or_None_del key key' (d : list (string * value)) :
  NoDup (pydict.keys d) →
  dict_get_or_None key' (pydict.del key d)
  = if decide (key = key') then VNone else dict_get_or_None key' d.
Proof.
  intros Hnd. unfold dict_get_or_None. destruct (decide (key = key')) as [->|Hne].
  - by rewrite dict_get_del_eq.
  - by rewrite dict_get_del_ne.
Qed.


(** The bounding box is that of the outline: it ignores the height. *)
Hypothesis bounds_height : ∀ h (g : glyph.Glyph Contour Component Anchor) layer,
  misc_getBounds (set_height h g) layer = misc_getBounds g layer.

Lemma verticalOrigin_set n self :
  verticalOrigin (verticalOrigin_setter (VNum n) self) = VNum n.
Proof.
  unfold verticalOrigin, verticalOrigin_setter. simpl.
  rewrite dict_get_or_None_set. by rewrite decide_True.
Qed.

Lemma getBounds_height_lib h l self layer :
  getBounds layer (mkGlyphL (set_height h (core self)) l) = getBounds layer self.
Proof.
  unfold glyph_lib.getBounds, glyph.getBounds. simpl. by rewrite bounds_height.
Qed.


End lib_view_facts.

Lemma poly_bounds_height h g layer :
  glyph.poly_getBounds (glyph_lib.set_height h g) layer
  = glyph.poly_getBounds g layer.
Proof. done. Qed.

Example sample_boxL_bottom_margin :
  glyph_lib.setBottomMargin glyph.poly_getBounds 0 None glyph_lib.sample_boxL
  = (Ok tt,
     glyph_lib.mkGlyphL (glyph_lib.set_height 1000 glyph.sample_box)
       [("public.markColor", pyvalue.VStr "1,0,0,1");
        ("public.verticalOrigin", pyvalue.VNum 1000)]).
Proof. reflexivity. Qed.




(** ** glyph.py: assigning to [anchors] and [guidelines] *)

Section list_setter_facts.
Context {Anchor Guideline Mapping : Type}.
Context (Anchor_init : Mapping → result Anchor).
Context (Guideline_init : Mapping → result Guideline).
Import glyph_lists.

Local Abbreviation appendAnchor := (glyph_lists.appendAnchor Anchor_init).
Local Abbreviation append_anchors := (glyph_lists.append_anchors Anchor_init).
Local Abbreviation anchors_setter := (glyph_lists.anchors_setter Anchor_init).
Local Abbreviation appendGuideline := (glyph_lists.appendGuideline Guideline_init).
Local Abbreviation append_guidelines :=
  (glyph_lists.append_guidelines Guideline_init).
Local Abbreviation guidelines_setter :=
  (glyph_lists.guidelines_setter Guideline_init).

Lemma heap_append_lookup {A} at_ (x : A) (h : gmap nat (list A)) l :
  h !! at_ = Some l → heap_append at_ x h = <[at_ := l ++ [x]]> h.
Proof.
  intros Hl. unfold heap_append. apply map_eq. intros i.
  destruct (decide (i = at_)) as [->|Hne].
  - by rewrite lookup_alter_eq, lookup_insert_eq, Hl.
  - by rewrite lookup_alter_ne, lookup_insert_ne.
Qed.

Lemma appendAnchor_accepts x self h :
  match accepts Anchor_init x with
  | Some obj =>
      ∀ l, h !! _anchors self = Some l →
           appendAnchor x self h
           = (Ok tt, <[_anchors self := l ++ [IsInstance obj]]> h)
  | None => is_ok (appendAnchor x self h).1 = false ∧ (appendAnchor x self h).2 = h
  end.
Proof.
  destruct x as [obj|m|n]; simpl.
  - intros l Hl. by rewrite (heap_append_lookup _ _ _ _ Hl).
  - destruct (Anchor_init m); [| done].
    intros l Hl. by rewrite (heap_append_lookup _ _ _ _ Hl).
  - done.
Qed.

Lemma append_anchors_prefix l1 objs rest self h l :
  Forall2 (λ x obj, accepts Anchor_init x = Some obj) l1 objs →
  h !! _anchors self = Some l →
  append_anchors (l1 ++ rest) self h
  = append_anchors rest self (<[_anchors self := l ++ (IsInstance <$> objs)]> h).
Proof.
  intros Hall. revert h l.
  induction Hall as [|x obj items objs Hx _ IH]; intros h l Hl; simpl.
  - by rewrite app_nil_r, insert_id.
  - pose proof (appendAnchor_accepts x self h) as Hap. rewrite Hx in Hap.
    rewrite (Hap l Hl).
    rewrite (IH _ (l ++ [IsInstance obj])) by apply lookup_insert_eq.
    by rewrite insert_insert_eq, <- app_assoc.
Qed.

(** X15: assigning to [anchors] empties the glyph's list first.  If the
    value is the glyph's own list, as in [glyph.anchors = glyph.anchors],
    the glyph ends up without anchors.  If the value is another list whose
    items are all accepted, the glyph's list holds the accepted objects,
    in order, and nothing of what it held before.  If an item is not
    accepted, the setter raises at that item: the anchors the glyph had
    are gone and only the items before the rejected one have been
    appended. *)
Theorem anchors_setter_clears_first self (h : gmap nat (list (item Anchor Mapping)))
    value :
  (value = _anchors self →
     anchors_setter value self h = (Ok tt, <[_anchors self := []]> h)) ∧
  (value ≠ _anchors self →
     ∀ items, h !! value = Some items →
       (∀ objs, mapM (accepts Anchor_init) items = Some objs →
          anchors_setter value self h
          = (Ok tt, <[_anchors self := IsInstance <$> objs]> h)) ∧
       (∀ l1 objs bad l2,
          items = l1 ++ bad :: l2 →
          mapM (accepts Anchor_init) l1 = Some objs →
          accepts Anchor_init bad = None →
          is_ok (anchors_setter value self h).1 = false ∧
          (anchors_setter value self h).2
          = <[_anchors self := IsInstance <$> objs]> h)).
Proof.
  unfold glyph_lists.anchors_setter, clearAnchors. split.
  - intros ->. by rewrite lookup_insert_eq.
  - intros Hne items Hitems. rewrite lookup_insert_ne by done. rewrite Hitems.
    simpl. split.
    + intros objs Hobjs%mapM_Some.
      rewrite <- (app_nil_r items).
      rewrite (append_anchors_prefix _ _ [] _ _ [] Hobjs) by apply lookup_insert_eq.
      simpl. by rewrite insert_insert_eq.
    + intros l1 objs bad l2 -> Hobjs%mapM_Some Hbad.
      rewrite (append_anchors_prefix _ _ _ _ _ [] Hobjs) by apply lookup_insert_eq.
      simpl. rewrite insert_insert_eq.
      pose proof (appendAnchor_accepts bad self
                    (<[_anchors self := IsInstance <$> objs]> h)) as Hap.
      rewrite Hbad in Hap. destruct Hap as [Hres Hh].
      destruct (appendAnchor bad self _) as [[[]|e] h1]; simpl in *; [done |].
      by subst.
Qed.

Lemma appendGuideline_accepts x self h :
  match accepts Guideline_init x with
  | Some obj =>
      ∀ l, h !! _guidelines self = Some l →
           appendGuideline x self h
           = (Ok tt, <[_guidelines self := l ++ [IsInstance obj]]> h)
  | None =>
      is_ok (appendGuideline x self h).1 = false ∧ (appendGuideline x self h).2 = h
  end.
Proof.
  destruct x as [obj|m|n]; simpl.
  - intros l Hl. by rewrite (heap_append_lookup _ _ _ _ Hl).
  - destruct (Guideline_init m); [| done].
    intros l Hl. by rewrite (heap_append_lookup _ _ _ _ Hl).
  - done.
Qed.

Lemma append_guidelines_prefix l1 objs rest self h l :
  Forall2 (λ x obj, accepts Guideline_init x = Some obj) l1 objs →
  h !! _guidelines self = Some l →
  append_guidelines (l1 ++ rest) self h
  = append_guidelines rest self
      (<[_guidelines self := l ++ (IsInstance <$> objs)]> h).
Proof.
  intros Hall. revert h l.
  induction Hall as [|x obj items objs Hx _ IH]; intros h l Hl; simpl.
  - by rewrite app_nil_r, insert_id.
  - pose proof (appendGuideline_accepts x self h) as Hap. rewrite Hx in Hap.
    rewrite (Hap l Hl).
    rewrite (IH _ (l ++ [IsInstance obj])) by apply lookup_insert_eq.
    by rewrite insert_insert_eq, <- app_assoc.
Qed.

(** X16: the [guidelines] setter of a glyph behaves like its [anchors]
    setter: the glyph's own list assigned to itself leaves the glyph
    without guidelines; a list of accepted items replaces what the glyph
    held; a rejected item makes the setter raise after the old
    guidelines are gone and the items before it have been appended. *)
Theorem guidelines_setter_clears_first self
    (h : gmap nat (list (item Guideline Mapping))) value :
  (value = _guidelines self →
     guidelines_setter value self h = (Ok tt, <[_guidelines self := []]> h)) ∧
  (value ≠ _guidelines self →
     ∀ items, h !! value = Some items →
       (∀ objs, mapM (accepts Guideline_init) items = Some objs →
          guidelines_setter value self h
          = (Ok tt, <[_guidelines self := IsInstance <$> objs]> h)) ∧
       (∀ l1 objs bad l2,
          items = l1 ++ bad :: l2 →
          mapM (accepts Guideline_init) l1 = Some objs →
          accepts Guideline_init bad = None →
          is_ok (guidelines_setter value self h).1 = false ∧
          (guidelines_setter value self h).2
          = <[_guidelines self := IsInstance <$> objs]> h)).
Proof.
  unfold glyph_lists.guidelines_setter, clearGuidelines. split.
  - intros ->. by rewrite lookup_insert_eq.
  - intros Hne items Hitems. rewrite lookup_insert_ne by done. rewrite Hitems.
    simpl. split.
    + intros objs Hobjs%mapM_Some.
      rewrite <- (app_nil_r items).
      rewrite (append_guidelines_prefix _ _ [] _ _ [] Hobjs)
        by apply lookup_insert_eq.
      simpl. by rewrite insert_insert_eq.
    + intros l1 objs bad l2 -> Hobjs%mapM_Some Hbad.
      rewrite (append_guidelines_prefix _ _ _ _ _ [] Hobjs)
        by apply lookup_insert_eq.
      simpl. rewrite insert_insert_eq.
      pose proof (appendGuideline_accepts bad self
                    (<[_guidelines self := IsInstance <$> objs]> h)) as Hap.
      rewrite Hbad in Hap. destruct Hap as [Hres Hh].
      destruct (appendGuideline bad self _) as [[[]|e] h1]; simpl in *; [done |].
      by subst.
Qed.
End list_setter_facts.

Example sample_anchors_assigned_to_themselves :
  glyph_lists.anchors_setter (λ m : string, Ok m) 0 glyph_lists.sample_glyph
    glyph_lists.sample_heap
  = (Ok tt, <[0 := []]> glyph_lists.sample_heap).
Proof. vm_compute. reflexivity. Qed.

Example sample_anchors_assigned_a_bad_list :
  ∃ msg,
    glyph_lists.anchors_setter (λ m : string, Ok m) 2 glyph_lists.sample_glyph
      glyph_lists.sample_heap
    = (Raise (TypeError msg),
       <[0 := [glyph_lists.IsInstance "left"]]> glyph_lists.sample_heap).
Proof. eexists. vm_compute. reflexivity. Qed.

(** ** font.py: [glyphOrder] and [guidelines] *)

Section Font_more_facts.
Context {Layer Guideline Mapping Rest Features Groups Kerning DataSet ImageSet : Type}.
Context {Structure : Type}.
Context (Guideline_init : Mapping → result Guideline).
Import pyvalue font_more.

Local Abbreviation font :=
  (font.Font Layer (Info Guideline Rest) Features Groups Kerning
     (list (string * value)) DataSet ImageSet Structure).
Local Abbreviation appendGuideline := (font_more.appendGuideline Guideline_init).
Local Abbreviation guidelines_setter :=
  (font_more.guidelines_setter Guideline_init).

Implicit Types (self : font).

(** X17: the [glyphOrder] setter stores a value that is not empty under
    "public.glyphOrder", and the getter returns its items: the names of a
    list, but also the characters of a string, which the setter accepts
    as well.  [None] or an empty value removes the key, and the getter
    then answers the empty list, as it does on a lib without the key.  A
    number has no length: the setter raises [TypeError] and changes
    nothing.  No other key of the lib is touched. *)
Theorem glyphOrder_round_trip self :
  NoDup (pydict.keys (font.lib self)) →
  (∀ names, names ≠ [] →
     (glyphOrder_setter (VList names) self).1 = Ok tt ∧
     glyphOrder (glyphOrder_setter (VList names) self).2 = Ok names) ∧
  (∀ s, s ≠ "" →
     (glyphOrder_setter (VStr s) self).1 = Ok tt ∧
     glyphOrder (glyphOrder_setter (VStr s) self).2
     = Ok ((λ c, VStr (String c EmptyString)) <$> list_ascii_of_string s)) ∧
  (∀ v, v = VNone ∨ py_len v = Ok 0%nat →
     (glyphOrder_setter v self).1 = Ok tt ∧
     pydict.get "public.glyphOrder" (font.lib (glyphOrder_setter v self).2) = None ∧
     glyphOrder (glyphOrder_setter v self).2 = Ok []) ∧
  (pydict.get "public.glyphOrder" (font.lib self) = None → glyphOrder self = Ok []) ∧
  (∀ n, ∃ msg, glyphOrder_setter (VNum n) self = (Raise (TypeError msg), self)) ∧
  (∀ v key, key ≠ "public.glyphOrder" →
     pydict.get key (font.lib (glyphOrder_setter v self).2)
     = pydict.get key (font.lib self)).
Proof.
  intros Hnd.
  assert (∀ v, is_None v = false → (∃ n, py_len v = Ok (S n)) →
            glyphOrder_setter v self
            = (Ok tt, set_lib (pydict.set "public.glyphOrder" v (font.lib self)) self))
    as Hset.
  { intros v Hv [n Hn]. unfold glyphOrder_setter. by rewrite Hv, Hn. }
  assert (∀ v, v = VNone ∨ py_len v = Ok 0%nat →
            glyphOrder_setter v self
            = if bool_decide (is_Some (pydict.get "public.glyphOrder" (font.lib self)))
              then (Ok tt, set_lib (pydict.del "public.glyphOrder" (font.lib self)) self)
              else (Ok tt, self)) as Hdel.
  { intros v [->|Hv]; [done |]. unfold glyphOrder_setter.
    destruct (is_None v); [done |]. by rewrite Hv. }
  split_and!.
  - intros names Hne. rewrite Hset; [| done |].
    + split; [done |]. unfold glyphOrder. simpl. by rewrite dict_get_set_eq.
    + destruct names; [done |]. by eexists.
  - intros s Hne. rewrite Hset; [| done |].
    + split; [done |]. unfold glyphOrder. simpl. by rewrite dict_get_set_eq.
    + destruct s; [done |]. by eexists.
  - intros v Hv. rewrite (Hdel v Hv). case_bool_decide as Hk; simpl.
    + split_and!; [done | by apply dict_get_del_eq |].
      unfold glyphOrder. simpl. by rewrite dict_get_del_eq.
    + assert (pydict.get "public.glyphOrder" (font.lib self) = None) as Hnone.
      { destruct (pydict.get _ _); [| done]. exfalso. apply Hk. by eexists. }
      split_and!; [done | done |]. unfold glyphOrder. by rewrite Hnone.
  - intros Hnone. unfold glyphOrder. by rewrite Hnone.
  - intros n. by eexists.
  - intros v key Hne. unfold glyphOrder_setter.
    destruct (is_None v).
    + case_bool_decide; simpl; [by apply dict_get_del_ne | done].
    + destruct (py_len v) as [n|e]; [| done].
      destruct (bool_decide (n = 0%nat)); simpl; [| by apply dict_get_set_ne].
      case_bool_decide; simpl; [by apply dict_get_del_ne | done].
Qed.

Lemma font_appendGuideline_accepts x self :
  appendGuideline x self
  = match glyph_lists.accepts Guideline_init x with
    | Some g =>
        (Ok tt,
         set_info (mkInfo (guidelines (font.info self) ++ [g])
                     (info_rest (font.info self))) self)
    | None => ((appendGuideline x self).1, self)
    end ∧
  (glyph_lists.accepts Guideline_init x = None →
   is_ok (appendGuideline x self).1 = false).
Proof.
  unfold font_more.appendGuideline.
  destruct x as [g|m|n]; simpl; [done | | done].
  by destruct (Guideline_init m).
Qed.

Lemma font_guidelines_setter_prefix l1 objs rest self :
  Forall2 (λ x g, glyph_lists.accepts Guideline_init x = Some g) l1 objs →
  guidelines_setter (l1 ++ rest) self
  = guidelines_setter rest
      (set_info (mkInfo (guidelines (font.info self) ++ objs)
                   (info_rest (font.info self))) self).
Proof.
  intros Hall. revert self.
  induction Hall as [|x g items objs Hx _ IH]; intros self; simpl.
  - rewrite app_nil_r. by destruct self as [? [] ? ? ? ? ? ? ? ? ?].
  - destruct (font_appendGuideline_accepts x self) as [-> _]. rewrite Hx.
    rewrite IH. simpl. by rewrite <- app_assoc.
Qed.

(** X18: the [guidelines] setter of a font does not replace the
    guidelines of the font: it appends.  Given a list of accepted items,
    the font keeps the guidelines it had and gains the accepted objects
    after them, so that assigning the empty list changes nothing; at an
    item that is not accepted the setter raises, having appended the
    items before it. *)
Theorem font_guidelines_setter_appends self items :
  (∀ objs, mapM (glyph_lists.accepts Guideline_init) items = Some objs →
     guidelines_setter items self
     = (Ok tt,
        set_info (mkInfo (font_guidelines self ++ objs)
                    (info_rest (font.info self))) self)) ∧
  (∀ l1 objs bad l2,
     items = l1 ++ bad :: l2 →
     mapM (glyph_lists.accepts Guideline_init) l1 = Some objs →
     glyph_lists.accepts Guideline_init bad = None →
     is_ok (guidelines_setter items self).1 = false ∧
     (guidelines_setter items self).2
     = set_info (mkInfo (font_guidelines self ++ objs)
                   (info_rest (font.info self))) self).
Proof.
  split.
  - intros objs Hobjs%mapM_Some. rewrite <- (app_nil_r items).
    by rewrite (font_guidelines_setter_prefix _ _ [] _ Hobjs).
  - intros l1 objs bad l2 -> Hobjs%mapM_Some Hbad.
    rewrite (font_guidelines_setter_prefix _ _ _ _ Hobjs). simpl.
    destruct (font_appendGuideline_accepts bad
                (set_info (mkInfo (guidelines (font.info self) ++ objs)
                             (info_rest (font.info self))) self)) as [Heq Hfail].
    rewrite Hbad in Heq. specialize (Hfail Hbad). rewrite Heq.
    by destruct (appendGuideline bad _) as [[[]|e] self1].
Qed.
End Font_more_facts.

Lemma glyphOrder_round_trip_witness :
  NoDup (pydict.keys
           (font.lib (font_more.sample_font_with_lib
                        [("com.example.key", pyvalue.VNum 1)]))) ∧
  font_more.glyphOrder
    (font_more.glyphOrder_setter
       (pyvalue.VList [pyvalue.VStr "A"; pyvalue.VStr "B"])
       (font_more.sample_font_with_lib [("com.example.key", pyvalue.VNum 1)])).2
  = Ok [pyvalue.VStr "A"; pyvalue.VStr "B"].
Proof.
  assert (NoDup (pydict.keys
            (font.lib (font_more.sample_font_with_lib
                         [("com.example.key", pyvalue.VNum 1)])))) as Hnd.
  { apply NoDup_singleton. }
  split; [exact Hnd |].
  exact (proj2 (proj1 (glyphOrder_round_trip _ Hnd)
                  [pyvalue.VStr "A"; pyvalue.VStr "B"] ltac:(done))).
Defined.

Example font_guidelines_assigned_the_empty_list :
  font_more.guidelines_setter (λ m : string, Ok m) []
    (font_more.sample_font_with_lib [])
  = (Ok tt, font_more.sample_font_with_lib []) ∧
  font_more.font_guidelines (font_more.sample_font_with_lib []) = ["baseline"].
Proof. split; reflexivity. Qed.

(** ** font.py: more about [save] *)

Section Font_save_more_facts.
Context {Layer Info Features Groups Kerning Lib DataSet ImageSet : Type}.
Context {Structure StructureArg : Type}.
Context (DEFAULT_LAYER_NAME : string) (layer_name : Layer → string).
Context (normpath basename : string → string).
Context (UFOFileStructure : StructureArg → result Structure).
Context (writer_do :
  font.Writer → font.writer_call Info Features Groups Kerning Lib Structure →
  font.FS → result unit * font.FS).
Context (layers_write :
  font.LayerSet Layer → font.Writer → bool → font.FS →
  result unit * font.LayerSet Layer * font.FS).
Context (data_write :
  DataSet → font.Writer → bool → font.FS → result unit * DataSet * font.FS).
Context (images_write :
  ImageSet → font.Writer → bool → font.FS → result unit * ImageSet * font.FS).
Context (os_fault : font.os_call → font.FS → option exn).
Import font.

Local Abbreviation font :=
  (Font Layer Info Features Groups Kerning Lib DataSet ImageSet Structure).
Local Abbreviation try_body :=
  (font.try_body DEFAULT_LAYER_NAME layer_name writer_do layers_write data_write
     images_write).
Local Abbreviation save :=
  (font.save DEFAULT_LAYER_NAME layer_name normpath basename UFOFileStructure
     writer_do layers_write data_write images_write os_fault).
Local Abbreviation resolve_structure :=
  (font.resolve_structure (Layer:=Layer) (Info:=Info) (Features:=Features)
     (Groups:=Groups) (Kerning:=Kerning) (Lib:=Lib) (DataSet:=DataSet)
     (ImageSet:=ImageSet) UFOFileStructure).

(** X19: the arguments of [save] are checked before anything is written.
    A [structure] that [UFOFileStructure] rejects raises its exception; a
    path that exists, without [overwrite], raises [OSError] with
    [EEXIST]; no path at all on a font that has none raises [TypeError].
    In the three cases no writer is made, and the font and the file
    system are what they were. *)
Theorem save_checks_arguments_first
    (self : font) path structure overwrite validate wid fs :
  (∀ e, resolve_structure self structure = Raise e →
     save self path 3 structure overwrite validate wid fs = (Raise e, self, fs)) ∧
  (∀ st np, resolve_structure self structure = Ok st →
     normalize normpath path = Some (PStr np) →
     is_Some (disk fs !! np) → overwrite = false →
     ∃ msg, save self path 3 structure overwrite validate wid fs
            = (Raise (OSError EEXIST msg), self, fs)) ∧
  (∀ st, resolve_structure self structure = Ok st →
     path = None → _path self = None →
     save self path 3 structure overwrite validate wid fs
     = (Raise (TypeError "'path' is required when saving a new Font"), self, fs)).
Proof.
  split_and!.
  - intros e He. unfold font.save. rewrite decide_False by (intros H; by apply H).
    fold resolve_structure. by rewrite He.
  - intros st np Hst Hnorm Hex ->. unfold font.save.
    rewrite decide_False by (intros H; by apply H).
    fold resolve_structure. rewrite Hst, Hnorm. unfold exists_.
    rewrite bool_decide_eq_true_2 by done. by eexists.
  - intros st Hst -> Hp. unfold font.save.
    rewrite decide_False by (intros H; by apply H).
    fold resolve_structure. rewrite Hst. simpl. by rewrite Hp.
Qed.

(** X20: where [save] does not stage.  A path that does not exist, a
    file-system object, and the font's own path when no path is given are
    written to directly: the file system after [save] is the one the
    writer leaves, also when the writing raises, and the font remembers
    the destination only if the writing returns.  In particular a save
    without a path writes over the font's own path with [saveAs] false,
    whatever [overwrite] says. *)
Theorem save_writes_directly
    (self : font) path structure st overwrite validate wid fs :
  resolve_structure self structure = Ok st →
  (∀ np, normalize normpath path = Some (PStr np) → disk fs !! np = None →
     save self path 3 structure overwrite validate wid fs
     = let body := try_body (mkWriter wid (OnDisk np)) st validate true self fs in
       (body.1.1,
        if is_ok body.1.1 then set_path (Some (PStr np)) body.1.2 else body.1.2,
        body.2)) ∧
  (∀ handle, path = Some (PathFS handle) →
     save self path 3 structure overwrite validate wid fs
     = let body := try_body (mkWriter wid (OnFS handle)) st validate true self fs in
       (body.1.1,
        if is_ok body.1.1 then set_path (Some (PFS handle)) body.1.2 else body.1.2,
        body.2)) ∧
  (∀ p, path = None → _path self = Some p →
     save self path 3 structure overwrite validate wid fs
     = let body :=
         try_body (mkWriter wid (target_of p)) st validate false self fs in
       (body.1.1,
        if is_ok body.1.1 then set_path (Some p) body.1.2 else body.1.2,
        body.2)).
Proof.
  intros Hst. split_and!.
  - intros np Hnorm Hex. unfold font.save.
    rewrite decide_False by (intros H; by apply H).
    fold resolve_structure. rewrite Hst, Hnorm. unfold exists_.
    rewrite bool_decide_eq_false_2 by (rewrite Hex; by intros [? ?]).
    simpl.
    destruct (try_body _ _ _ _ _ _) as [[[[]|e] self1] fs1]; done.
  - intros handle ->. unfold font.save.
    rewrite decide_False by (intros H; by apply H).
    fold resolve_structure. rewrite Hst. simpl.
    destruct (try_body _ _ _ _ _ _) as [[[[]|e] self1] fs1]; done.
  - intros p -> Hp. unfold font.save.
    rewrite decide_False by (intros H; by apply H).
    fold resolve_structure. rewrite Hst. simpl. rewrite Hp. simpl.
    destruct (try_body _ _ _ _ _ _) as [[[[]|e] self1] fs1]; done.
Qed.

Hypothesis writer_do_confined : ∀ w c fs t name,
  writer_target w = InTemp t name → only_in_temp t fs (writer_do w c fs).2.
Hypothesis layers_write_confined : ∀ ls w saveAs fs t name,
  writer_target w = InTemp t name →
  only_in_temp t fs (layers_write ls w saveAs fs).2.
Hypothesis data_write_confined : ∀ d w saveAs fs t name,
  writer_target w = InTemp t name →
  only_in_temp t fs (data_write d w saveAs fs).2.
Hypothesis images_write_confined : ∀ im w saveAs fs t name,
  writer_target w = InTemp t name →
  only_in_temp t fs (images_write im w saveAs fs).2.

(** X21: the replacement that follows a staged write is not undone.  When
    the font has been written to the staging directory and the directory
    at the destination has been removed, an error of [shutil.move] makes
    [save] raise that error with the destination gone: the old font is
    removed, the new one, which was in the temporary directory, is
    removed with it, and the font object keeps the path it had. *)
Theorem failed_replacement_loses_the_destination
    (self : font) pa np entries structure st validate wid fs e :
  normalize normpath (Some pa) = Some (PStr np) →
  disk fs !! np = Some (Dir entries) →
  resolve_structure self structure = Ok st →
  let t := fresh (dom (temps fs)) in
  let body :=
    try_body (mkWriter wid (InTemp t (basename np))) st validate true self
      (mkFS (disk fs) (<[t:=∅]> (temps fs))) in
  body.1.1 = Ok tt →
  os_fault (Rmtree np) body.2 = None →
  os_fault (Move t (basename np) np)
    (mkFS (delete np (disk body.2)) (temps body.2)) = Some e →
  save self (Some pa) 3 structure true validate wid fs
  = (Raise e, body.1.2, mkFS (delete np (disk fs)) (temps fs)) ∧
  _path body.1.2 = _path self.
Proof.
  intros Hnorm Hex Hst t body Hok Hrm Hmv.
  assert (temps fs !! t = None) as Hfresh.
  { apply not_elem_of_dom. apply is_fresh. }
  pose proof (try_body_confined DEFAULT_LAYER_NAME layer_name writer_do
                layers_write data_write images_write
                writer_do_confined layers_write_confined data_write_confined
                images_write_confined
                (mkWriter wid (InTemp t (basename np))) st validate true self
                (mkFS (disk fs) (<[t:=∅]> (temps fs))) t (basename np) eq_refl)
    as Hconf.
  fold body in Hconf.
  pose proof (tmp_close_restores t fs body.2 Hfresh Hconf) as Hclose.
  pose proof (try_body_path DEFAULT_LAYER_NAME layer_name writer_do
                layers_write data_write images_write
                (mkWriter wid (InTemp t (basename np))) st validate true self
                (mkFS (disk fs) (<[t:=∅]> (temps fs)))) as Hpath.
  fold body in Hpath. split; [| done].
  destruct Hconf as [Hdisk _]. simpl in Hdisk.
  unfold font.save. rewrite decide_False by (intros H; by apply H).
  fold resolve_structure. rewrite Hst, Hnorm. unfold exists_.
  rewrite bool_decide_eq_true_2 by (by rewrite Hex). unfold TempFS.
  simpl. fold t. fold body.
  destruct body as [[res self1] fs1]. simpl in *. subst res.
  unfold replace_destination, os_delete, shutil_move, isdir.
  rewrite Hdisk in Hmv. rewrite Hdisk, Hex, Hrm. simpl. rewrite Hmv. simpl.
  f_equal. unfold tmp_close in *. simpl. f_equal.
  destruct fs as [d ts]. simpl in *. by injection Hclose.
Qed.
End Font_save_more_facts.

Example failed_save_in_place_has_overwritten :
  font.sim_save (font_faults.opened_font "unwritable") None 3 None false true 0
    font.sample_disk
  = (Raise (OSError 28 "No space left on device"),
     font_faults.opened_font "unwritable",
     font.mkFS
       {[ "old.ufo" :=
            font.Dir [("metainfo.plist", "3"); ("lib.plist", "old lib");
                      ("features.fea", "feature liga;");
                      ("groups.plist", "groups"); ("fontinfo.plist", "info")] ]}
       ∅).
Proof. vm_compute. reflexivity. Qed.

Example failed_move_after_overwrite :
  font_faults.sim_save_move_fails (font.sample_font "kerning")
    (Some (font.PathStr "old.ufo")) 3 None true true 0 font.sample_disk
  = (Raise (OSError 13 "Permission denied"), font.sample_font "kerning",
     font.mkFS ∅ ∅).
Proof. vm_compute. reflexivity. Qed.

Lemma save_writes_directly_witness :
  font.resolve_structure (Layer:=string) (Info:=string) (Features:=string)
    (Groups:=string) (Kerning:=string) (Lib:=string) (DataSet:=string)
    (ImageSet:=string) font.sim_UFOFileStructure
    (font_faults.opened_font "unwritable") None = Ok None ∧
  (font.sim_save (font_faults.opened_font "unwritable") None 3 None true true 0
     font.sample_disk).1.1
  = Raise (OSError 28 "No space left on device").
Proof.
  split; [reflexivity |].
  unfold font.sim_save.
  rewrite (proj2 (proj2
    (save_writes_directly "public.default" (λ name, name) (λ p, p)
       font.sim_basename font.sim_UFOFileStructure font.sim_writer_do
       font.sim_layers_write font.sim_data_write font.sim_images_write
       (λ _ _, None) (font_faults.opened_font "unwritable") None None None
       true true 0 font.sample_disk eq_refl))
    (font.PStr "old.ufo") eq_refl eq_refl).
  vm_compute. reflexivity.
Defined.

Lemma failed_replacement_loses_the_destination_witness :
  font.disk font.sample_disk !! "old.ufo"
    = Some (font.Dir [("metainfo.plist", "3"); ("lib.plist", "old lib")]) ∧
  font.disk
    (font_faults.sim_save_move_fails (font.sample_font "kerning")
       (Some (font.PathStr "old.ufo")) 3 None true true 0 font.sample_disk).2
    !! "old.ufo"
  = None.
Proof.
  split; [vm_compute; reflexivity |].
  unfold font_faults.sim_save_move_fails.
  rewrite (proj1
    (failed_replacement_loses_the_destination "public.default" (λ name, name)
       (λ p, p) font.sim_basename font.sim_UFOFileStructure font.sim_writer_do
       font.sim_layers_write font.sim_data_write font.sim_images_write
       font_faults.move_fails
       sim_writer_do_confined sim_layers_write_confined sim_data_write_confined
       sim_images_write_confined
       (font.sample_font "kerning") (font.PathStr "old.ufo") "old.ufo"
       [("metainfo.plist", "3"); ("lib.plist", "old lib")]
       None None true 0 font.sample_disk (OSError 13 "Permission denied")
       eq_refl ltac:(vm_compute; reflexivity) eq_refl
       ltac:(vm_compute; reflexivity) eq_refl eq_refl)).
  vm_compute. reflexivity.
Defined.

(** ** glyph.py: [drawPoints] *)

Section glyph_drawPoints_facts.
Context {Contour Component Anchor Variation Pen : Type}.
Context (contour_drawPoints : Contour → Pen → Pen * result unit).
Context (component_drawPoints : Component → Pen → Pen * result unit).
Context (addDeepComponent :
  Pen → string → list Z → list (Z * Z) → option (option string) →
  Pen * result unit).
Import glyph_draw.

Local Abbreviation glyphD := (GlyphD Contour Component Anchor Variation).
Local Abbreviation drawPoints :=
  (glyph_draw.drawPoints (Variation:=Variation) (Anchor:=Anchor)
     contour_drawPoints component_drawPoints addDeepComponent).
Local Abbreviation draw_each := (glyph_draw.draw_each (Pen:=Pen)).

End glyph_drawPoints_facts.

Lemma enumerate_values_spec coord :
  (glyph_draw.enumerate_values coord).*1 = Z.of_nat <$> seq 0 (length coord) ∧
  (glyph_draw.enumerate_values coord).*2 = coord.*2.
Proof.
  unfold glyph_draw.enumerate_values.
  assert (∀ n, (imap (λ i (kv : string * Z), (Z.of_nat (n + i), kv.2)) coord).*1
               = Z.of_nat <$> seq n (length coord) ∧
               (imap (λ i (kv : string * Z), (Z.of_nat (n + i), kv.2)) coord).*2
               = coord.*2) as H.
  { induction coord as [|[k v] coord IH]; intros n; [done |].
    rewrite imap_cons, !fmap_cons. simpl. rewrite Nat.add_0_r.
    destruct (IH (S n)) as [IH1 IH2].
    assert (imap ((λ i (kv : string * Z), (Z.of_nat (n + i), kv.2)) ∘ S) coord
            = imap (λ i (kv : string * Z), (Z.of_nat (S n + i), kv.2)) coord) as ->.
    { apply imap_ext. intros i x _. simpl. f_equal. f_equal. lia. }
    by rewrite IH1, IH2. }
  apply (H 0%nat).
Qed.

Lemma draw_deep_record_pen dcs calls :
  glyph_draw.draw_deep glyph_draw.record_pen_add dcs calls
  = (calls ++ ((λ dc, (glyph_draw.dc_name dc,
                       [glyph_draw.dc_x dc; glyph_draw.dc_y dc;
                        glyph_draw.dc_scalex dc; glyph_draw.dc_scaley dc;
                        glyph_draw.dc_rotation dc],
                       glyph_draw.enumerate_values (glyph_draw.dc_coord dc),
                       Some None)) <$> dcs),
     Ok tt, []).
Proof.
  revert calls. induction dcs as [|dc dcs IH]; intros calls; simpl.
  - by rewrite app_nil_r.
  - unfold deepComponent.drawPoints. simpl. rewrite IH. by rewrite <- app_assoc.
Qed.

(** X23: the deep components as a pen that accepts them receives them.
    A glyph without contours and components makes one [addDeepComponent]
    call for every entry of the lib, those of the atomic elements first
    and those of the deep components after them, each in the order of
    its list; the call carries the name and the five numbers of the
    entry, the values of [coord] numbered from 0 in place of their axis
    names, and the keyword [identifier=None]; no warning is issued. *)
Theorem drawPoints_passes_lib_deep_components
    (l : glyph_draw.robocjk_lib) layers (vars : list string) calls :
  let self := glyph_draw.mkGlyphD glyph_lib.empty_glyph l layers vars in
  let out :=
    glyph_draw.drawPoints (λ c pen, (pen, Ok tt)) (λ (c : Empty_set) pen, (pen, Ok tt))
      glyph_draw.record_pen_add self calls in
  out.1.1.1.1 = Ok tt ∧
  out.1.1.2
  = calls ++
    ((λ dc, (glyph_draw.dc_name dc,
             [glyph_draw.dc_x dc; glyph_draw.dc_y dc; glyph_draw.dc_scalex dc;
              glyph_draw.dc_scaley dc; glyph_draw.dc_rotation dc],
             glyph_draw.enumerate_values (glyph_draw.dc_coord dc),
             Some None))
       <$> (default [] (glyph_draw.atomicElements l)
            ++ default [] (glyph_draw.deepComponents l))) ∧
  out.1.2 = [] ∧
  (∀ dc, (glyph_draw.enumerate_values (glyph_draw.dc_coord dc)).*1
         = Z.of_nat <$> seq 0 (length (glyph_draw.dc_coord dc)) ∧
         (glyph_draw.enumerate_values (glyph_draw.dc_coord dc)).*2
         = (glyph_draw.dc_coord dc).*2).
Proof.
  intros self out. unfold out, glyph_draw.drawPoints. simpl.
  rewrite !draw_deep_record_pen.
  split_and!.
  - by destruct (glyph_draw.glyphVariations l).
  - rewrite fmap_app, app_assoc. by destruct (glyph_draw.glyphVariations l).
  - by destruct (glyph_draw.glyphVariations l).
  - intros dc. apply enumerate_values_spec.
Qed.

Example sample_glyphD_drawPoints :
  glyph_draw.drawPoints (λ c pen, (pen, Ok tt)) (λ (c : Empty_set) pen, (pen, Ok tt))
    glyph_draw.record_pen_add glyph_draw.sample_glyphD []
  = (Ok tt,
     glyph_draw.addDepth ["bold"; "wide"] glyph_draw.sample_glyphD,
     [("DC_53E3_00", [10; 20; 1; 1; 0]%Z, [(0, 500); (1, 250)]%Z, Some None)],
     [], []).
Proof. reflexivity. Qed.
